(** * AI-Transcriber: the job pipeline, its circuit breaker, health
      snapshot, event bus and transcriber slots

    A shallow embedding of the orchestration code of the backend
    ([backend/app/core/llm.py], [services/health_service.py],
    [services/event_service.py], [services/summarizer_service.py],
    [services/transcription.py] and [tasks.py]) together with the
    properties the specification states about it.

    Python objects are modelled by the [value] type below; a [dict] is a
    finite map from string keys, which is what the payload threaded
    through the task chain is.  Calls that leave the process (HTTP,
    Redis, the database driver, the speech models) take their result
    from an explicit outcome argument, so every function is total and
    can be evaluated on concrete inputs. *)

From Stdlib Require Import ZArith Lia Bool Ascii String List.
From stdpp Require Import base option list gmap strings pretty.

Set Warnings "-register-all".
Set Default Proof Using "Type".
Open Scope string_scope.

(* ================================================================= *)
(** * Part I: definitions *)
(* ================================================================= *)

(* ----------------------------------------------------------------- *)
(** ** Python values *)
(* ----------------------------------------------------------------- *)

Module Py.

(** The JSON-like values carried by payloads and events.  Floats only
    occur as timings (segment start and end, durations) that the chain
    passes on; a float is kept as the fraction [num/den] it denotes. *)
Inductive value : Type :=
| VNone
| VBool (b : bool)
| VInt (z : Z)
| VFloat (num den : Z)
| VStr (s : string)
| VList (l : list value)
| VDict (d : gmap string value).

Abbreviation dict := (gmap string value).

(** [bool(v)]: what [if v] and [not v] test. *)
Definition truthy (v : value) : bool :=
  match v with
  | VNone => false
  | VBool b => b
  | VInt z => negb (z =? 0)%Z
  | VFloat n _ => negb (n =? 0)%Z
  | VStr s => negb (String.eqb s "")
  | VList l => match l with [] => false | _ :: _ => true end
  | VDict d => negb (bool_decide (d = ∅))
  end.

Definition isinstance_str (v : value) : bool :=
  match v with VStr _ => true | _ => false end.

Definition isinstance_dict (v : value) : bool :=
  match v with VDict _ => true | _ => false end.

(** [d.get(k)]: the value, or [None] when the key is absent. *)
Definition get (d : dict) (k : string) : value :=
  default VNone (d !! k).

(** [d.get(k, dflt)]. *)
Definition get_or (d : dict) (k : string) (dflt : value) : value :=
  default dflt (d !! k).

(** [a or b]. *)
Definition or_else (a b : value) : value :=
  if truthy a then a else b.

(** *** Strings

    A [string] stands for a Python [str] whose code points are below
    256, one [ascii] per code point. *)

(** [c.isspace()] on those code points: TAB..CR, FS..US, space, NEL
    and NBSP. *)
Definition isspace (c : ascii) : bool :=
  let n := nat_of_ascii c in
  ((9 <=? n) && (n <=? 13) || (28 <=? n) && (n <=? 32)
   || (n =? 133) || (n =? 160))%nat.

(** [s.split()] with no separator: maximal runs of non-space
    characters.  [cur] is the word being read, reversed. *)
Fixpoint split_go (s : string) (cur : list ascii) : list string :=
  let flush (rest : list string) :=
    match cur with
    | [] => rest
    | _ :: _ => string_of_list_ascii (rev cur) :: rest
    end in
  match s with
  | EmptyString => flush []
  | String c s' =>
      if isspace c then flush (split_go s' [])
      else split_go s' (c :: cur)
  end.

Definition split (s : string) : list string := split_go s [].

Fixpoint lstrip (s : string) : string :=
  match s with
  | EmptyString => EmptyString
  | String c s' => if isspace c then lstrip s' else s
  end.

Definition reverse (s : string) : string :=
  string_of_list_ascii (rev (list_ascii_of_string s)).

(** [s.strip()]. *)
Definition strip (s : string) : string :=
  reverse (lstrip (reverse (lstrip s))).

(** [needle in hay] on two strings. *)
Fixpoint contains (needle hay : string) : bool :=
  String.prefix needle hay
  || match hay with
     | EmptyString => false
     | String _ hay' => contains needle hay'
     end.

(** What leaves a call: a returned value or a raised exception.
    [is_exception] tells whether the raised object is an instance of
    [Exception], which is what [except Exception] catches;
    [KeyboardInterrupt], [SystemExit] and a cancellation are not. *)
Record exn : Type := Exn { is_exception : bool; message : string }.

Inductive outcome (A : Type) : Type :=
| Returns (a : A)
| Raises (e : exn).
Arguments Returns {A} a.
Arguments Raises {A} e.

Definition error (msg : string) : exn := Exn true msg.

(** A call that, when it fails, fails with an [Exception]. *)
Definition fails_with_exception {A : Type} (o : outcome A) : Prop :=
  forall e, o = Raises e -> is_exception e = true.

End Py.

Import Py.

(* ----------------------------------------------------------------- *)
(** ** The event bus: [services/event_service.py] *)
(* ----------------------------------------------------------------- *)

Module EventBus.

(** One call of [publish_event]. *)
Record event : Type := Event {
  channel : string;
  event_type : string;
  payload : value
}.

Inductive log_line : Type :=
| LogDebug (msg : string)
| LogError (msg : string).

(** The synchronous Redis client as the publisher sees it: the
    messages it accepted and the lines written to the logger. *)
Record EventService : Type := {
  sent : list (string * string);
  log : list log_line
}.

(** What the two fallible calls of one publish do: [json.dumps] on
    the envelope and [redis_sync.publish]. *)
Record wire : Type := {
  json_dumps : outcome string;
  redis_publish : outcome Z
}.

(** [try: body except Exception as e: handler(e)] over a state [S]:
    the handler runs only for instances of [Exception]; anything else
    keeps propagating. *)
Definition try_except {S A : Type}
    (body : S -> S * outcome A) (handler : exn -> S -> S * outcome A)
    (s : S) : S * outcome A :=
  match body s with
  | (s', Returns a) => (s', Returns a)
  | (s', Raises e) =>
      if is_exception e then handler e s' else (s', Raises e)
  end.

Definition publish_body (chan ty : string) (w : wire)
    (es : EventService) : EventService * outcome unit :=
  match json_dumps w with
  | Raises e => (es, Raises e)
  | Returns msg =>
      match redis_publish w with
      | Raises e => (es, Raises e)
      | Returns _ =>
          ({| sent := sent es ++ [(chan, msg)];
              log := log es ++
                [LogDebug ("Published event " ++ ty ++ " to " ++ chan)] |},
           Returns tt)
      end
  end.

Definition publish_handler (e : exn)
    (es : EventService) : EventService * outcome unit :=
  ({| sent := sent es;
      log := log es ++
        [LogError ("Failed to publish event to Redis: " ++ message e)] |},
   Returns tt).

(** [EventService.publish_event(channel, event_type, payload)].  The
    payload only reaches the wire through [json.dumps], whose result
    is [json_dumps w]. *)
Definition publish_event (es : EventService)
    (chan ty : string) (pl : value) (w : wire)
    : EventService * outcome unit :=
  try_except (publish_body chan ty w) publish_handler es.

End EventBus.

(* ----------------------------------------------------------------- *)
(** ** Subsystem health: [services/health_service.py] *)
(* ----------------------------------------------------------------- *)

Module Health.
Import EventBus.

Inductive ServiceStatus : Type :=
| READY | INITIALIZING | DEGRADED | ERROR | UNAVAILABLE.

#[export] Instance ServiceStatus_eq_dec : EqDecision ServiceStatus.
Proof. solve_decision. Defined.

(** The enum is a [str] subclass; these are its values. *)
Definition status_value (s : ServiceStatus) : value :=
  VStr match s with
       | READY => "ready"
       | INITIALIZING => "initializing"
       | DEGRADED => "degraded"
       | ERROR => "error"
       | UNAVAILABLE => "unavailable"
       end.

Definition error_value (e : option string) : value :=
  match e with Some m => VStr m | None => VNone end.

(** The process-wide singleton, with the events it has published. *)
Record SystemHealthService : Type := {
  transcriber_status : ServiceStatus;
  transcriber_error : option string;
  llm_status : ServiceStatus;
  llm_error : option string;
  speaker_diarization_status : ServiceStatus;
  speaker_diarization_error : option string;
  (** the lengths of the three Celery lists, or the exception the
      Redis client raises *)
  redis_llen : outcome (Z * Z * Z);
  published : list event
}.

Definition _init (redis : outcome (Z * Z * Z)) : SystemHealthService :=
  {| transcriber_status := INITIALIZING; transcriber_error := None;
     llm_status := INITIALIZING; llm_error := None;
     speaker_diarization_status := INITIALIZING;
     speaker_diarization_error := None;
     redis_llen := redis; published := [] |}.

(** The [overall] variable of [get_status]: an if/elif cascade. *)
Definition overall_status (h : SystemHealthService) : ServiceStatus :=
  if decide (transcriber_status h = ERROR) then ERROR
  else if bool_decide (llm_status h ∈ [ERROR; UNAVAILABLE; DEGRADED])
  then DEGRADED
  else if bool_decide (speaker_diarization_status h ∈ [ERROR])
  then DEGRADED
  else if bool_decide (transcriber_status h = INITIALIZING)
          || bool_decide (llm_status h = INITIALIZING)
          || bool_decide (speaker_diarization_status h = INITIALIZING)
  then INITIALIZING
  else READY.

Definition _get_task_queue_depth (h : SystemHealthService) : dict :=
  match redis_llen h with
  | Returns (t, p, m) =>
      {[ "transcription" := VInt t; "processing" := VInt p;
         "maintenance" := VInt m ]}
  | Raises _ => ∅
  end.

Definition component (s : ServiceStatus) (e : option string) : value :=
  VDict {[ "status" := status_value s; "error" := error_value e ]}.

Definition get_status (h : SystemHealthService) : dict :=
  let overall := overall_status h in
  let task_queue_depth := _get_task_queue_depth h in
  {[ "overall_status" := status_value overall;
     "components" := VDict
       {[ "transcriber" :=
            component (transcriber_status h) (transcriber_error h);
          "llm" := component (llm_status h) (llm_error h);
          "speaker_diarization" :=
            component (speaker_diarization_status h)
                      (speaker_diarization_error h) ]};
     "task_queue" := VDict
       {[ "transcription_queue_depth" :=
            get_or task_queue_depth "transcription" (VInt 0);
          "processing_queue_depth" :=
            get_or task_queue_depth "processing" (VInt 0);
          "maintenance_queue_depth" :=
            get_or task_queue_depth "maintenance" (VInt 0) ]} ]}.

(** The publish that ends every setter: the snapshot is taken after
    the fields are written. *)
Definition publish_status (h : SystemHealthService) : SystemHealthService :=
  {| transcriber_status := transcriber_status h;
     transcriber_error := transcriber_error h;
     llm_status := llm_status h; llm_error := llm_error h;
     speaker_diarization_status := speaker_diarization_status h;
     speaker_diarization_error := speaker_diarization_error h;
     redis_llen := redis_llen h;
     published := published h ++
       [Event "system_status" "system_status" (VDict (get_status h))] |}.

Definition set_transcriber_status (h : SystemHealthService)
    (status : ServiceStatus) (error : option string) : SystemHealthService :=
  publish_status
    {| transcriber_status := status; transcriber_error := error;
       llm_status := llm_status h; llm_error := llm_error h;
       speaker_diarization_status := speaker_diarization_status h;
       speaker_diarization_error := speaker_diarization_error h;
       redis_llen := redis_llen h; published := published h |}.

Definition set_llm_status (h : SystemHealthService)
    (status : ServiceStatus) (error : option string) : SystemHealthService :=
  if bool_decide (llm_status h = status) && bool_decide (llm_error h = error)
  then h
  else publish_status
    {| transcriber_status := transcriber_status h;
       transcriber_error := transcriber_error h;
       llm_status := status; llm_error := error;
       speaker_diarization_status := speaker_diarization_status h;
       speaker_diarization_error := speaker_diarization_error h;
       redis_llen := redis_llen h; published := published h |}.

Definition set_speaker_diarization_status (h : SystemHealthService)
    (status : ServiceStatus) (error : option string) : SystemHealthService :=
  publish_status
    {| transcriber_status := transcriber_status h;
       transcriber_error := transcriber_error h;
       llm_status := llm_status h; llm_error := llm_error h;
       speaker_diarization_status := status;
       speaker_diarization_error := error;
       redis_llen := redis_llen h; published := published h |}.

(** The ordering the specification names for a worst-of-N snapshot:
    ERROR above DEGRADED and UNAVAILABLE, those above INITIALIZING,
    that above READY. *)
Definition severity (s : ServiceStatus) : nat :=
  match s with
  | READY => 0
  | INITIALIZING => 1
  | DEGRADED | UNAVAILABLE => 2
  | ERROR => 3
  end.

Definition worst (a b : ServiceStatus) : ServiceStatus :=
  if (severity a <? severity b)%nat then b else a.

(** What each subsystem weighs in the cascade of [get_status]. *)
Definition transcriber_weight (s : ServiceStatus) : ServiceStatus :=
  match s with
  | ERROR => ERROR
  | INITIALIZING => INITIALIZING
  | _ => READY
  end.

Definition llm_weight (s : ServiceStatus) : ServiceStatus :=
  match s with
  | ERROR | UNAVAILABLE | DEGRADED => DEGRADED
  | INITIALIZING => INITIALIZING
  | READY => READY
  end.

Definition speaker_diarization_weight (s : ServiceStatus) : ServiceStatus :=
  match s with
  | ERROR => DEGRADED
  | INITIALIZING => INITIALIZING
  | _ => READY
  end.

(** A health record with the three statuses given and no error. *)
Definition health_of (t l d : ServiceStatus) : SystemHealthService :=
  {| transcriber_status := t; transcriber_error := None;
     llm_status := l; llm_error := None;
     speaker_diarization_status := d; speaker_diarization_error := None;
     redis_llen := Returns (0, 0, 0)%Z; published := [] |}.

(** The worst of the three statuses, as a severity. *)
Definition worst_severity (h : SystemHealthService) : nat :=
  Nat.max (severity (transcriber_status h))
    (Nat.max (severity (llm_status h))
             (severity (speaker_diarization_status h))).

End Health.

(* ----------------------------------------------------------------- *)
(** ** The guarded LLM client: [core/llm.py] *)
(* ----------------------------------------------------------------- *)

Module Llm.
Import Health.

(** [response.json()]: the decoded body, or the decoder's error. *)
Inductive body : Type :=
| Json (v : value)
| NotJson (msg : string).

(** One HTTP exchange of [httpx.AsyncClient]: a response, or an
    exception raised by the request (connection refused, timeout). *)
Inductive http : Type :=
| Response (status_code : Z) (b : body)
| RequestError (msg : string).

(** The client, the health singleton it reports to, and two counters
    kept for the statements: HTTP requests issued and recovery
    monitors started with [asyncio.create_task]. *)
Record LlmClient : Type := {
  ollama_url : string;
  model : string;
  circuit_open : bool;
  consecutive_failures : nat;
  max_failures : nat;
  probe_interval_seconds : nat;
  health : SystemHealthService;
  requests : nat;
  monitors : nat
}.

Definition __init__ (h : SystemHealthService) (url mdl : string)
    : LlmClient :=
  {| ollama_url := url; model := mdl;
     circuit_open := false; consecutive_failures := 0;
     max_failures := 2; probe_interval_seconds := 30;
     health := set_llm_status h INITIALIZING None;
     requests := 0; monitors := 0 |}.

Definition _trip_circuit (c : LlmClient) (reason : string) : LlmClient :=
  if circuit_open c then c
  else
    {| ollama_url := ollama_url c; model := model c;
       circuit_open := true;
       consecutive_failures := consecutive_failures c;
       max_failures := max_failures c;
       probe_interval_seconds := probe_interval_seconds c;
       health := set_llm_status (health c) UNAVAILABLE (Some reason);
       requests := requests c;
       monitors := S (monitors c) |}.

Definition _reset_circuit (c : LlmClient) : LlmClient :=
  {| ollama_url := ollama_url c; model := model c;
     circuit_open := false;
     consecutive_failures := 0;
     max_failures := max_failures c;
     probe_interval_seconds := probe_interval_seconds c;
     health := set_llm_status (health c) READY None;
     requests := requests c; monitors := monitors c |}.

(** [self.consecutive_failures += 1] followed by the threshold test,
    as both failure branches of [generate] do. *)
Definition count_failure (c : LlmClient) (reason : string) : LlmClient :=
  let c1 :=
    {| ollama_url := ollama_url c; model := model c;
       circuit_open := circuit_open c;
       consecutive_failures := S (consecutive_failures c);
       max_failures := max_failures c;
       probe_interval_seconds := probe_interval_seconds c;
       health := health c;
       requests := requests c; monitors := monitors c |} in
  if (max_failures c1 <=? consecutive_failures c1)%nat
  then _trip_circuit c1 reason
  else c1.

(** The request itself: one more HTTP exchange on the wire. *)
Definition send (c : LlmClient) : LlmClient :=
  {| ollama_url := ollama_url c; model := model c;
     circuit_open := circuit_open c;
     consecutive_failures := consecutive_failures c;
     max_failures := max_failures c;
     probe_interval_seconds := probe_interval_seconds c;
     health := health c;
     requests := S (requests c); monitors := monitors c |}.

Definition type_name (v : value) : string :=
  match v with
  | VNone => "NoneType" | VBool _ => "bool" | VInt _ => "int"
  | VFloat _ _ => "float" | VStr _ => "str" | VList _ => "list"
  | VDict _ => "dict"
  end.

Definition no_attribute (v : value) (attr : string) : string :=
  "'" ++ type_name v ++ "' object has no attribute '" ++ attr ++ "'".

(** [response.json()] then [result.get("response", "").strip()]. *)
Definition response_text (b : body) : outcome string :=
  match b with
  | NotJson msg => Raises (error msg)
  | Json (VDict d) =>
      match get_or d "response" (VStr "") with
      | VStr s => Returns (strip s)
      | v => Raises (error (no_attribute v "strip"))
      end
  | Json v => Raises (error (no_attribute v "get"))
  end.

(** [LlmClient.generate]: the reply ([None] for no content) and the
    client afterwards. *)
Definition generate (c : LlmClient) (r : http) : LlmClient * option string :=
  if circuit_open c then (c, None)
  else
    let c := send c in
    match r with
    | Response status_code b =>
        if (status_code =? 200)%Z then
          let c := _reset_circuit c in
          match response_text b with
          | Returns text => (c, Some text)
          | Raises e =>
              (count_failure c ("Connection failure: " ++ message e), None)
          end
        else
          (count_failure c ("Ollama error " ++ pretty status_code), None)
    | RequestError msg =>
        (count_failure c ("Connection failure: " ++ msg), None)
    end.

(** Iterating over [models_data.get("models", [])]. *)
Definition iterate (v : value) : outcome (list value) :=
  match v with
  | VList l => Returns l
  | VStr s =>
      Returns (map (fun ch => VStr (String ch EmptyString))
                   (list_ascii_of_string s))
  | VDict d => Returns (map (fun kv => VStr kv.1) (map_to_list d))
  | v => Raises (error ("'" ++ type_name v ++ "' object is not iterable"))
  end.

(** [[m.get("name") for m in models]]. *)
Fixpoint names_of (models : list value) : outcome (list value) :=
  match models with
  | [] => Returns []
  | VDict m :: rest =>
      match names_of rest with
      | Returns names => Returns (get m "name" :: names)
      | Raises e => Raises e
      end
  | v :: _ => Raises (error (no_attribute v "get"))
  end.

(** [self.model in m] for one listed name. *)
Definition model_in (mdl : string) (m : value) : outcome bool :=
  match m with
  | VStr s => Returns (contains mdl s)
  | VList l =>
      Returns (existsb (fun x => match x with
                                 | VStr s => String.eqb s mdl
                                 | _ => false
                                 end) l)
  | VDict d => Returns (bool_decide (is_Some (d !! mdl)))
  | v => Raises (error ("argument of type '" ++ type_name v
                        ++ "' is not iterable"))
  end.

(** [any(self.model in m for m in model_names)], left to right. *)
Fixpoint any_model_in (mdl : string) (names : list value) : outcome bool :=
  match names with
  | [] => Returns false
  | m :: rest =>
      match model_in mdl m with
      | Returns true => Returns true
      | Returns false => any_model_in mdl rest
      | Raises e => Raises e
      end
  end.

Definition model_listed (mdl : string) (b : body) : outcome bool :=
  match b with
  | NotJson msg => Raises (error msg)
  | Json (VDict d) =>
      match iterate (get_or d "models" (VList [])) with
      | Returns models =>
          match names_of models with
          | Returns names => any_model_in mdl names
          | Raises e => Raises e
          end
      | Raises e => Raises e
      end
  | Json v => Raises (error (no_attribute v "get"))
  end.

Definition report (c : LlmClient) (status : ServiceStatus)
    (err : option string) : LlmClient :=
  {| ollama_url := ollama_url c; model := model c;
     circuit_open := circuit_open c;
     consecutive_failures := consecutive_failures c;
     max_failures := max_failures c;
     probe_interval_seconds := probe_interval_seconds c;
     health := set_llm_status (health c) status err;
     requests := requests c; monitors := monitors c |}.

(** [LlmClient.check_connection]: the probe of [/api/tags]. *)
Definition check_connection (c : LlmClient) (r : http) : LlmClient * bool :=
  let c := send c in
  match r with
  | Response status_code b =>
      if (status_code =? 200)%Z then
        match model_listed (model c) b with
        | Returns true => (_reset_circuit c, true)
        | Returns false =>
            (report c UNAVAILABLE
               (Some ("Model " ++ model c ++ " missing")), false)
        | Raises e =>
            (_trip_circuit c ("Connection failed: " ++ message e), false)
        end
      else
        (_trip_circuit c ("Ollama returned " ++ pretty status_code), false)
  | RequestError msg =>
      (_trip_circuit c ("Connection failed: " ++ msg), false)
  end.

(** [_monitor_recovery]: one probe per interval while the circuit is
    open; [probes] are the exchanges of the successive intervals. *)
Fixpoint _monitor_recovery (c : LlmClient) (probes : list http) : LlmClient :=
  if circuit_open c then
    match probes with
    | [] => c
    | r :: probes' =>
        let (c', ok) := check_connection c r in
        if ok then c' else _monitor_recovery c' probes'
    end
  else c.

(** A run of the client: calls made one after the other, each with
    the exchange it meets. *)
Inductive call : Type :=
| Generate (r : http)
| Probe (r : http).

Definition step (c : LlmClient) (k : call) : LlmClient :=
  match k with
  | Generate r => (generate c r).1
  | Probe r => (check_connection c r).1
  end.

Definition run (c : LlmClient) (ks : list call) : LlmClient :=
  fold_left step ks c.

(** A generate call that fails: it sends its request and ends in one
    of the two failure branches, which count it and return [None]. *)
Definition generate_fails (r : http) : bool :=
  match r with
  | Response status_code b =>
      if (status_code =? 200)%Z then
        match response_text b with
        | Returns _ => false
        | Raises _ => true
        end
      else true
  | RequestError _ => true
  end.

(** A generate call that fails before any 200 response: the request
    raises, or the status is not 200. *)
Definition failed_exchange (r : http) : bool :=
  match r with
  | Response status_code _ => negb (status_code =? 200)%Z
  | RequestError _ => true
  end.

(** A probe that trips the breaker: the request raises, the status
    is not 200, or reading the tag list raises. *)
Definition probe_trips (mdl : string) (r : http) : bool :=
  match r with
  | Response status_code b =>
      if (status_code =? 200)%Z then
        match model_listed mdl b with
        | Raises _ => true
        | Returns _ => false
        end
      else true
  | RequestError _ => true
  end.

(** A probe that succeeds: status 200 and the model among the tags. *)
Definition probe_succeeds (mdl : string) (r : http) : bool :=
  match r with
  | Response status_code b =>
      (status_code =? 200)%Z
      && match model_listed mdl b with
         | Returns true => true
         | _ => false
         end
  | RequestError _ => false
  end.


(** A client as [LlmClient()] makes it, on a fresh health singleton. *)
Definition fresh : LlmClient :=
  __init__ (_init (Returns (0, 0, 0)%Z))
    "http://localhost:11434/api/generate" "llama3".

End Llm.

(* ----------------------------------------------------------------- *)
(** ** Summaries: [services/summarizer_service.py] *)
(* ----------------------------------------------------------------- *)

Module Summarizer.
Import Llm.

(** The rows the service reads and writes.  Columns hold Python
    values; timestamps are integers. *)
Record CorrectedTranscript : Type := {
  corrected_content : value;
  corrected_at : Z
}.

Record Transcription : Type := {
  corrected_transcripts : list CorrectedTranscript;
  raw_transcript : option value
}.

Record MeetingSummary : Type := {
  summary_id : string;
  transcription_id : value;
  content : value;
  model_used : string;
  meeting_type : value;
  created_at : Z
}.

(** The committed content of the database. *)
Record Session : Type := {
  transcriptions : gmap string Transcription;
  summaries : list MeetingSummary
}.

Record SummarizerService : Type := {
  db : Session;
  llm : LlmClient
}.

(** What one call meets outside the process. *)
Record calls : Type := {
  (** the exchange [llm.generate] gets, if it sends one, for the
      prompt [build_summary_prompt] makes of a text *)
  exchange : string -> http;
  (** [json.loads(_sanitize_json_response(response_text))] *)
  loads : string -> body;
  (** [self.db.commit()] after the summary is staged *)
  commit : outcome unit;
  (** [self.db.commit()] of the error record *)
  commit_error_state : outcome unit;
  (** [uuid.uuid4()], [datetime.utcnow()], [settings.LLM_MODEL] *)
  uuid4 : string;
  utcnow : Z;
  LLM_MODEL : string
}.

(** [query(Transcription).filter(Transcription.id == tid).first()]. *)
Definition find_transcription (s : Session) (tid : value)
    : option Transcription :=
  match tid with
  | VStr k => transcriptions s !! k
  | _ => None
  end.

(** [sorted(cts, key=lambda x: x.corrected_at, reverse=True)[0]]: the
    sort is stable, so among equal dates the earlier row wins. *)
Fixpoint latest (cts : list CorrectedTranscript) : option CorrectedTranscript :=
  match cts with
  | [] => None
  | x :: rest =>
      match latest rest with
      | None => Some x
      | Some y => if (corrected_at x <? corrected_at y)%Z then Some y else Some x
      end
  end.

(** Step 1 of [generate_summary]: the text handed in, or what the
    database holds when none was.  [None] is the early return for a
    transcription that does not exist. *)
Definition text_to_summarize (s : Session) (tid text : value) : option value :=
  if truthy text then Some text
  else
    match find_transcription s tid with
    | None => None
    | Some transcription =>
        match latest (corrected_transcripts transcription) with
        | Some l => Some (corrected_content l)
        | None =>
            match raw_transcript transcription with
            | Some c => Some c
            | None => Some text
            end
        end
    end.

(** [len(t.split())]; a value that is not a string has no [split]. *)
Definition word_count (t : value) : outcome nat :=
  match t with
  | VStr s => Returns (length (split s))
  | v => Raises (error (no_attribute v "split"))
  end.

Definition same_transcription (tid : value) (m : MeetingSummary) : bool :=
  match tid, transcription_id m with
  | VStr a, VStr b => String.eqb a b
  | _, _ => false
  end.

(** [existing.content = ...] on the first matching row, or
    [db.add(new_summary)] when there is none. *)
Fixpoint upsert (tid : value) (new : MeetingSummary)
    (rows : list MeetingSummary) : list MeetingSummary :=
  match rows with
  | [] => [new]
  | m :: rest =>
      if same_transcription tid m then
        {| summary_id := summary_id m;
           transcription_id := transcription_id m;
           content := content new;
           model_used := model_used new;
           meeting_type := meeting_type new;
           created_at := created_at new |} :: rest
      else m :: upsert tid new rest
  end.

Definition with_db (svc : SummarizerService) (s : Session) : SummarizerService :=
  {| db := s; llm := llm svc |}.

Definition with_llm (svc : SummarizerService) (c : LlmClient) : SummarizerService :=
  {| db := db svc; llm := c |}.

Definition with_summaries (s : Session) (rows : list MeetingSummary) : Session :=
  {| transcriptions := transcriptions s; summaries := rows |}.

(** Step 3: the summary text and meeting type read off the reply. *)
Definition parse_reply (k : calls) (response_text : string)
    : outcome (value * value) :=
  match loads k response_text with
  | NotJson _ => Returns (VStr response_text, VStr "Unknown")
  | Json (VDict data) =>
      match get_or data "summary" (VStr "") with
      | VStr s =>
          Returns (VStr (strip s),
                   get_or data "meeting_type" (VStr "General Meeting"))
      | v => Raises (error (no_attribute v "strip"))
      end
  | Json v => Raises (error (no_attribute v "get"))
  end.

(** The [except Exception] arm of step 2: roll back, then record the
    failure unless a summary already exists. *)
Definition save_error_state (svc : SummarizerService) (k : calls)
    (tid : value) : SummarizerService :=
  if existsb (same_transcription tid) (summaries (db svc)) then svc
  else
    match commit_error_state k with
    | Raises _ => svc
    | Returns _ =>
        with_db svc (with_summaries (db svc)
          (summaries (db svc) ++
           [{| summary_id := uuid4 k; transcription_id := tid;
               content := VStr "Summary generation failed. Please try again later.";
               model_used := "error"; meeting_type := VStr "Error";
               created_at := utcnow k |}]))
    end.

(** Steps 2 to 4, run once the text is long enough. *)
Definition summarize (svc : SummarizerService) (k : calls) (tid : value)
    (text : string) : SummarizerService * option dict :=
  let (c, reply) := generate (llm svc) (exchange k text) in
  let svc := with_llm svc c in
  match reply with
  | None => (svc, None)
  | Some response_text =>
      if String.eqb response_text "" then (svc, None)
      else
        match parse_reply k response_text with
        | Raises _ => (save_error_state svc k tid, None)
        | Returns (summary_content, mtype) =>
            match commit k with
            | Raises _ => (save_error_state svc k tid, None)
            | Returns _ =>
                (with_db svc (with_summaries (db svc)
                   (upsert tid
                      {| summary_id := uuid4 k; transcription_id := tid;
                         content := summary_content;
                         model_used := LLM_MODEL k;
                         meeting_type := mtype;
                         created_at := utcnow k |}
                      (summaries (db svc)))),
                 Some {[ "status" := VStr "success"; "type" := mtype;
                         "content" := summary_content ]})
            end
        end
  end.

(** The defensive check that opens [generate_summary]: an id that
    arrives as a dict is replaced by its own ["id"]. *)
Definition resolve_id (tid : value) : value :=
  match tid with VDict d => get d "id" | _ => tid end.

(** [SummarizerService.generate_summary(transcription_id, text)]. *)
Definition generate_summary (svc : SummarizerService) (k : calls)
    (tid text : value) : SummarizerService * outcome (option dict) :=
  let tid := resolve_id tid in
  if negb (truthy tid) then (svc, Returns None)
  else
    match text_to_summarize (db svc) tid text with
    | None => (svc, Returns None)
    | Some t =>
        if negb (truthy t) then (svc, Returns None)
        else
          match t, word_count t with
          | VStr s, Returns n =>
              if (n <? 20)%nat then (svc, Returns None)
              else let (svc', r) := summarize svc k tid s in (svc', Returns r)
          | _, Raises e => (svc, Raises e)
          | _, Returns _ => (svc, Returns None)
          end
    end.

End Summarizer.

(* ----------------------------------------------------------------- *)
(** ** The task chain: [tasks.py] *)
(* ----------------------------------------------------------------- *)

Module Pipeline.
Import EventBus Health Summarizer.

(** What a worker process can observe and change: the database, the
    health singleton, the calls made to [event_service.publish_event],
    the tasks handed to the broker with [.delay], and the retries
    asked of Celery (task id and countdown). *)
Record World : Type := {
  store : Session;
  health : SystemHealthService;
  published : list event;
  queue : list (string * list value);
  retried : list (string * Z)
}.

(** [self.request] of a bound task. *)
Record request : Type := {
  id : string;
  retries : nat
}.

(** The collaborators of the chain: settings, the speech and speaker
    models, the persistence layer, the LLM-backed services.  Each is
    given by what it returns (and, for the persistence layer, by what
    it does to the database). *)
Record collaborators : Type := {
  SKIP_CONTEXT_EXTRACTION : bool;
  CONTEXT_MIN_SPEECH_LENGTH : Z;
  OLLAMA_BASE_URL : string;
  (** [transcriber_cache.get_transcriber(backend, model_size)] *)
  get_transcriber : string -> string -> outcome unit;
  (** [transcribe(audio_path, language, initial_prompt)] of the
      transcriber of a given size *)
  transcribe : string -> value -> outcome value;
  extract_context_keywords : string -> outcome value;
  (** [get_speaker_service().diarize(audio_path)] *)
  diarize : outcome value;
  merge_speaker_segments_with_transcript : value -> value -> outcome value;
  save_transcription : Session -> value -> string -> Session * outcome string;
  auto_correct : Session -> value -> value -> Session * outcome value;
  extract_speaker_names_from_transcript : value -> nat -> outcome value;
  update_speaker_names : Session -> value -> dict -> Session * outcome unit;
  (** the outside world of [SummarizerService.generate_summary] *)
  summary_calls : calls;
  parse_summary : value -> outcome dict;
  (** [str()] of a float, a list or a dict *)
  repr : value -> string
}.

(** *** A state-and-exception monad for task bodies *)

Definition task (A : Type) : Type := World -> World * outcome A.

Definition ret {A : Type} (a : A) : task A := fun w => (w, Returns a).

Definition raise {A : Type} (e : exn) : task A := fun w => (w, Raises e).

Definition bind {A B : Type} (m : task A) (f : A -> task B) : task B :=
  fun w =>
    match m w with
    | (w', Returns a) => f a w'
    | (w', Raises e) => (w', Raises e)
    end.

Definition lift {A : Type} (o : outcome A) : task A := fun w => (w, o).

Notation "x <- m ;; k" := (bind m (fun x => k))
  (at level 100, m at next level, right associativity).
Notation "m ;;; k" := (bind m (fun _ => k))
  (at level 100, right associativity).

(** [event_service.publish_event(channel=..., event_type=...,
    payload=...)]: it returns whatever the transport does (see
    [EventBus.publish_event]), so the call is what is recorded. *)
Definition publish (chan ty : string) (pl : dict) : task unit :=
  fun w =>
    ({| store := store w; health := health w;
        published := published w ++ [Event chan ty (VDict pl)];
        queue := queue w; retried := retried w |}, Returns tt).

(** [some_task.delay(args)]. *)
Definition delay (name : string) (args : list value) : task unit :=
  fun w =>
    ({| store := store w; health := health w; published := published w;
        queue := queue w ++ [(name, args)]; retried := retried w |},
     Returns tt).

(** A call into the persistence layer. *)
Definition on_store {A : Type} (f : Session -> Session * outcome A) : task A :=
  fun w =>
    let (s, r) := f (store w) in
    ({| store := s; health := health w; published := published w;
        queue := queue w; retried := retried w |}, r).

(** [str(v)], as an f-string formats it. *)
Definition str (x : collaborators) (v : value) : string :=
  match v with
  | VStr s => s
  | VInt z => pretty z
  | VBool true => "True"
  | VBool false => "False"
  | VNone => "None"
  | v => repr x v
  end.

Definition task_channel (x : collaborators) (channel_id : value) : string :=
  "app:task_" ++ str x channel_id.

(** [v[k] = a] on a payload. *)
Definition set_item (v : value) (k : string) (a : value) : outcome value :=
  match v with
  | VDict d => Returns (VDict (<[k := a]> d))
  | v => Raises (error ("'" ++ Llm.type_name v
                        ++ "' object does not support item assignment"))
  end.

(** The "robust input handling" that opens the three chained tasks:
    the transcription id and the payload as a dict. *)
Definition robust_input (result : value) : value * value :=
  match result with
  | VStr s => (VStr s, VDict {[ "id" := VStr s ]})
  | VDict d =>
      (match get d "id" with
       | VDict inner => get inner "id"
       | transcription_id => transcription_id
       end, result)
  | _ => (VNone, result)
  end.

(** *** Stage 1: [transcribe_audio_task] *)

Definition max_retries_transcribe : nat := 3.

Definition progress (self : request) (stage msg : string) : dict :=
  {[ "task_id" := VStr (id self); "stage" := VStr stage;
     "message" := VStr msg ]}.

(** Pass 1: the fast transcription that mines context keywords.  Any
    [Exception] inside resets the keywords to the empty string. *)
Definition context_pass (x : collaborators) (self : request)
    (backend : string) : task value :=
  if SKIP_CONTEXT_EXTRACTION x then ret (VStr "")
  else
    publish (task_channel x (VStr (id self))) "task_progress"
      (progress self "scanning" "Global Context Scan...") ;;;
    try_except
      (_ <- lift (get_transcriber x backend "tiny") ;;
       pre_result <- lift (transcribe x "tiny" VNone) ;;
       let pre_text :=
         match pre_result with
         | VDict d => get_or d "text" (VStr "")
         | _ => VStr ""
         end in
       if truthy pre_text then
         match pre_text with
         | VStr s =>
             if (CONTEXT_MIN_SPEECH_LENGTH x <? Z.of_nat (length (split s)))%Z
             then
               context_keywords <- lift (extract_context_keywords x s) ;;
               (if truthy context_keywords && isinstance_str context_keywords
                then publish (task_channel x (VStr (id self)))
                       "context_extracted"
                       {[ "task_id" := VStr (id self);
                          "keywords" := context_keywords ]}
                else ret tt) ;;;
               ret context_keywords
             else ret (VStr "")
         | v => raise (error (Llm.no_attribute v "split"))
         end
       else ret (VStr ""))
      (fun _ => ret (VStr "")).

(** [safe_diarize]: an [Exception] in speaker detection becomes an
    empty list of speaker segments. *)
Definition safe_diarize (x : collaborators) : outcome value :=
  match diarize x with
  | Returns segments => Returns segments
  | Raises e => if is_exception e then Returns (VList []) else Raises e
  end.

(** [asyncio.gather(a, b)]: both results, or the exception of the one
    that raised (the first listed when both do). *)
Definition gather {A B : Type} (a : outcome A) (b : outcome B)
    : outcome (A * B) :=
  match a, b with
  | Returns ra, Returns rb => Returns (ra, rb)
  | Raises e, _ => Raises e
  | _, Raises e => Raises e
  end.

Definition final_prompt (context_keywords : value) : value :=
  match context_keywords with
  | VStr s =>
      if truthy context_keywords && (0 <? String.length (strip s))%nat
      then VStr ("Keywords: " ++ s) else VNone
  | _ => VNone
  end.

(** Pass 2: transcription and speaker detection run in parallel and
    joined; the pair is [(result, speaker_segments)]. *)
Definition parallel_pass (x : collaborators) (self : request)
    (model_size : string) (context_keywords : value) : task (value * value) :=
  publish (task_channel x (VStr (id self))) "task_progress"
    (progress self "transcribing" "Listening & Diarizing...") ;;;
  results <-
    lift (gather (transcribe x model_size (final_prompt context_keywords))
                 (safe_diarize x)) ;;
  let result := results.1 in
  let speaker_segments := results.2 in
  result <- (if truthy context_keywords
             then lift (set_item result "context_keywords" context_keywords)
             else ret result) ;;
  ret (result, speaker_segments).

(** [s["speaker"] for s in speaker_segments], which the log line of
    the [finally] block evaluates. *)
Fixpoint speaker_labels (segments : list value) : outcome (list value) :=
  match segments with
  | [] => Returns []
  | VDict s :: rest =>
      match s !! "speaker", speaker_labels rest with
      | Some (VList _ as v), _ | Some (VDict _ as v), _ =>
          Raises (error ("unhashable type: '" ++ Llm.type_name v ++ "'"))
      | Some label, Returns labels => Returns (label :: labels)
      | Some _, Raises e => Raises e
      | None, _ => Raises (error "'speaker'")
      end
  | _ :: _ => Raises (error "indices must be integers")
  end.

(** The [finally] block of the join.  It sees an empty
    [speaker_segments] when the body raised (the variable is assigned
    last), so it only acts on a completed join. *)
Definition merge_speakers (x : collaborators) (result speaker_segments : value)
    : outcome value :=
  if truthy speaker_segments then
    match result with
    | VDict d =>
        match merge_speaker_segments_with_transcript x
                (get_or d "segments" (VList [])) speaker_segments with
        | Returns merged_segments =>
            match Llm.iterate speaker_segments with
            | Returns l =>
                match speaker_labels l with
                | Returns _ => Returns (VDict (<["segments" := merged_segments]> d))
                | Raises e => Raises e
                end
            | Raises e => Raises e
            end
        | Raises e => Raises e
        end
    | v => Raises (error (Llm.no_attribute v "get"))
    end
  else Returns result.

(** Saving, chaining to auto-correction and announcing completion. *)
Definition persist_and_chain (x : collaborators) (self : request)
    (audio_path : string) (result : value) : task value :=
  item_id <- on_store (fun s => save_transcription x s result audio_path) ;;
  match result with
  | VDict d =>
      let d := <["id" := VStr item_id]> d in
      delay "app.tasks.run_auto_correct_task" [VDict d] ;;;
      publish (task_channel x (VStr (id self))) "transcription_complete"
        {[ "id" := VStr item_id; "task_id" := VStr (id self);
           "status" := VStr "SUCCESS";
           "text" := get_or d "text" (VStr "");
           "duration_seconds" := get_or d "duration" (VInt 0) ]} ;;;
      ret (VDict d)
  | v => raise (error ("'" ++ Llm.type_name v
                       ++ "' object does not support item assignment"))
  end.

(** The outer [except Exception]: announce the failure, then
    [raise self.retry(exc=e, countdown=2 ** retries)], which asks for
    another attempt while [retries < max_retries]. *)
Definition fail_and_retry (x : collaborators) (self : request) (e : exn)
    : task value :=
  publish (task_channel x (VStr (id self))) "task_failed"
    {[ "task_id" := VStr (id self); "status" := VStr "FAILED";
       "error" := VStr (message e);
       "attempt" := VInt (Z.of_nat (retries self + 1));
       "max_retries" := VInt (Z.of_nat max_retries_transcribe) ]} ;;;
  fun w =>
    (if (retries self <? max_retries_transcribe)%nat then
       {| store := store w; health := health w; published := published w;
          queue := queue w;
          retried := retried w ++ [(id self, 2 ^ Z.of_nat (retries self))%Z] |}
     else w,
     Raises e).

Definition transcribe_audio_task (x : collaborators) (self : request)
    (audio_path language backend model_size : string) : task value :=
  publish (task_channel x (VStr (id self))) "task_progress"
    (progress self "preprocessing" "Preparing audio...") ;;;
  try_except
    (_ <- lift (get_transcriber x backend model_size) ;;
     context_keywords <- context_pass x self backend ;;
     joined <- parallel_pass x self model_size context_keywords ;;
     result <- lift (merge_speakers x joined.1 joined.2) ;;
     persist_and_chain x self audio_path result)
    (fail_and_retry x self).

(** *** Stage 2: [run_auto_correct_task] *)

(** [context_keywords[:80]] in the log line taken when keywords are
    present: numbers, booleans and dicts cannot be sliced. *)
Definition sliceable (v : value) : outcome unit :=
  match v with
  | VStr _ | VList _ => Returns tt
  | VDict _ => Raises (error "unhashable type: 'slice'")
  | v => Raises (error ("'" ++ Llm.type_name v
                        ++ "' object is not subscriptable"))
  end.

Definition run_auto_correct_task (x : collaborators) (result : value)
    : task value :=
  let (transcription_id, result) := robust_input result in
  if negb (truthy transcription_id) then ret result
  else
    match result with
    | VDict d =>
        let context_keywords := get d "context_keywords" in
        (if truthy context_keywords then lift (sliceable context_keywords)
         else ret tt) ;;;
        corrected_text <-
          on_store (fun s => auto_correct x s transcription_id context_keywords) ;;
        (if truthy corrected_text
         then delay "app.tasks.run_feedback_loop_task"
                [transcription_id; corrected_text]
         else ret tt) ;;;
        let d := if truthy corrected_text
                 then <["auto_correct_status" := VStr "complete"]> d else d in
        let root_task_id := get d "root_task_id" in
        let d := <["corrected_text" := corrected_text]> d in
        let summary_payload : dict :=
          {[ "id" := transcription_id;
             "corrected_text" := get d "corrected_text";
             "text" := get d "text";
             "root_task_id" := root_task_id;
             "segments" := get_or d "segments" (VList []) ]} in
        delay "app.tasks.run_speaker_ident_task" [VDict summary_payload] ;;;
        ret VNone
    | _ => ret result
    end.

(** *** Stage 3: [run_speaker_ident_task] *)

(** Values that are equal as set members get the same key: strings by
    content, numbers by value ([True == 1 == 1.0]). *)
Definition number_key (n d : Z) : string :=
  let g := Z.gcd n d in
  let sgn := if (d <? 0)%Z then (-1)%Z else 1%Z in
  let num := (sgn * n / g)%Z in
  let den := (sgn * d / g)%Z in
  if (den =? 1)%Z then "n" ++ pretty num
  else "f" ++ pretty num ++ "/" ++ pretty den.

Definition hash_key (v : value) : outcome string :=
  match v with
  | VStr s => Returns ("s" ++ s)
  | VInt z => Returns (number_key z 1)
  | VBool b => Returns (number_key (if b then 1 else 0) 1)
  | VFloat n d => Returns (number_key n d)
  | VNone => Returns "None"
  | v => Raises (error ("unhashable type: '" ++ Llm.type_name v ++ "'"))
  end.

(** [s.get("speaker") for s in segments if s.get("speaker")], as the
    keys of the set built from it. *)
Fixpoint named_labels (segments : list value) : outcome (list string) :=
  match segments with
  | [] => Returns []
  | VDict s :: rest =>
      let label := get s "speaker" in
      if truthy label then
        match hash_key label, named_labels rest with
        | Returns k, Returns ks => Returns (k :: ks)
        | Raises e, _ => Raises e
        | _, Raises e => Raises e
        end
      else named_labels rest
  | v :: _ => Raises (error (Llm.no_attribute v "get"))
  end.

(** [speaker_names_map.get(speaker_label, speaker_label)]. *)
Definition name_of (names : dict) (speaker_label : value) : outcome value :=
  match speaker_label with
  | VStr s => Returns (get_or names s speaker_label)
  | VList _ | VDict _ =>
      Raises (error ("unhashable type: '" ++ Llm.type_name speaker_label ++ "'"))
  | _ => Returns speaker_label
  end.

(** The loop [segment["speaker_name"] = ...].  The segments are the
    very objects held by the payload, so what was written before an
    exception stays written: the list is returned either way. *)
Fixpoint name_segments (names : dict) (segments : list value)
    : list value * outcome unit :=
  match segments with
  | [] => ([], Returns tt)
  | VDict segment :: rest =>
      match name_of names (get_or segment "speaker" (VStr "Unknown")) with
      | Returns name =>
          let (rest', r) := name_segments names rest in
          (VDict (<["speaker_name" := name]> segment) :: rest', r)
      | Raises e => (segments, Raises e)
      end
  | v :: _ => (segments, Raises (error (Llm.no_attribute v "get")))
  end.

(** [except Exception] around the naming: the failure is logged and
    the chain goes on with the payload as it stands. *)
Definition unless_failed {A : Type} (d : dict) (o : outcome A)
    (k : A -> task dict) : task dict :=
  match o with
  | Returns a => k a
  | Raises e => if is_exception e then ret d else raise e
  end.

(** The [try] block of the task.  A [segments] entry that is not a
    list either yields no speaker or raises inside the block; both
    leave the payload as it is. *)
Definition identify_speakers (x : collaborators)
    (transcription_id channel_id : value) (d : dict) : task dict :=
  let text_to_analyze :=
    or_else (get d "corrected_text") (get_or d "text" (VStr "")) in
  match get_or d "segments" (VList []) with
  | VList segments =>
      unless_failed d (named_labels segments) (fun labels =>
      let speaker_count := length (remove_dups labels) in
      if (1 <? speaker_count)%nat && truthy text_to_analyze then
        unless_failed d
          (extract_speaker_names_from_transcript x text_to_analyze speaker_count)
          (fun speaker_names_map =>
        if truthy speaker_names_map then
          match speaker_names_map with
          | VDict names =>
              let (segments', r) := name_segments names segments in
              let d := <["segments" := VList segments']> d in
              unless_failed d r (fun _ =>
              fun w =>
                match on_store (fun s =>
                        update_speaker_names x s transcription_id names) w with
                | (w', Returns _) =>
                    (publish (task_channel x channel_id) "speakers_identified"
                       {[ "task_id" := channel_id;
                          "id" := transcription_id;
                          "message" := VStr ("Identified "
                             ++ pretty (size names) ++ " speaker(s)");
                          "speakers" := VDict names ]} ;;;
                     ret d) w'
                | (w', Raises e) =>
                    if is_exception e then (w', Returns d) else (w', Raises e)
                end)
          | _ => ret d
          end
        else ret d)
      else ret d)
  | _ => ret d
  end.

Definition run_speaker_ident_task (x : collaborators) (result : value)
    : task value :=
  let (transcription_id, result) := robust_input result in
  if negb (truthy transcription_id) then ret result
  else
    match result with
    | VDict d =>
        let root_task_id := get d "root_task_id" in
        let channel_id :=
          if truthy root_task_id then root_task_id else transcription_id in
        publish (task_channel x channel_id) "task_progress"
          {[ "task_id" := channel_id; "id" := transcription_id;
             "stage" := VStr "identifying_speakers";
             "message" := VStr "Analyzing Conversation Details..." ]} ;;;
        d <- identify_speakers x transcription_id channel_id d ;;
        delay "app.tasks.generate_summary_task" [VDict d] ;;;
        ret (VDict d)
    | _ => ret result
    end.

(** *** Stage 4: [generate_summary_task] *)

(** [result.get("corrected_text") or result.get("text")]: the text
    handed to the summarizer. *)
Definition transcript_text (d : dict) : value :=
  or_else (get d "corrected_text") (get d "text").

(** [SummarizerService(db)] and the call of [generate_summary]: the
    service gets the session and a client of its own. *)
Definition call_summarizer (x : collaborators)
    (transcription_id text : value) : task (option dict) :=
  fun w =>
    let svc :=
      {| db := store w;
         llm := Llm.__init__ (health w)
                  (OLLAMA_BASE_URL x ++ "/api/generate")
                  (LLM_MODEL (summary_calls x)) |} in
    let (svc', r) :=
      generate_summary svc (summary_calls x) transcription_id text in
    ({| store := db svc'; health := Llm.health (llm svc');
        published := published w; queue := queue w;
        retried := retried w |}, r).

Definition summary_failed (x : collaborators) (self : request)
    (transcription_id channel_id : value) (d : dict) (e : exn) : task value :=
  let d := <["summary_status" := VStr "failed"]> d in
  publish (task_channel x channel_id) "summary_failed"
    {[ "task_id" := VStr (id self); "id" := transcription_id;
       "error" := VStr (message e);
       "message" := VStr ("Summary failed: " ++ message e) ]} ;;;
  ret (VDict d).

Definition generate_summary_task (x : collaborators) (self : request)
    (result : value) : task value :=
  let (transcription_id, result) := robust_input result in
  if negb (truthy transcription_id) then ret result
  else
    match result with
    | VDict d =>
        let root_task_id := get d "root_task_id" in
        let channel_id :=
          if truthy root_task_id then root_task_id else transcription_id in
        publish (task_channel x channel_id) "task_progress"
          {[ "task_id" := VStr (id self); "id" := transcription_id;
             "stage" := VStr "summarizing";
             "message" := VStr "AI is Summarizing..." ]} ;;;
        fun w =>
          match call_summarizer x transcription_id (transcript_text d) w with
          | (w', Raises e) =>
              if is_exception e
              then summary_failed x self transcription_id channel_id d e w'
              else (w', Raises e)
          | (w', Returns None) =>
              (w', Returns (VDict (<["summary_status" := VStr "failed"]> d)))
          | (w', Returns (Some summary_result)) =>
              let d := <["summary_status" := VStr "complete"]> d in
              let d := <["meeting_type" :=
                           get_or summary_result "type" (VStr "Unknown")]> d in
              match parse_summary x (get summary_result "content") with
              | Returns parsed =>
                  (publish (task_channel x channel_id) "summary_complete"
                     {[ "task_id" := VStr (id self);
                        "id" := transcription_id;
                        "summary" := get parsed "summary";
                        "meeting_type" := get parsed "meeting_type";
                        "message" := VStr "Summary complete" ]} ;;;
                   ret (VDict d)) w'
              | Raises e =>
                  if is_exception e
                  then summary_failed x self transcription_id channel_id d e w'
                  else (w', Raises e)
              end
          end
    | _ => ret result
    end.

End Pipeline.

(* ----------------------------------------------------------------- *)
(** ** Transcriber slots: [services/transcription.py] *)
(* ----------------------------------------------------------------- *)

Module Transcriber.

(** Where one call of [transcribe] stands.  [Inferring] is the body of
    [async with self._semaphore], suspended on
    [await asyncio.to_thread(...)]. *)
Inductive exit : Type := Returned | Raised | Cancelled.

Inductive phase : Type :=
| Created
| Waiting
| Inferring
| Finished (e : exit).

#[export] Instance exit_eq_dec : EqDecision exit.
Proof. solve_decision. Defined.

#[export] Instance phase_eq_dec : EqDecision phase.
Proof. solve_decision. Defined.

(** A call and the worker thread it handed the inference to.  The
    thread is not a coroutine: cancelling the call does not stop it. *)
Record call : Type := {
  at_phase : phase;
  worker : bool
}.

(** A transcriber with the calls of [transcribe] made on it.
    [_semaphore] is [None] until the first call creates it, then the
    value of the [asyncio.Semaphore].  [WhisperCppTranscriber] follows
    the same protocol: a check that may raise (the path, the warm-up),
    the lazy semaphore, then the whole inference inside
    [async with self._semaphore]. *)
Record MaxAccuracyTranscriber : Type := {
  max_concurrency : nat;
  _semaphore : option nat;
  calls : list call
}.

Definition __init__ (max_concurrency : nat) (m : nat) : MaxAccuracyTranscriber :=
  {| max_concurrency := max_concurrency; _semaphore := None;
     calls := replicate m {| at_phase := Created; worker := false |} |}.

(** What the event loop, a worker thread or a canceller can do next
    to call [i]. *)
Inductive action : Type :=
| Start (i : nat) (file_exists : bool)
| Acquire (i : nat)
| Complete (i : nat) (ok : bool)
| Cancel (i : nat)
| WorkerExit (i : nat).

Definition set_call (h : MaxAccuracyTranscriber) (i : nat) (c : call) (sem : option nat)
    : MaxAccuracyTranscriber :=
  {| max_concurrency := max_concurrency h; _semaphore := sem;
     calls := <[i := c]> (calls h) |}.

(** One step of a call of [transcribe]; [None] when the action is not
    enabled. *)
Definition transcribe_step (h : MaxAccuracyTranscriber) (a : action) : option MaxAccuracyTranscriber :=
  match a with
  | Start i file_exists =>
      (* the path check, then the lazy creation of the semaphore *)
      match calls h !! i with
      | Some {| at_phase := Created; worker := w |} =>
          if file_exists then
            Some (set_call h i {| at_phase := Waiting; worker := w |}
                    (match _semaphore h with
                     | None => Some (max_concurrency h)
                     | Some v => Some v
                     end))
          else
            Some (set_call h i {| at_phase := Finished Raised; worker := w |}
                    (_semaphore h))
      | _ => None
      end
  | Acquire i =>
      (* [__aenter__]: take a slot, then dispatch the inference *)
      match calls h !! i, _semaphore h with
      | Some {| at_phase := Waiting |}, Some (S v) =>
          Some (set_call h i {| at_phase := Inferring; worker := true |}
                  (Some v))
      | _, _ => None
      end
  | Complete i ok =>
      (* the thread is done; [__aexit__] gives the slot back *)
      match calls h !! i, _semaphore h with
      | Some {| at_phase := Inferring |}, Some v =>
          Some (set_call h i
                  {| at_phase := Finished (if ok then Returned else Raised);
                     worker := false |}
                  (Some (S v)))
      | _, _ => None
      end
  | Cancel i =>
      match calls h !! i, _semaphore h with
      | Some {| at_phase := Inferring; worker := w |}, Some v =>
          (* [CancelledError] at the await: [__aexit__] releases, the
             thread keeps running *)
          Some (set_call h i {| at_phase := Finished Cancelled; worker := w |}
                  (Some (S v)))
      | Some {| at_phase := Waiting; worker := w |}, sem
      | Some {| at_phase := Created; worker := w |}, sem =>
          Some (set_call h i {| at_phase := Finished Cancelled; worker := w |}
                  sem)
      | _, _ => None
      end
  | WorkerExit i =>
      match calls h !! i with
      | Some {| at_phase := Finished Cancelled; worker := true |} =>
          Some (set_call h i {| at_phase := Finished Cancelled; worker := false |}
                  (_semaphore h))
      | _ => None
      end
  end.

(** The states some interleaving of [m] calls can reach. *)
Inductive reachable (l m : nat) : MaxAccuracyTranscriber -> Prop :=
| reach_init : reachable l m (__init__ l m)
| reach_step h a h' :
    reachable l m h -> transcribe_step h a = Some h' -> reachable l m h'.

(** Running a schedule, as far as its actions are enabled. *)
Fixpoint exec (h : MaxAccuracyTranscriber) (schedule : list action) : option MaxAccuracyTranscriber :=
  match schedule with
  | [] => Some h
  | a :: rest =>
      match transcribe_step h a with
      | Some h' => exec h' rest
      | None => None
      end
  end.

Definition count (p : call -> bool) (h : MaxAccuracyTranscriber) : nat :=
  length (filter (fun c => p c = true) (calls h)).

(** Calls inside [async with self._semaphore]. *)
Definition holding (c : call) : bool :=
  bool_decide (at_phase c = Inferring).

(** Inferences being executed. *)
Definition executing (c : call) : bool := worker c.

Definition finished (c : call) : bool :=
  match at_phase c with Finished _ => true | _ => false end.

Definition is_cancel_of_running (h : MaxAccuracyTranscriber) (a : action) : bool :=
  match a with
  | Cancel i =>
      match calls h !! i with
      | Some c => holding c
      | None => false
      end
  | _ => false
  end.

(** The interleavings in which no call is cancelled while its
    inference runs. *)
Inductive reachable_uncancelled (l m : nat) : MaxAccuracyTranscriber -> Prop :=
| reach_u_init : reachable_uncancelled l m (__init__ l m)
| reach_u_step h a h' :
    reachable_uncancelled l m h ->
    is_cancel_of_running h a = false ->
    transcribe_step h a = Some h' -> reachable_uncancelled l m h'.

(** The invariant of the semaphore protocol. *)
Record slots_ok (l : nat) (h : MaxAccuracyTranscriber) : Prop := {
  limit_kept : max_concurrency h = l;
  slots_add_up :
    match _semaphore h with
    | None => count holding h = 0%nat
    | Some v => (v + count holding h = l)%nat
    end;
  workers_had_a_slot :
    Forall (fun c => worker c = true ->
                     at_phase c = Inferring \/ at_phase c = Finished Cancelled)
           (calls h);
  holders_have_a_worker :
    Forall (fun c => at_phase c = Inferring -> worker c = true) (calls h)
}.

End Transcriber.

(* ----------------------------------------------------------------- *)
(** ** Sample inputs *)
(* ----------------------------------------------------------------- *)

Module Sample.
Import EventBus Health Summarizer Pipeline.

(** A summarizer whose LLM answers with the text it was given, as
    plain text: the fallback of step 3 stores the reply as it is. *)
Definition echo : calls :=
  {| exchange := fun text =>
       Llm.Response 200 (Llm.Json (VDict {[ "response" := VStr text ]}));
     loads := fun _ => Llm.NotJson "Expecting value";
     commit := Returns tt;
     commit_error_state := Returns tt;
     uuid4 := "summary-1";
     utcnow := 0;
     LLM_MODEL := "llama3" |}.

(** Collaborators that work, but for the three results given:
    transcription, speaker detection and saving the transcription. *)
Definition collaborators_with (transcribed diarized : outcome value)
    (saved : outcome string) : collaborators :=
  {| SKIP_CONTEXT_EXTRACTION := true;
     CONTEXT_MIN_SPEECH_LENGTH := 10;
     OLLAMA_BASE_URL := "http://localhost:11434";
     get_transcriber := fun _ _ => Returns tt;
     transcribe := fun _ _ => transcribed;
     extract_context_keywords := fun _ => Returns (VStr "");
     diarize := diarized;
     merge_speaker_segments_with_transcript := fun t _ => Returns t;
     save_transcription := fun s _ _ => (s, saved);
     auto_correct := fun s _ _ => (s, Returns (VStr ""));
     extract_speaker_names_from_transcript := fun _ _ => Returns (VDict ∅);
     update_speaker_names := fun s _ _ => (s, Returns tt);
     summary_calls := echo;
     parse_summary := fun c =>
       Returns {[ "summary" := c; "meeting_type" := VStr "General Meeting" ]};
     repr := fun _ => "" |}.

Definition idle : World :=
  {| store := {| transcriptions := ∅; summaries := [] |};
     health := _init (Returns (0, 0, 0)%Z);
     published := []; queue := []; retried := [] |}.

Definition thirty_words : string :=
  "one two three four five six seven eight nine ten eleven twelve thirteen fourteen fifteen sixteen seventeen eighteen nineteen twenty twenty-one twenty-two twenty-three twenty-four twenty-five twenty-six twenty-seven twenty-eight twenty-nine thirty".

Definition transcript (text : string) : outcome value :=
  Returns (VDict {[ "text" := VStr text; "segments" := VList [];
                    "language" := VStr "en"; "duration" := VInt 12 ]}).

Definition no_token : outcome value :=
  Raises (error "HUGGINGFACE_TOKEN is not set").

(** The first argument of the only job waiting in the queue. *)
Definition next_payload (w : World) : value :=
  match queue w with
  | [(_, [payload])] => payload
  | _ => VNone
  end.

Definition channels (w : World) : list string :=
  map channel (published w).

(** A submission that goes through the four stages, each stage taking
    the payload the previous one handed to the broker.  The Celery id
    of the submission is ["task-1"], the row saved is ["tx-1"]. *)
Definition full_chain : World :=
  let x := collaborators_with (transcript thirty_words) (Returns (VList []))
             (Returns "tx-1") in
  let w1 := (transcribe_audio_task x {| id := "task-1"; retries := 0 |}
               "temp/a.wav" "en" "faster-whisper" "large-v3" idle).1 in
  let p1 := next_payload w1 in
  let w2 := (run_auto_correct_task x p1
               {| store := store w1; health := health w1;
                  published := published w1; queue := [];
                  retried := retried w1 |}).1 in
  let p2 := next_payload w2 in
  let w3 := (run_speaker_ident_task x p2
               {| store := store w2; health := health w2;
                  published := published w2; queue := [];
                  retried := retried w2 |}).1 in
  let p3 := next_payload w3 in
  (generate_summary_task x {| id := "task-4"; retries := 0 |} p3
     {| store := store w3; health := health w3;
        published := published w3; queue := [];
        retried := retried w3 |}).1.

End Sample.

From Stdlib Require QArith Lqa.

(* ----------------------------------------------------------------- *)
(** ** Reading snapshots, texts and tables *)
(* ----------------------------------------------------------------- *)

Module Reading.
Import EventBus Health Summarizer.

(** [snapshot["components"][name][field]] of a health snapshot. *)
Definition component_field (snapshot : dict) (name field : string) : value :=
  match get snapshot "components" with
  | VDict components =>
      match get components name with
      | VDict c => get c field
      | _ => VNone
      end
  | _ => VNone
  end.

(** [snapshot["task_queue"][key]]. *)
Definition queue_depth (snapshot : dict) (key : string) : value :=
  match get snapshot "task_queue" with
  | VDict q => get q key
  | _ => VNone
  end.

(** The payload of an event, as a dict. *)
Definition payload_dict (ev : event) : dict :=
  match payload ev with
  | VDict d => d
  | _ => ∅
  end.

(** Whitespace dropped from the front of a list of characters. *)
Fixpoint drop_spaces (l : list ascii) : list ascii :=
  match l with
  | [] => []
  | c :: l' => if isspace c then drop_spaces l' else l
  end.

(** A list of characters that does not start with whitespace. *)
Definition headed (l : list ascii) : Prop :=
  match l with
  | [] => True
  | c :: _ => isspace c = false
  end.

(** A text with no whitespace at either end. *)
Definition trimmed (s : string) : Prop :=
  lstrip s = s /\ lstrip (reverse s) = reverse s.

(** The summary rows of one transcription, and the others. *)
Definition summaries_of (tid : value) (rows : list MeetingSummary)
    : list MeetingSummary :=
  List.filter (same_transcription tid) rows.

Definition summaries_of_others (tid : value) (rows : list MeetingSummary)
    : list MeetingSummary :=
  List.filter (fun m => negb (same_transcription tid m)) rows.

End Reading.

(* ----------------------------------------------------------------- *)
(** ** What a step of a task body leaves alone *)
(* ----------------------------------------------------------------- *)

Module Frames.
Import EventBus Summarizer Pipeline.

(** A step that hands nothing to the broker and asks for no retry. *)
Definition keeps_queue {A : Type} (m : task A) : Prop :=
  forall w, queue (m w).1 = queue w /\ retried (m w).1 = retried w.

(** A step after which auto-correction is in the queue exactly when
    the step returns, with the payload it returns. *)
Definition hands_on (m : task value) : Prop :=
  forall w,
    match (m w).2 with
    | Returns v =>
        (exists payload item_id,
           v = VDict payload /\ payload !! "id" = Some (VStr item_id))
        /\ queue (m w).1
           = (queue w ++ [("app.tasks.run_auto_correct_task", [v])])%list
        /\ retried (m w).1 = retried w
    | Raises e => queue (m w).1 = queue w /\ retried (m w).1 = retried w
    end.

(** The retry [fail_and_retry] asks for. *)
Definition retry_asked (self : request) (e : exn) : list (string * Z) :=
  if is_exception e && (retries self <? max_retries_transcribe)%nat
  then [(id self, (2 ^ Z.of_nat (retries self))%Z)] else [].

End Frames.

(* ----------------------------------------------------------------- *)
(** ** The transcriber cache: [TranscriberCache] in [tasks.py] *)
(* ----------------------------------------------------------------- *)

Module Backends.

(** The two transcriber classes, with the arguments the cache
    constructs them with. *)
Inductive transcriber : Type :=
| MaxAccuracyTranscriber (model_size : string)
| WhisperCppTranscriber (model_size : string) (whisper_cpp_path : option string).

Record TranscriberCache : Type := {
  _cache : gmap string transcriber;
  _whisper_cpp_available : bool;
  _whisper_cpp_binary : option string;
  _has_metal : bool;
  _has_cuda : bool
}.

Definition __init__ : TranscriberCache :=
  {| _cache := ∅; _whisper_cpp_available := false;
     _whisper_cpp_binary := None; _has_metal := false; _has_cuda := false |}.

(** [f"{backend}:{model_size}"]. *)
Definition cache_key (backend model_size : string) : string :=
  backend ++ ":" ++ model_size.

(** [self._cache[cache_key] = transcriber]. *)
Definition set_item (c : TranscriberCache) (key : string) (t : transcriber)
    : TranscriberCache :=
  {| _cache := <[key := t]> (_cache c);
     _whisper_cpp_available := _whisper_cpp_available c;
     _whisper_cpp_binary := _whisper_cpp_binary c;
     _has_metal := _has_metal c; _has_cuda := _has_cuda c |}.

(** Constructing a transcriber and warming it up, then caching it:
    [warm_up] tells what the construction and [warm_up()] of a
    transcriber do.  A transcriber that fails is not cached. *)
Definition create (c : TranscriberCache) (warm_up : transcriber -> outcome unit)
    (key : string) (t : transcriber) : TranscriberCache * outcome transcriber :=
  match warm_up t with
  | Returns _ => (set_item c key t, Returns t)
  | Raises e => (c, Raises e)
  end.

(** [get_transcriber("faster-whisper", model_size)], which is what
    the call made when whisper.cpp is not available does. *)
Definition get_faster_whisper (c : TranscriberCache)
    (warm_up : transcriber -> outcome unit) (model_size : string)
    : TranscriberCache * outcome transcriber :=
  let key := cache_key "faster-whisper" model_size in
  match _cache c !! key with
  | Some t => (c, Returns t)
  | None => create c warm_up key (MaxAccuracyTranscriber model_size)
  end.

(** [TranscriberCache.get_transcriber(backend, model_size)]. *)
Definition get_transcriber (c : TranscriberCache)
    (warm_up : transcriber -> outcome unit) (backend model_size : string)
    : TranscriberCache * outcome transcriber :=
  let key := cache_key backend model_size in
  match _cache c !! key with
  | Some t => (c, Returns t)
  | None =>
      if String.eqb backend "faster-whisper" then
        create c warm_up key (MaxAccuracyTranscriber model_size)
      else if String.eqb backend "whisper-cpp" then
        if negb (_whisper_cpp_available c) then
          get_faster_whisper c warm_up model_size
        else
          create c warm_up key
            (WhisperCppTranscriber model_size (_whisper_cpp_binary c))
      else (c, Raises (error ("Unknown backend: " ++ backend)))
  end.





(** [try: self.get_transcriber(...) except Exception: log]. *)
Definition logged (r : TranscriberCache * outcome transcriber)
    : TranscriberCache * outcome unit :=
  match r with
  | (c, Returns _) => (c, Returns tt)
  | (c, Raises e) => if is_exception e then (c, Returns tt) else (c, Raises e)
  end.

(** The preload loop that ends [initialize]: for each configured
    size, faster-whisper and, when available, whisper.cpp. *)
Fixpoint preload (c : TranscriberCache) (warm_up : transcriber -> outcome unit)
    (preload_models : list string) : TranscriberCache * outcome unit :=
  match preload_models with
  | [] => (c, Returns tt)
  | model_size :: rest =>
      match logged (get_transcriber c warm_up "faster-whisper" model_size) with
      | (c, Raises e) => (c, Raises e)
      | (c, Returns _) =>
          match (if _whisper_cpp_available c
                 then logged (get_transcriber c warm_up "whisper-cpp" model_size)
                 else (c, Returns tt)) with
          | (c, Raises e) => (c, Raises e)
          | (c, Returns _) => preload c warm_up rest
          end
      end
  end.

(** The key a transcriber belongs under. *)
Definition key_of (t : transcriber) : string :=
  match t with
  | MaxAccuracyTranscriber model_size => cache_key "faster-whisper" model_size
  | WhisperCppTranscriber model_size _ => cache_key "whisper-cpp" model_size
  end.

(** Every cached transcriber sits under its own key, and whisper.cpp
    transcribers are cached only where whisper.cpp is available, with
    the binary the cache knows. *)
Definition well_keyed (c : TranscriberCache) : Prop :=
  forall k t,
    _cache c !! k = Some t ->
    k = key_of t
    /\ forall model_size path,
         t = WhisperCppTranscriber model_size path ->
         _whisper_cpp_available c = true /\ path = _whisper_cpp_binary c.

End Backends.

(* ----------------------------------------------------------------- *)
(** ** The result cache: [core/cache.py] *)
(* ----------------------------------------------------------------- *)

Module Cache.

(** The provider has every method twice, once on the synchronous
    client and once on the asynchronous one; the two differ in the
    client they use and share the [_enabled] flag. *)
Inductive mode : Type := Sync | Async.

(** The provider, together with the Redis database it talks to: for
    each key the string stored and the time at which it expires. *)
Record RedisCacheProvider : Type := {
  _aredis : bool;
  _sredis : bool;
  _enabled : bool;
  redis : gmap string (string * Z)
}.

(** [RedisCacheProvider()] in front of a database. *)
Definition __init__ (db : gmap string (string * Z)) : RedisCacheProvider :=
  {| _aredis := false; _sredis := false; _enabled := true; redis := db |}.

(** What the network does during one call: making the client
    ([from_url]), the [ping] that follows, and the command sent. *)
Record link : Type := {
  from_url : outcome unit;
  ping : outcome unit;
  command : outcome unit
}.

(** [json.dumps] and [json.loads]. *)
Record codec : Type := {
  dumps : value -> outcome string;
  loads : string -> outcome value
}.

Definition client (m : mode) (p : RedisCacheProvider) : bool :=
  match m with Sync => _sredis p | Async => _aredis p end.

(** [self._sredis = ...] or [self._aredis = ...]. *)
Definition set_client (m : mode) (p : RedisCacheProvider) : RedisCacheProvider :=
  match m with
  | Sync => {| _aredis := _aredis p; _sredis := true;
               _enabled := _enabled p; redis := redis p |}
  | Async => {| _aredis := true; _sredis := _sredis p;
                _enabled := _enabled p; redis := redis p |}
  end.

(** [self._enabled = False]. *)
Definition disable (p : RedisCacheProvider) : RedisCacheProvider :=
  {| _aredis := _aredis p; _sredis := _sredis p;
     _enabled := false; redis := redis p |}.

Definition with_redis (p : RedisCacheProvider) (db : gmap string (string * Z))
    : RedisCacheProvider :=
  {| _aredis := _aredis p; _sredis := _sredis p;
     _enabled := _enabled p; redis := db |}.

(** [_get_sredis] and [_get_aredis]: whether a client comes back. *)
Definition _get_client (m : mode) (p : RedisCacheProvider) (l : link)
    : RedisCacheProvider * outcome bool :=
  if negb (_enabled p) then (p, Returns false)
  else if negb (client m p) then
    match from_url l with
    | Raises e =>
        if is_exception e then (disable p, Returns false) else (p, Raises e)
    | Returns _ =>
        let p := set_client m p in
        match ping l with
        | Raises e =>
            if is_exception e then (disable p, Returns false) else (p, Raises e)
        | Returns _ => (p, Returns true)
        end
    end
  else (p, Returns true).

(** [try: ... except Exception: return dflt]. *)
Definition guarded {A : Type} (dflt : A) (o : outcome A) : outcome A :=
  match o with
  | Returns a => Returns a
  | Raises e => if is_exception e then Returns dflt else Raises e
  end.

(** What [GET key] answers at a given time. *)
Definition redis_get (p : RedisCacheProvider) (now : Z) (key : string)
    : option string :=
  match redis p !! key with
  | Some (s, expires) => if (now <? expires)%Z then Some s else None
  | None => None
  end.

(** [get] and [get_sync]. *)
Definition get (m : mode) (p : RedisCacheProvider) (l : link) (k : codec)
    (now : Z) (key : string) : RedisCacheProvider * outcome value :=
  match _get_client m p l with
  | (p, Raises e) => (p, Raises e)
  | (p, Returns false) => (p, Returns VNone)
  | (p, Returns true) =>
      (p, guarded VNone
            match command l with
            | Raises e => Raises e
            | Returns _ =>
                match redis_get p now key with
                | Some val =>
                    if negb (String.eqb val "") then loads k val
                    else Returns VNone
                | None => Returns VNone
                end
            end)
  end.

(** [set] and [set_sync]; Redis refuses an expiry that is not
    positive. *)
Definition set (m : mode) (p : RedisCacheProvider) (l : link) (k : codec)
    (now : Z) (key : string) (v : value) (ttl : Z)
    : RedisCacheProvider * outcome bool :=
  match _get_client m p l with
  | (p, Raises e) => (p, Raises e)
  | (p, Returns false) => (p, Returns false)
  | (p, Returns true) =>
      match dumps k v with
      | Raises e => (p, guarded false (Raises e))
      | Returns s =>
          match command l with
          | Raises e => (p, guarded false (Raises e))
          | Returns _ =>
              if (ttl <=? 0)%Z
              then (p, Returns false)
              else (with_redis p (<[key := (s, (now + ttl)%Z)]> (redis p)),
                    Returns true)
          end
      end
  end.

(** [delete]. *)
Definition delete (m : mode) (p : RedisCacheProvider) (l : link) (key : string)
    : RedisCacheProvider * outcome bool :=
  match _get_client m p l with
  | (p, Raises e) => (p, Raises e)
  | (p, Returns false) => (p, Returns false)
  | (p, Returns true) =>
      match command l with
      | Raises e => (p, guarded false (Raises e))
      | Returns _ => (with_redis p (base.delete key (redis p)), Returns true)
      end
  end.

Definition is_not_none (v : value) : bool :=
  match v with VNone => false | _ => true end.

(** The wrapper [cached(ttl, key_builder)] puts around a function,
    called with arguments whose key is [cache_key].  The function
    runs on a state of its own; [now] is the time of the lookup and
    [later] the time at which the result is stored. *)
Definition wrapper {S : Type} (m : mode) (ttl : Z)
    (func : S -> S * outcome value) (cache_key : string)
    (k : codec) (lookup store : link) (now later : Z)
    (p : RedisCacheProvider) (st : S)
    : RedisCacheProvider * S * outcome value :=
  match get m p lookup k now cache_key with
  | (p, Raises e) => (p, st, Raises e)
  | (p, Returns cached_val) =>
      if is_not_none cached_val then (p, st, Returns cached_val)
      else
        match func st with
        | (st, Raises e) => (p, st, Raises e)
        | (st, Returns result) =>
            if is_not_none result then
              match set m p store k later cache_key result ttl with
              | (p, Raises e) => (p, st, Raises e)
              | (p, Returns _) => (p, st, Returns result)
              end
            else (p, st, Returns result)
        end
  end.

(** A link on which everything works, and one on which the server
    cannot be reached. *)
Definition up : link :=
  {| from_url := Returns tt; ping := Returns tt; command := Returns tt |}.

Definition down : link :=
  {| from_url := Returns tt;
     ping := Raises (error "Connection refused");
     command := Raises (error "Connection refused") |}.

(** A link on which whatever fails, fails with an [Exception]. *)
Definition ordinary (l : link) : Prop :=
  fails_with_exception (from_url l) /\ fails_with_exception (ping l)
  /\ fails_with_exception (command l).

End Cache.

(* ----------------------------------------------------------------- *)
(** ** The context task: [extract_context_task] in [tasks.py] *)
(* ----------------------------------------------------------------- *)

Module ContextTask.
Import EventBus Summarizer Pipeline.




End ContextTask.

(* ----------------------------------------------------------------- *)
(** ** Speakers for the transcript:
       [merge_speaker_segments_with_transcript] in
       [services/speaker_diarization_service.py] *)
(* ----------------------------------------------------------------- *)

Module Diarization.
Import QArith.

(** A segment of the diarizer, [{"start": .., "end": .., "speaker": ..}];
    times are the numbers they denote. *)
Record speaker_segment : Type := {
  spk_start : Q;
  spk_end : Q;
  speaker : value
}.

(** A segment of the transcript: its timing where it has one, and its
    other keys (the text, the words, an earlier speaker, ...). *)
Record transcript_segment : Type := {
  start : option Q;
  end_ : option Q;
  fields : dict
}.

(** [a < b] on numbers. *)
Definition lt (a b : Q) : bool :=
  match Qcompare a b with Lt => true | _ => false end.

(** [max(a, b)] and [min(a, b)]: the first argument unless the second
    is strictly beyond it. *)
Definition max (a b : Q) : Q := if lt a b then b else a.
Definition min (a b : Q) : Q := if lt b a then b else a.

(** The test of the inner loop, with [trans_seg.get("start", 0)] and
    [trans_seg.get("end", 0)]. *)
Definition overlaps (trans_seg : transcript_segment) (spk_seg : speaker_segment)
    : bool :=
  let trans_start := default 0%Q (start trans_seg) in
  let trans_end := default 0%Q (end_ trans_seg) in
  let overlap_start := max trans_start (spk_start spk_seg) in
  let overlap_end := min trans_end (spk_end spk_seg) in
  lt overlap_start overlap_end.

(** The inner loop: the speaker stays ["Unknown"] until a speaker
    segment overlaps, and the loop breaks there. *)
Fixpoint find_speaker (trans_seg : transcript_segment)
    (speaker_segments : list speaker_segment) : value :=
  match speaker_segments with
  | [] => VStr "Unknown"
  | spk_seg :: rest =>
      if overlaps trans_seg spk_seg then speaker spk_seg
      else find_speaker trans_seg rest
  end.

(** [{**trans_seg, "speaker": speaker}]. *)
Definition with_speaker (trans_seg : transcript_segment) (v : value)
    : transcript_segment :=
  {| start := start trans_seg; end_ := end_ trans_seg;
     fields := <["speaker" := v]> (fields trans_seg) |}.

Definition merge_speaker_segments_with_transcript
    (transcript_segments : list transcript_segment)
    (speaker_segments : list speaker_segment) : list transcript_segment :=
  map (fun trans_seg =>
         with_speaker trans_seg (find_speaker trans_seg speaker_segments))
      transcript_segments.


End Diarization.

(* ----------------------------------------------------------------- *)
(** ** Speaker rows: [update_speaker_names] in
       [services/persistence_service.py] *)
(* ----------------------------------------------------------------- *)

Module Persistence.

(** A row of the [speakers] table; a name is [None] until one is
    known. *)
Record Speaker : Type := {
  id : string;
  transcription_id : string;
  speaker_label : string;
  speaker_name : value
}.

(** [spk.speaker_name = speaker_names_map[spk.speaker_label]]. *)
Definition named (spk : Speaker) (name : value) : Speaker :=
  {| id := id spk; transcription_id := transcription_id spk;
     speaker_label := speaker_label spk; speaker_name := name |}.

(** The loop over the speakers of the transcription: the rows after
    it and the number of updates. *)
Fixpoint rename (rows : list Speaker) (tid : string) (speaker_names_map : dict)
    : list Speaker * nat :=
  match rows with
  | [] => ([], 0%nat)
  | spk :: rest =>
      let (rest', updates) := rename rest tid speaker_names_map in
      if String.eqb (transcription_id spk) tid then
        match speaker_names_map !! speaker_label spk with
        | Some name => (named spk name :: rest', S updates)
        | None => (spk :: rest', updates)
        end
      else (spk :: rest', updates)
  end.

(** [PersistenceService.update_speaker_names]: the committed rows
    afterwards and the result.  [query] and [commit] tell what the
    two database calls do; a failure is rolled back and raised
    again. *)
Definition update_speaker_names (rows : list Speaker)
    (query commit : outcome unit) (tid : string) (speaker_names_map : dict)
    : list Speaker * outcome bool :=
  match query with
  | Raises e => (rows, Raises e)
  | Returns _ =>
      let (rows', updates) := rename rows tid speaker_names_map in
      if (0 <? updates)%nat then
        match commit with
        | Raises e => (rows, Raises e)
        | Returns _ => (rows', Returns true)
        end
      else (rows, Returns false)
  end.


End Persistence.

(* ----------------------------------------------------------------- *)
(** ** Stale audio: [services/cleanup_service.py] and
       [clean_stale_audio_task] *)
(* ----------------------------------------------------------------- *)

Module Cleanup.
Import QArith.

(** An entry of the temp directory as the sweep sees it: its name,
    whether it is a regular file, and what [os.path.getmtime] and
    [os.remove] do on it. *)
Record entry : Type := {
  filename : string;
  isfile : bool;
  getmtime : outcome Q;
  remove : outcome unit
}.

Record CleanupService : Type := {
  temp_dir : string;
  max_age_seconds : Q
}.

Definition __init__ (temp_dir : string) (max_age_hours : Q) : CleanupService :=
  {| temp_dir := temp_dir; max_age_seconds := (max_age_hours * 3600)%Q |}.

(** [file_age > self.max_age_seconds]. *)
Definition older (file_age max_age : Q) : bool :=
  match Qcompare max_age file_age with Lt => true | _ => false end.

(** The loop over [os.listdir]: the names removed and the count, or
    the exception that ended the loop. *)
Fixpoint sweep (self : CleanupService) (now : Q) (listing : list entry)
    : list string * outcome nat :=
  match listing with
  | [] => ([], Returns 0%nat)
  | f :: rest =>
      if negb (isfile f) then sweep self now rest
      else if String.prefix "." (filename f) then sweep self now rest
      else
        match getmtime f with
        | Raises e => ([], Raises e)
        | Returns mtime =>
            if older (now - mtime)%Q (max_age_seconds self) then
              match remove f with
              | Returns _ =>
                  let (removed, r) := sweep self now rest in
                  (filename f :: removed,
                   match r with
                   | Returns count => Returns (S count)
                   | Raises e => Raises e
                   end)
              | Raises e =>
                  if is_exception e then sweep self now rest
                  else ([], Raises e)
              end
            else sweep self now rest
        end
  end.

(** [CleanupService.clean_stale_files]: [listing] is [None] when the
    temp directory does not exist, and then so is the result. *)
Definition clean_stale_files (self : CleanupService) (now : Q)
    (listing : option (list entry)) : list string * outcome (option nat) :=
  match listing with
  | None => ([], Returns None)
  | Some entries =>
      let (removed, r) := sweep self now entries in
      (removed,
       match r with
       | Returns count => Returns (Some count)
       | Raises e => Raises e
       end)
  end.




End Cleanup.

(* ----------------------------------------------------------------- *)
(** ** The output of whisper.cpp: [_parse_vtt_output] in
       [services/transcription.py] *)
(* ----------------------------------------------------------------- *)

Module Vtt.

(** The line feed. *)
Definition LF : ascii := "010"%char.

(** [s.split(sep)] for a separator of one character: the pieces
    between the separators, at least one. *)
Fixpoint split_on (sep : ascii) (s : string) : list string :=
  match s with
  | EmptyString => [EmptyString]
  | String c s' =>
      if Ascii.eqb c sep then EmptyString :: split_on sep s'
      else
        match split_on sep s' with
        | piece :: pieces => String c piece :: pieces
        | [] => [String c EmptyString]
        end
  end.

(** [s[s.find(c) + 1:]] when [c] occurs in [s]. *)
Fixpoint after (c : ascii) (s : string) : option string :=
  match s with
  | EmptyString => None
  | String a s' => if Ascii.eqb a c then Some s' else after c s'
  end.

(** The body of the loop: what one line adds to [lines], if
    anything. *)
Definition cue_text (line : string) : option string :=
  let line := strip line in
  if String.eqb line "" || String.prefix "WEBVTT" line then None
  else if contains "-->" line && String.prefix "[" line then
    match after "]" line with
    | Some rest =>
        let text := strip rest in
        if String.eqb text "" then None else Some text
    | None => None
    end
  else None.

Definition _parse_vtt_output (vtt_output : string) : string :=
  String.concat " " (omap cue_text (split_on LF vtt_output)).


End Vtt.

(* ================================================================= *)
(** * Part II: properties *)
(* ================================================================= *)

(** Closed statements about concrete runs are settled by evaluating
    both sides, one conjunct at a time. *)
Ltac conjuncts :=
  cbv zeta; repeat match goal with |- _ /\ _ => split end.

Ltac by_evaluation := conjuncts; vm_compute; reflexivity.

(* ----------------------------------------------------------------- *)
(** ** Strings *)
(* ----------------------------------------------------------------- *)

Example split_words : split "  hello   big world " = ["hello"; "big"; "world"].
Proof. reflexivity. Qed.

Example strip_spaces : strip "  a b  " = "a b".
Proof. reflexivity. Qed.

Example contains_infix : contains "llama" "xllama3:8b" = true.
Proof. reflexivity. Qed.

(* ----------------------------------------------------------------- *)
(** ** Health snapshot *)
(* ----------------------------------------------------------------- *)

Section HealthFacts.
Import Health.

Lemma overall_status_cases (h : SystemHealthService) :
  overall_status h =
    match transcriber_status h, llm_status h, speaker_diarization_status h with
    | ERROR, _, _ => ERROR
    | _, (ERROR | UNAVAILABLE | DEGRADED), _ => DEGRADED
    | _, _, ERROR => DEGRADED
    | INITIALIZING, _, _ | _, INITIALIZING, _ | _, _, INITIALIZING => INITIALIZING
    | _, _, _ => READY
    end.
Proof.
  destruct h as [t ? l ? d ? ? ?]; unfold overall_status; simpl.
  destruct t, l, d; reflexivity.
Qed.

(** C3, counterexample: with the LLM in ERROR and the two other
    subsystems READY the snapshot says DEGRADED, which is not the
    worst of the three statuses. *)
Lemma overall_status_llm_error_is_degraded :
  overall_status (health_of READY ERROR READY) = DEGRADED
  /\ severity (overall_status (health_of READY ERROR READY))
     <> worst_severity (health_of READY ERROR READY).
Proof. split; [reflexivity | vm_compute; lia]. Qed.

(** An unavailable speaker diarization does not show either. *)
Example overall_status_ignores_unavailable_diarization :
  overall_status (health_of READY READY UNAVAILABLE) = READY.
Proof. reflexivity. Qed.

(** C3, amended: the overall status is the worst, in the order ERROR
    > DEGRADED > INITIALIZING > READY, of what each subsystem weighs:
    the transcriber counts as ERROR or INITIALIZING when it is so, the
    LLM as DEGRADED when it is ERROR, UNAVAILABLE or DEGRADED and as
    INITIALIZING when it is so, speaker diarization as DEGRADED when
    it is ERROR and as INITIALIZING when it is so.  The overall status
    never overstates the worst subsystem status, and it is what the
    snapshot carries under ["overall_status"]. *)
Theorem overall_status_worst_of_weights (h : SystemHealthService) :
  overall_status h =
    worst (worst (transcriber_weight (transcriber_status h))
                 (llm_weight (llm_status h)))
          (speaker_diarization_weight (speaker_diarization_status h))
  /\ (severity (overall_status h) <= worst_severity h)%nat
  /\ get_status h !! "overall_status" = Some (status_value (overall_status h)).
Proof.
  split; [| split].
  - rewrite overall_status_cases.
    destruct (transcriber_status h), (llm_status h),
      (speaker_diarization_status h); reflexivity.
  - rewrite overall_status_cases. unfold worst_severity.
    destruct (transcriber_status h), (llm_status h),
      (speaker_diarization_status h); simpl; lia.
  - unfold get_status. by simplify_map_eq.
Qed.

End HealthFacts.

(* ----------------------------------------------------------------- *)
(** ** Event bus *)
(* ----------------------------------------------------------------- *)

Section EventBusFacts.
Import EventBus.

(** C8: whatever the channel, event type and payload, and whether
    [json.dumps] or the Redis publish fails, [publish_event] returns
    normally; a failure sends nothing and leaves one error line in
    the log. *)
Theorem publish_event_never_raises
    (es : EventService) (chan ty : string) (pl : value) (w : wire) :
  fails_with_exception (json_dumps w) ->
  fails_with_exception (redis_publish w) ->
  exists es',
    publish_event es chan ty pl w = (es', Returns tt)
    /\ ((exists e, json_dumps w = Raises e \/ redis_publish w = Raises e) ->
        sent es' = sent es
        /\ exists line, log es' = (log es ++ [LogError line])%list).
Proof.
  intros Hd Hp. unfold publish_event, try_except, publish_body.
  destruct (json_dumps w) as [msg | e] eqn:Ed.
  - destruct (redis_publish w) as [n | e] eqn:Ep.
    + eexists; split; [reflexivity |].
      intros [e [He | He]]; discriminate.
    + rewrite (Hp e eq_refl). eexists; split; [reflexivity |].
      intros _. split; [reflexivity | eexists; reflexivity].
  - rewrite (Hd e eq_refl). eexists; split; [reflexivity |].
    intros _. split; [reflexivity | eexists; reflexivity].
Qed.

Lemma publish_event_never_raises_witness :
  exists es',
    publish_event {| sent := []; log := [] |} "app:task_1" "task_progress"
      (VDict ∅)
      {| json_dumps := Raises (error "Object of type set is not JSON serializable");
         redis_publish := Returns 0%Z |}
    = (es', Returns tt)
    /\ ((exists e,
           Raises (error "Object of type set is not JSON serializable")
             = Raises (A := string) e
           \/ Returns (A := Z) 0%Z = Raises e) ->
        sent es' = []
        /\ exists line, log es' = ([] ++ [LogError line])%list).
Proof.
  apply (publish_event_never_raises {| sent := []; log := [] |}
           "app:task_1" "task_progress" (VDict ∅)
           {| json_dumps := Raises (error "Object of type set is not JSON serializable");
              redis_publish := Returns 0%Z |}).
  - intros e He. simpl in He. injection He as <-. reflexivity.
  - intros e He. simpl in He. discriminate He.
Defined.

(** Something that is not an [Exception] is not caught. *)
Example publish_event_lets_interrupt_through :
  (publish_event {| sent := []; log := [] |} "c" "t" VNone
     {| json_dumps := Returns "{}";
        redis_publish := Raises (Exn false "KeyboardInterrupt") |}).2
  = Raises (Exn false "KeyboardInterrupt").
Proof. reflexivity. Qed.

End EventBusFacts.

(* ----------------------------------------------------------------- *)
(** ** Circuit breaker *)
(* ----------------------------------------------------------------- *)

Section CircuitFacts.
Import Health Llm.

Lemma trip_opens (c : LlmClient) (reason : string) :
  circuit_open (_trip_circuit c reason) = true.
Proof. unfold _trip_circuit. destruct (circuit_open c) eqn:E; [exact E | reflexivity]. Qed.

Lemma trip_keeps_counters (c : LlmClient) (reason : string) :
  consecutive_failures (_trip_circuit c reason) = consecutive_failures c
  /\ max_failures (_trip_circuit c reason) = max_failures c
  /\ model (_trip_circuit c reason) = model c.
Proof. unfold _trip_circuit. destruct (circuit_open c); auto. Qed.

(** Counting a failure: one more on the counter, and the circuit is
    open afterwards exactly when it was already or the threshold is
    met. *)
Lemma count_failure_spec (c : LlmClient) (reason : string) :
  consecutive_failures (count_failure c reason) = S (consecutive_failures c)
  /\ max_failures (count_failure c reason) = max_failures c
  /\ model (count_failure c reason) = model c
  /\ circuit_open (count_failure c reason)
     = circuit_open c || (max_failures c <=? S (consecutive_failures c))%nat.
Proof.
  unfold count_failure; simpl.
  destruct (max_failures c <=? S (consecutive_failures c))%nat eqn:E.
  - rewrite trip_opens, orb_true_r.
    pose proof (trip_keeps_counters
      {| ollama_url := ollama_url c; model := model c;
         circuit_open := circuit_open c;
         consecutive_failures := S (consecutive_failures c);
         max_failures := max_failures c;
         probe_interval_seconds := probe_interval_seconds c;
         health := health c; requests := requests c;
         monitors := monitors c |} reason) as (-> & -> & ->).
    auto.
  - simpl. rewrite orb_false_r. auto.
Qed.

(** While the circuit is open [generate] returns [None] at once: the
    client, its request counter included, is left as it was. *)
Lemma generate_when_open (c : LlmClient) (r : http) :
  circuit_open c = true -> generate c r = (c, None).
Proof. intros H. unfold generate. rewrite H. reflexivity. Qed.

(** What one generate call does to a closed circuit. *)
Lemma generate_when_closed (c : LlmClient) (r : http) :
  circuit_open c = false ->
  max_failures (generate c r).1 = max_failures c
  /\ model (generate c r).1 = model c
  /\ requests (generate c r).1 = S (requests c)
  /\ ((generate c r).2 <> None ->
      generate_fails r = false
      /\ circuit_open (generate c r).1 = false
      /\ consecutive_failures (generate c r).1 = 0)
  /\ (failed_exchange r = true ->
      (generate c r).2 = None
      /\ consecutive_failures (generate c r).1 = S (consecutive_failures c)
      /\ circuit_open (generate c r).1
         = (max_failures c <=? S (consecutive_failures c))%nat)
  /\ (generate_fails r = true -> failed_exchange r = false ->
      (generate c r).2 = None
      /\ consecutive_failures (generate c r).1 = 1
      /\ circuit_open (generate c r).1 = (max_failures c <=? 1)%nat).
Proof.
  intros Hc. unfold generate. rewrite Hc.
  destruct r as [code b | msg]; simpl.
  - destruct (code =? 200)%Z eqn:Ecode; simpl.
    + destruct (response_text b) as [text | e] eqn:Eb; simpl.
      * repeat split; try reflexivity; try discriminate.
        all: intros; try congruence.
      * pose proof (count_failure_spec (_reset_circuit (send c))
                      ("Connection failure: " ++ message e))
          as (Hn & Hm & Hmod & Ho).
        simpl in Hn, Hm, Hmod, Ho.
        repeat split; try assumption; try discriminate; try congruence.
        -- unfold count_failure; simpl.
           destruct (max_failures c <=? 1)%nat; [| reflexivity].
           unfold _trip_circuit; simpl. reflexivity.
    + pose proof (count_failure_spec (send c)
                    ("Ollama error " ++ pretty code))
        as (Hn & Hm & Hmod & Ho).
      simpl in Hn, Hm, Hmod, Ho. rewrite Hc in Ho. simpl in Ho.
      repeat split; try assumption; try discriminate; try congruence.
      unfold count_failure; simpl.
      destruct (max_failures c <=? S (consecutive_failures c))%nat;
        [| reflexivity].
      unfold _trip_circuit; simpl. rewrite Hc. reflexivity.
  - pose proof (count_failure_spec (send c) ("Connection failure: " ++ msg))
      as (Hn & Hm & Hmod & Ho).
    simpl in Hn, Hm, Hmod, Ho. rewrite Hc in Ho. simpl in Ho.
    repeat split; try assumption; try discriminate; try congruence.
    unfold count_failure; simpl.
    destruct (max_failures c <=? S (consecutive_failures c))%nat;
      [| reflexivity].
    unfold _trip_circuit; simpl. rewrite Hc. reflexivity.
Qed.

(** What one probe does. *)
Lemma check_connection_spec (c : LlmClient) (r : http) :
  max_failures (check_connection c r).1 = max_failures c
  /\ model (check_connection c r).1 = model c
  /\ (probe_succeeds (model c) r = true ->
      circuit_open (check_connection c r).1 = false
      /\ consecutive_failures (check_connection c r).1 = 0
      /\ (check_connection c r).2 = true)
  /\ (probe_trips (model c) r = true ->
      circuit_open (check_connection c r).1 = true
      /\ consecutive_failures (check_connection c r).1 = consecutive_failures c)
  /\ (probe_succeeds (model c) r = false -> probe_trips (model c) r = false ->
      circuit_open (check_connection c r).1 = circuit_open c
      /\ consecutive_failures (check_connection c r).1 = consecutive_failures c).
Proof.
  unfold check_connection, probe_succeeds, probe_trips.
  destruct r as [code b | msg]; simpl.
  - destruct (code =? 200)%Z; simpl.
    + destruct (model_listed (model c) b) as [[|] | e]; simpl.
      * repeat split; try reflexivity; discriminate.
      * repeat split; try reflexivity; discriminate.
      * pose proof (trip_keeps_counters (send c)
                      ("Connection failed: " ++ message e)) as (Hn & Hm & Hmod).
        rewrite trip_opens. simpl in *.
        repeat split; try assumption; try reflexivity; discriminate.
    + pose proof (trip_keeps_counters (send c)
                    ("Ollama returned " ++ pretty code)) as (Hn & Hm & Hmod).
      rewrite trip_opens. simpl in *.
      repeat split; try assumption; try reflexivity; discriminate.
  - pose proof (trip_keeps_counters (send c)
                  ("Connection failed: " ++ msg)) as (Hn & Hm & Hmod).
    rewrite trip_opens. simpl in *.
    repeat split; try assumption; try reflexivity; discriminate.
Qed.


Lemma run_snoc (c : LlmClient) (ks : list call) (k : call) :
  run c (ks ++ [k]) = step (run c ks) k.
Proof. unfold run. rewrite fold_left_app. reflexivity. Qed.




(** C1: [generate] counts a reply it cannot read as a failure, but
    too late to matter.  A reply with status 200 whose body cannot be
    used (here ["response"] is null, so [.strip()] raises) ends in
    the [except] branch, is counted and returns [None]; but
    [_reset_circuit] has already run, before the body was read, so the
    counter restarts from 0 every time.  Three, or four, such failed
    calls in a row leave the circuit closed and every one of them is
    sent; a refused connection followed by such a reply leaves it
    closed too, while the same two failures in the other order open
    it.  [check_connection] reads the body before it resets: there
    one unreadable 200 reply opens the circuit. *)
Theorem unusable_replies_leave_circuit_closed :
  let reply := Response 200 (Json (VDict {[ "response" := VNone ]})) in
  let down := RequestError "connection refused" in
  max_failures fresh = 2
  /\ forallb generate_fails [reply; reply; reply] = true
  /\ (generate fresh reply).2 = None
  /\ consecutive_failures (run fresh (map Generate [reply; reply; reply])) = 1
  /\ circuit_open (run fresh (map Generate [reply; reply; reply])) = false
  /\ requests (run fresh (map Generate [reply; reply; reply; reply])) = 4
  /\ forallb generate_fails [down; reply] = true
  /\ circuit_open (run fresh (map Generate [down; reply])) = false
  /\ circuit_open (run fresh (map Generate [reply; down])) = true
  /\ circuit_open
       (check_connection fresh
          (Response 200 (Json (VDict {[ "models" := VNone ]})))).1 = true.
Proof. by_evaluation. Qed.



(** The scenario of the specification: three failed calls, the
    circuit trips at the second, and a fourth call is answered
    without any request. *)
Example three_failures_then_short_circuit :
  let down := RequestError "connection refused" in
  let c2 := run fresh (map Generate [down; down]) in
  let c3 := run fresh (map Generate [down; down; down]) in
  circuit_open (run fresh [Generate down]) = false
  /\ circuit_open c2 = true
  /\ requests c3 = 2
  /\ generate c3 (Response 200 (Json (VDict {[ "response" := VStr "hi" ]})))
     = (c3, None)
  /\ monitors c3 = 1
  /\ llm_status (health c3) = UNAVAILABLE.
Proof. by_evaluation. Qed.

(** C2, counterexample: on a fresh client, with no failure counted,
    one probe that cannot connect opens the circuit. *)
Lemma failed_probe_opens_below_threshold :
  let c' := step fresh (Probe (RequestError "connection refused")) in
  circuit_open fresh = false
  /\ circuit_open c' = true
  /\ consecutive_failures c' = 0
  /\ max_failures c' = 2.
Proof. by_evaluation. Qed.

(** C2, amended: taking calls one after the other, the circuit goes
    from closed to open only on a generate call that fails and brings
    the counter to the threshold, or on a probe that fails (request
    exception, status other than 200, unreadable tag list); it goes
    from open to closed only on a probe that succeeds.  The state is
    the boolean [circuit_open]: there is no third state. *)
Theorem circuit_transitions (c : LlmClient) (k : call) :
  (circuit_open c = false -> circuit_open (step c k) = true ->
   (exists r, k = Generate r /\ generate_fails r = true
              /\ (max_failures c <= consecutive_failures (step c k))%nat)
   \/ (exists r, k = Probe r /\ probe_trips (model c) r = true))
  /\ (circuit_open c = true -> circuit_open (step c k) = false ->
      exists r, k = Probe r /\ probe_succeeds (model c) r = true).
Proof.
  split.
  - intros Hclosed Hopen. destruct k as [r | r]; simpl in *.
    + left. exists r. split; [reflexivity |].
      pose proof (generate_when_closed c r Hclosed)
        as (_ & _ & _ & Hok & Hfail & Hbody).
      destruct (failed_exchange r) eqn:Ef.
      * destruct (Hfail eq_refl) as (_ & Hn & Ho).
        rewrite Ho in Hopen. apply Nat.leb_le in Hopen.
        split; [| lia].
        destruct r as [code b |]; simpl in *; [| reflexivity].
        apply negb_true_iff in Ef. rewrite Ef. reflexivity.
      * destruct (generate_fails r) eqn:Eg.
        -- destruct (Hbody eq_refl eq_refl) as (_ & Hn & Ho).
           rewrite Ho in Hopen. apply Nat.leb_le in Hopen.
           split; [reflexivity | lia].
        -- exfalso.
           destruct r as [code b | msg]; simpl in *; [| discriminate].
           apply negb_false_iff in Ef. rewrite Ef in Eg.
           unfold generate in Hopen. rewrite Hclosed, Ef in Hopen.
           destruct (response_text b); [simpl in Hopen |]; discriminate.
    + right. exists r. split; [reflexivity |].
      pose proof (check_connection_spec c r) as (_ & _ & Hok & _ & Hsame).
      destruct (probe_trips (model c) r) eqn:Et; [reflexivity |].
      destruct (probe_succeeds (model c) r) eqn:Es.
      * destruct (Hok eq_refl) as (Hc & _). congruence.
      * destruct (Hsame eq_refl eq_refl) as (Hc & _). congruence.
  - intros Hopen Hclosed. destruct k as [r | r]; simpl in *.
    + rewrite (generate_when_open c r Hopen) in Hclosed.
      simpl in Hclosed. congruence.
    + exists r. split; [reflexivity |].
      pose proof (check_connection_spec c r) as (_ & _ & _ & Htrip & Hsame).
      destruct (probe_succeeds (model c) r) eqn:Es; [reflexivity |].
      destruct (probe_trips (model c) r) eqn:Et.
      * destruct (Htrip eq_refl) as (Hc & _). congruence.
      * destruct (Hsame eq_refl eq_refl) as (Hc & _). congruence.
Qed.

Lemma circuit_transitions_witness :
  exists r, Probe (Response 200
               (Json (VDict {[ "models" :=
                  VList [VDict {[ "name" := VStr "llama3:latest" ]}] ]})))
            = Probe r
            /\ probe_succeeds "llama3" r = true.
Proof.
  apply (proj2 (circuit_transitions
                  (step fresh (Probe (RequestError "connection refused")))
                  (Probe (Response 200
                     (Json (VDict {[ "models" :=
                        VList [VDict {[ "name" := VStr "llama3:latest" ]}] ]})))))).
  - reflexivity.
  - reflexivity.
Defined.

End CircuitFacts.

(* ----------------------------------------------------------------- *)
(** ** Summaries *)
(* ----------------------------------------------------------------- *)

Section SummarizerFacts.
Import Llm Summarizer.

(** C10: when the text to summarize is absent (none was handed in and
    the database has none either) or has fewer than 20 words,
    [generate_summary] returns [None] and leaves the service as it
    was: no summary row is added or changed, and the LLM is not
    called. *)
Theorem short_text_yields_no_summary
    (svc : SummarizerService) (k : calls) (tid text : value) :
  (forall t, text_to_summarize (db svc) (resolve_id tid) text = Some t ->
     truthy t = false
     \/ exists s, t = VStr s /\ (length (split s) < 20)%nat) ->
  generate_summary svc k tid text = (svc, Returns None).
Proof.
  intros H. unfold generate_summary.
  destruct (truthy (resolve_id tid)); simpl; [| reflexivity].
  destruct (text_to_summarize (db svc) (resolve_id tid) text) as [t |];
    [| reflexivity].
  destruct (H t eq_refl) as [Hf | (s & -> & Hlen)].
  - rewrite Hf. reflexivity.
  - destruct (truthy (VStr s)); simpl; [| reflexivity].
    apply Nat.ltb_lt in Hlen. rewrite Hlen. reflexivity.
Qed.

Lemma short_text_yields_no_summary_witness :
  generate_summary
    {| db := {| transcriptions := ∅; summaries := [] |}; llm := fresh |}
    Sample.echo (VStr "tx-1") (VStr "only five words in here")
  = ({| db := {| transcriptions := ∅; summaries := [] |}; llm := fresh |},
     Returns None).
Proof.
  apply (short_text_yields_no_summary
           {| db := {| transcriptions := ∅; summaries := [] |}; llm := fresh |}
           Sample.echo (VStr "tx-1") (VStr "only five words in here")).
  intros t Ht. right. exists "only five words in here".
  split.
  - vm_compute in Ht. congruence.
  - vm_compute. lia.
Defined.

(** With twenty words or more and an LLM that answers, a summary row
    is written. *)
Example long_text_is_summarized :
  let r := generate_summary
             {| db := {| transcriptions := ∅; summaries := [] |}; llm := fresh |}
             Sample.echo (VStr "tx-1") (VStr Sample.thirty_words) in
  map content (summaries (db r.1)) = [VStr Sample.thirty_words]
  /\ r.2 = Returns (Some {[ "status" := VStr "success";
                            "type" := VStr "Unknown";
                            "content" := VStr Sample.thirty_words ]}).
Proof. by_evaluation. Qed.

(** A non-empty string handed to [generate_summary] is the text it
    summarizes: the database is not read for another, and the length
    test and steps 2 to 4 run on that string. *)
Lemma generate_summary_of_text
    (svc : SummarizerService) (k : calls) (tid : value) (s : string) :
  truthy (resolve_id tid) = true -> s <> "" ->
  generate_summary svc k tid (VStr s)
  = if (length (split s) <? 20)%nat then (svc, Returns None)
    else (let (svc', r) := summarize svc k (resolve_id tid) s in
          (svc', Returns r)).
Proof.
  intros Hid Hs. unfold generate_summary, text_to_summarize.
  assert (truthy (VStr s) = true) as Ht.
  { simpl. apply negb_true_iff, String.eqb_neq. exact Hs. }
  rewrite Hid, Ht. cbv beta iota. rewrite Ht. reflexivity.
Qed.

End SummarizerFacts.

(* ----------------------------------------------------------------- *)
(** ** The task chain *)
(* ----------------------------------------------------------------- *)

Section PipelineFacts.
Import EventBus Summarizer Pipeline.

Lemma robust_input_keeps_non_strings (result : value) :
  isinstance_str result = false -> (robust_input result).2 = result.
Proof. destruct result; intros H; try reflexivity; discriminate. Qed.

(** C9: given anything but a string from which no usable
    transcription id comes out (no ["id"], an empty or null one, or a
    nested dict without a usable inner ["id"]), each of the three
    chained tasks returns what it was given and leaves the world as it
    was: nothing written to the database, nothing published, nothing
    handed to the broker. *)
Theorem unusable_id_is_a_no_op
    (x : collaborators) (self : request) (result : value) (w : World) :
  isinstance_str result = false ->
  truthy (robust_input result).1 = false ->
  run_auto_correct_task x result w = (w, Returns result)
  /\ run_speaker_ident_task x result w = (w, Returns result)
  /\ generate_summary_task x self result w = (w, Returns result).
Proof.
  intros Hstr Hid.
  pose proof (robust_input_keeps_non_strings result Hstr) as Hres.
  unfold run_auto_correct_task, run_speaker_ident_task, generate_summary_task.
  destruct (robust_input result) as [tid res]. simpl in Hid, Hres.
  subst res. rewrite Hid. simpl. auto.
Qed.

Lemma unusable_id_is_a_no_op_witness :
  let nested : value :=
    VDict {[ "id" := VDict {[ "text" := VStr "hello" ]};
             "text" := VStr "hello" ]} in
  let x := Sample.collaborators_with Sample.no_token Sample.no_token
             (Returns "tx-1") in
  run_auto_correct_task x nested Sample.idle = (Sample.idle, Returns nested)
  /\ run_speaker_ident_task x nested Sample.idle = (Sample.idle, Returns nested)
  /\ generate_summary_task x {| id := "task-4"; retries := 0 |} nested Sample.idle
     = (Sample.idle, Returns nested).
Proof.
  cbv zeta.
  apply (unusable_id_is_a_no_op
           (Sample.collaborators_with Sample.no_token Sample.no_token
              (Returns "tx-1"))
           {| id := "task-4"; retries := 0 |}
           (VDict {[ "id" := VDict {[ "text" := VStr "hello" ]};
                     "text" := VStr "hello" ]})
           Sample.idle).
  - reflexivity.
  - vm_compute. reflexivity.
Defined.

(** An empty string is a string: the tasks wrap it before they give
    up, so what comes back is the wrapper. *)
Example empty_string_comes_back_wrapped (x : collaborators) (w : World) :
  run_auto_correct_task x (VStr "") w
  = (w, Returns (VDict {[ "id" := VStr "" ]})).
Proof. reflexivity. Qed.

(** The summarize stage up to its call of the summarizer: the id
    found in the payload, the progress event, and the service built on
    the session and on a client of its own. *)
Lemma summary_stage_calls_summarizer
    (x : collaborators) (self : request) (w : World)
    (d : dict) (tid text : value) :
  (robust_input (VDict d)).1 = tid -> truthy tid = true ->
  transcript_text d = text ->
  let channel_id :=
    if truthy (get d "root_task_id") then get d "root_task_id" else tid in
  let progress_event :=
    Event (task_channel x channel_id) "task_progress"
      (VDict {[ "task_id" := VStr (id self); "id" := tid;
                "stage" := VStr "summarizing";
                "message" := VStr "AI is Summarizing..." ]}) in
  let svc :=
    {| db := store w;
       llm := Llm.__init__ (health w) (OLLAMA_BASE_URL x ++ "/api/generate")
                (LLM_MODEL (summary_calls x)) |} in
  let g := generate_summary svc (summary_calls x) tid text in
  let w' :=
    {| store := db g.1; health := Llm.health (llm g.1);
       published := published w ++ [progress_event];
       queue := queue w; retried := retried w |} in
  generate_summary_task x self (VDict d) w
  = match g.2 with
    | Raises e =>
        if is_exception e
        then summary_failed x self tid channel_id d e w'
        else (w', Raises e)
    | Returns None =>
        (w', Returns (VDict (<["summary_status" := VStr "failed"]> d)))
    | Returns (Some summary_result) =>
        let d' := <["meeting_type" :=
                      get_or summary_result "type" (VStr "Unknown")]>
                    (<["summary_status" := VStr "complete"]> d) in
        match parse_summary x (get summary_result "content") with
        | Returns parsed =>
            ({| store := db g.1; health := Llm.health (llm g.1);
                published :=
                  (published w ++ [progress_event])
                  ++ [Event (task_channel x channel_id) "summary_complete"
                        (VDict {[ "task_id" := VStr (id self); "id" := tid;
                                  "summary" := get parsed "summary";
                                  "meeting_type" := get parsed "meeting_type";
                                  "message" := VStr "Summary complete" ]})];
                queue := queue w; retried := retried w |},
             Returns (VDict d'))
        | Raises e =>
            if is_exception e
            then summary_failed x self tid channel_id d' e w'
            else (w', Raises e)
        end
    end.
Proof.
  intros Htid Htruthy Htext. cbv zeta.
  unfold generate_summary_task.
  assert (robust_input (VDict d) = (tid, VDict d)) as ->.
  { rewrite <- Htid. reflexivity. }
  cbv beta iota. rewrite Htruthy. cbn [negb]. cbv beta iota zeta.
  rewrite Htext.
  unfold bind at 1. unfold publish at 1. cbv beta iota.
  unfold call_summarizer. cbn [store health published queue retried].
  destruct (generate_summary _ (summary_calls x) tid text)
    as [svc' [[summary_result |] | e]]; cbn [fst snd]; reflexivity.
Qed.

(** C6: for every payload with a usable id that reaches the summarize
    stage, the text the stage has summarized is the payload's
    [corrected_text] when that is non-empty and its [text] otherwise,
    in particular when there is no [corrected_text] key.  It is that
    value the summarizer is called with: the database and the health
    state the stage leaves are those [generate_summary] leaves for it,
    and the payload returned is marked failed when that call returns
    no summary and complete, with the meeting type of the summary,
    when it returns one that can be parsed.  When the chosen text is a
    non-empty string, the summarizer takes no other text from the
    database: under twenty words nothing is written, and from twenty
    words on the rows the stage leaves are those of steps 2 to 4 run
    on that very string. *)
Theorem summary_text_choice
    (x : collaborators) (self : request) (w : World)
    (d : dict) (tid text : value) :
  (robust_input (VDict d)).1 = tid -> truthy tid = true ->
  (truthy (get d "corrected_text") = true /\ text = get d "corrected_text")
  \/ ((truthy (get d "corrected_text") = false
       \/ d !! "corrected_text" = None)
      /\ text = get d "text") ->
  let svc :=
    {| db := store w;
       llm := Llm.__init__ (health w) (OLLAMA_BASE_URL x ++ "/api/generate")
                (LLM_MODEL (summary_calls x)) |} in
  let g := generate_summary svc (summary_calls x) tid text in
  let r := generate_summary_task x self (VDict d) w in
  store r.1 = db g.1
  /\ health r.1 = Llm.health (llm g.1)
  /\ (g.2 = Returns None ->
      r.2 = Returns (VDict (<["summary_status" := VStr "failed"]> d)))
  /\ (forall summary_result parsed,
        g.2 = Returns (Some summary_result) ->
        parse_summary x (get summary_result "content") = Returns parsed ->
        r.2 = Returns (VDict
                (<["meeting_type" :=
                     get_or summary_result "type" (VStr "Unknown")]>
                   (<["summary_status" := VStr "complete"]> d)))
        /\ last (published r.1)
           = Some (Event
                (task_channel x
                   (if truthy (get d "root_task_id")
                    then get d "root_task_id" else tid))
                "summary_complete"
                (VDict {[ "task_id" := VStr (id self); "id" := tid;
                          "summary" := get parsed "summary";
                          "meeting_type" := get parsed "meeting_type";
                          "message" := VStr "Summary complete" ]})))
  /\ (forall s, text = VStr s -> s <> "" -> truthy (resolve_id tid) = true ->
      ((length (split s) < 20)%nat ->
       store r.1 = store w
       /\ r.2 = Returns (VDict (<["summary_status" := VStr "failed"]> d)))
      /\ ((20 <= length (split s))%nat ->
          store r.1
          = db (summarize svc (summary_calls x) (resolve_id tid) s).1)).
Proof.
  intros Htid Htruthy Hchoice.
  assert (transcript_text d = text) as Htext.
  { unfold transcript_text, or_else.
    destruct Hchoice as [[Hc ->] | [[Hc | Hc] ->]].
    - rewrite Hc. reflexivity.
    - rewrite Hc. reflexivity.
    - unfold get at 1 2. rewrite Hc. reflexivity. }
  pose proof (summary_stage_calls_summarizer x self w d tid text
                Htid Htruthy Htext) as Hstage.
  cbv zeta in Hstage. cbv zeta.
  set (svc := {| db := store w;
                 llm := Llm.__init__ (health w)
                          (OLLAMA_BASE_URL x ++ "/api/generate")
                          (LLM_MODEL (summary_calls x)) |}) in *.
  set (g := generate_summary svc (summary_calls x) tid text) in *.
  assert (store (generate_summary_task x self (VDict d) w).1 = db g.1
          /\ health (generate_summary_task x self (VDict d) w).1
             = Llm.health (llm g.1)) as [Hstore Hhealth].
  { rewrite Hstage.
    destruct (g.2) as [[summary_result |] | e].
    - destruct (parse_summary x (get summary_result "content"))
        as [parsed | e]; [auto |].
      destruct (is_exception e); auto.
    - auto.
    - destruct (is_exception e); auto. }
  split; [exact Hstore |]. split; [exact Hhealth |].
  split; [| split].
  - intros Hg. rewrite Hstage, Hg. reflexivity.
  - intros summary_result parsed Hg Hparsed.
    rewrite Hstage, Hg. cbv beta iota zeta. rewrite Hparsed.
    cbn [fst snd published]. split; [reflexivity |].
    apply last_snoc.
  - intros s -> Hs Hid.
    pose proof (generate_summary_of_text svc (summary_calls x) tid s Hid Hs)
      as Hg.
    fold g in Hg. split.
    + intros Hshort. apply Nat.ltb_lt in Hshort. rewrite Hshort in Hg.
      split.
      * rewrite Hstore, Hg. reflexivity.
      * rewrite Hstage, Hg. reflexivity.
    + intros Hlong. apply Nat.ltb_ge in Hlong. rewrite Hlong in Hg.
      rewrite Hstore, Hg.
      destruct (summarize svc (summary_calls x) (resolve_id tid) s).
      reflexivity.
Qed.

Lemma summary_text_choice_witness :
  store
    (generate_summary_task
       (Sample.collaborators_with Sample.no_token Sample.no_token
          (Returns "tx-1"))
       {| id := "task-4"; retries := 0 |}
       (VDict {[ "id" := VStr "job-1"; "text" := VStr Sample.thirty_words ]})
       Sample.idle).1
  = db (summarize
          {| db := store Sample.idle;
             llm := Llm.__init__ (health Sample.idle)
                      ("http://localhost:11434" ++ "/api/generate") "llama3" |}
          Sample.echo (VStr "job-1") Sample.thirty_words).1.
Proof.
  refine (proj2 (proj2 (proj2 (proj2 (proj2
            (summary_text_choice
               (Sample.collaborators_with Sample.no_token Sample.no_token
                  (Returns "tx-1"))
               {| id := "task-4"; retries := 0 |} Sample.idle
               {[ "id" := VStr "job-1"; "text" := VStr Sample.thirty_words ]}
               (VStr "job-1") (VStr Sample.thirty_words) _ _ _))))
            Sample.thirty_words _ _ _) _).
  - vm_compute. reflexivity.
  - reflexivity.
  - right. split; [right; vm_compute; reflexivity | vm_compute; reflexivity].
  - reflexivity.
  - discriminate.
  - reflexivity.
  - vm_compute. lia.
Defined.

(** The corrected text wins over the raw one: with both in the
    payload, the summary stored is made from [corrected_text]. *)
Example corrected_text_is_summarized :
  let x := Sample.collaborators_with Sample.no_token Sample.no_token
             (Returns "tx-1") in
  let r := generate_summary_task x {| id := "task-4"; retries := 0 |}
             (VDict {[ "id" := VStr "job-1";
                       "text" := VStr "uh raw words";
                       "corrected_text" := VStr Sample.thirty_words ]})
             Sample.idle in
  map content (summaries (store r.1)) = [VStr Sample.thirty_words]
  /\ map event_type (published r.1) = ["task_progress"; "summary_complete"].
Proof. by_evaluation. Qed.

(** The scenario of the specification: a payload with thirty words of
    [text] and no [corrected_text] is summarized from its [text]. *)
Example raw_text_is_summarized :
  let x := Sample.collaborators_with Sample.no_token Sample.no_token
             (Returns "tx-1") in
  let r := generate_summary_task x {| id := "task-4"; retries := 0 |}
             (VDict {[ "id" := VStr "job-1";
                       "text" := VStr Sample.thirty_words ]})
             Sample.idle in
  map content (summaries (store r.1)) = [VStr Sample.thirty_words]
  /\ map event_type (published r.1) = ["task_progress"; "summary_complete"]
  /\ map channel (published r.1) = ["app:task_job-1"; "app:task_job-1"].
Proof. by_evaluation. Qed.

(** C4: one submission followed through its four stages.  The
    transcribe stage publishes on the channel of its Celery id; the
    payload it hands on carries no [root_task_id], so speaker
    identification and summarization publish on the channel of the
    transcription row instead. *)
Theorem chain_publishes_on_two_channels :
  Sample.channels Sample.full_chain
  = ["app:task_task-1"; "app:task_task-1"; "app:task_task-1";
     "app:task_tx-1"; "app:task_tx-1"; "app:task_tx-1"]
  /\ map event_type (published Sample.full_chain)
     = ["task_progress"; "task_progress"; "transcription_complete";
        "task_progress"; "task_progress"; "summary_complete"].
Proof. by_evaluation. Qed.

(** Whatever the collaborators do, a payload without [root_task_id]
    makes speaker identification announce itself on the channel of
    the transcription id. *)
Lemma speaker_ident_channel_without_root
    (x : collaborators) (d : dict) (i : string) (w : World) :
  d !! "id" = Some (VStr i) -> i <> "" ->
  d !! "root_task_id" = None ->
  exists rest,
    published (run_speaker_ident_task x (VDict d) w).1
    = (published w
       ++ Event ("app:task_" ++ i) "task_progress"
            (VDict {[ "task_id" := VStr i; "id" := VStr i;
                      "stage" := VStr "identifying_speakers";
                      "message" := VStr "Analyzing Conversation Details..." ]})
       :: rest)%list.
Proof.
  intros Hid Hne Hroot.
  assert (String.eqb i "" = false) as Hi by (apply String.eqb_neq; exact Hne).
  unfold run_speaker_ident_task, robust_input, get.
  rewrite Hid, Hroot. simpl. rewrite Hi. simpl.
  unfold bind at 1. unfold publish at 1.
  match goal with
  | |- context [identify_speakers ?a ?b ?c ?d] =>
      assert (forall w0, exists rest,
                published (identify_speakers a b c d w0).1
                = (published w0 ++ rest)%list) as Hident
  end.
  { intros w0. unfold identify_speakers, unless_failed.
    repeat first
      [ progress (unfold ret, raise, bind, publish, on_store; simpl)
      | match goal with
        | |- context [match ?t with _ => _ end] =>
            lazymatch t with
            | context [match _ with _ => _ end] => fail
            | _ => destruct t eqn:?
            end
        end ];
      try (exists []; rewrite app_nil_r; reflexivity);
      try (eexists; reflexivity). }
  unfold bind.
  match goal with
  | |- context [identify_speakers ?a ?b ?c ?d ?w0] =>
      destruct (Hident w0) as [rest Hrest];
      destruct (identify_speakers a b c d w0) as [w1 [d1 | e]]
  end; simpl in *.
  - exists rest. rewrite Hrest. rewrite <- app_assoc. reflexivity.
  - exists rest. rewrite Hrest. rewrite <- app_assoc. reflexivity.
Qed.

(** The context pass is best effort: as long as what fails in it
    fails with an [Exception], it returns some keywords and touches
    neither the database nor the queue. *)
Lemma context_pass_returns
    (x : collaborators) (self : request) (backend : string) (w : World) :
  fails_with_exception (get_transcriber x backend "tiny") ->
  fails_with_exception (transcribe x "tiny" VNone) ->
  (forall s, fails_with_exception (extract_context_keywords x s)) ->
  exists w' context_keywords,
    context_pass x self backend w = (w', Returns context_keywords)
    /\ store w' = store w /\ queue w' = queue w /\ retried w' = retried w.
Proof.
  intros Hget Hpre Hkw. unfold context_pass.
  destruct (SKIP_CONTEXT_EXTRACTION x).
  { exists w, (VStr ""). auto. }
  unfold bind at 1. unfold publish at 1. unfold try_except, bind, lift.
  destruct (get_transcriber x backend "tiny") as [[] | e] eqn:Eg.
  2:{ rewrite (Hget e eq_refl). eexists _, _. unfold ret. simpl. auto. }
  destruct (transcribe x "tiny" VNone) as [pre_result | e] eqn:Ep.
  2:{ rewrite (Hpre e eq_refl). eexists _, _. unfold ret. simpl. auto. }
  set (pre_text := match pre_result with
                   | VDict d => get_or d "text" (VStr "")
                   | _ => VStr ""
                   end).
  destruct (truthy pre_text).
  2:{ eexists _, _. unfold ret. simpl. auto. }
  destruct pre_text as [| b | z | n dn | s | l | dd];
    try (unfold raise, ret, error; simpl; eexists _, _; simpl; auto; fail).
  destruct (CONTEXT_MIN_SPEECH_LENGTH x <? Z.of_nat (length (split s)))%Z.
  2:{ eexists _, _. unfold ret. simpl. auto. }
  destruct (extract_context_keywords x s) as [ck | e] eqn:Ek.
  2:{ rewrite (Hkw s e Ek). eexists _, _. unfold ret. simpl. auto. }
  destruct (truthy ck && isinstance_str ck);
    unfold publish, ret; simpl; eexists _, _; simpl; auto.
Qed.

(** C5, counterexample: the transcription succeeds and speaker
    detection raises, yet (1) for a silent recording the payload's
    text is empty, and (2) when the transcription cannot be saved the
    attempt fails and nothing is handed to auto-correction. *)
Lemma join_without_text_or_without_chaining :
  let self := {| id := "task-1"; retries := 0 |} in
  let silent := Sample.collaborators_with (Sample.transcript "")
                  Sample.no_token (Returns "tx-1") in
  let unsaved := Sample.collaborators_with (Sample.transcript "hello there")
                   Sample.no_token (Raises (error "database is locked")) in
  (match (transcribe_audio_task silent self "temp/a.wav" "en"
            "faster-whisper" "large-v3" Sample.idle).2 with
   | Returns (VDict payload) => truthy (get payload "text")
   | _ => true
   end = false)
  /\ queue (transcribe_audio_task unsaved self "temp/a.wav" "en"
              "faster-whisper" "large-v3" Sample.idle).1 = []
  /\ (transcribe_audio_task unsaved self "temp/a.wav" "en"
        "faster-whisper" "large-v3" Sample.idle).2
     = Raises (error "database is locked").
Proof. by_evaluation. Qed.

(** C5, amended: when the transcription returns a transcript and
    speaker detection raises, the join yields that transcript with an
    empty list of speaker segments; and provided the transcript is
    then saved, the task returns the transcript under its new id,
    text and segments as the transcriber gave them (so a non-empty
    text stays non-empty), and hands exactly that payload to
    auto-correction. *)
Theorem segmentation_failure_degrades
    (x : collaborators) (self : request)
    (audio_path language backend model_size : string) (w : World)
    (r : dict) (e : exn) (item_id : string) :
  get_transcriber x backend model_size = Returns tt ->
  fails_with_exception (get_transcriber x backend "tiny") ->
  fails_with_exception (transcribe x "tiny" VNone) ->
  (forall s, fails_with_exception (extract_context_keywords x s)) ->
  (forall prompt, transcribe x model_size prompt = Returns (VDict r)) ->
  diarize x = Raises e -> is_exception e = true ->
  (forall s v, (save_transcription x s v audio_path).2 = Returns item_id) ->
  (forall context_keywords w1, exists joined,
     (parallel_pass x self model_size context_keywords w1).2
     = Returns (VDict joined, VList [])
     /\ get joined "text" = get r "text")
  /\ exists w' payload,
       transcribe_audio_task x self audio_path language backend model_size w
       = (w', Returns (VDict payload))
       /\ get payload "id" = VStr item_id
       /\ get payload "text" = get r "text"
       /\ get payload "segments" = get r "segments"
       /\ queue w'
          = (queue w ++ [("app.tasks.run_auto_correct_task", [VDict payload])])%list.
Proof.
  intros Hget Hg Hp Hk Htr Hdia Hexc Hsave.
  assert (safe_diarize x = Returns (VList [])) as Hsafe.
  { unfold safe_diarize. rewrite Hdia, Hexc. reflexivity. }
  assert (forall ck w1,
            parallel_pass x self model_size ck w1
            = ((publish (task_channel x (VStr (id self))) "task_progress"
                  (progress self "transcribing" "Listening & Diarizing...") w1).1,
               Returns (VDict (if truthy ck
                               then <["context_keywords" := ck]> r else r),
                        VList []))) as Hjoin.
  { intros ck w1. unfold parallel_pass, bind, lift, gather.
    rewrite Htr, Hsafe. simpl.
    destruct (truthy ck); reflexivity. }
  split.
  - intros ck w1. rewrite Hjoin. eexists; split; [reflexivity |].
    destruct (truthy ck); [| reflexivity].
    unfold get. rewrite lookup_insert_ne by discriminate. reflexivity.
  - destruct (context_pass_returns x self backend
                (publish (task_channel x (VStr (id self))) "task_progress"
                   (progress self "preprocessing" "Preparing audio...") w).1
                Hg Hp Hk)
      as (w1 & ck & Hctx & Hstore & Hqueue & Hretried).
    unfold transcribe_audio_task.
    unfold bind at 1. unfold publish at 1.
    unfold try_except.
    unfold bind at 1. unfold lift at 1. rewrite Hget.
    unfold bind at 1.
    unfold publish at 1 in Hctx. simpl in Hctx. rewrite Hctx.
    unfold bind at 1. rewrite Hjoin. simpl.
    unfold bind at 1. unfold lift at 1.
    unfold merge_speakers. simpl.
    unfold persist_and_chain, bind, on_store. simpl.
    set (r' := if truthy ck then <["context_keywords" := ck]> r else r).
    specialize (Hsave (store w1) (VDict r')).
    destruct (save_transcription x (store w1) (VDict r') audio_path)
      as [s' o]. simpl in Hsave. subst o. simpl.
    eexists _, _. split; [reflexivity |].
    unfold get. rewrite lookup_insert_eq.
    rewrite !lookup_insert_ne by discriminate.
    assert (r' !! "text" = r !! "text" /\ r' !! "segments" = r !! "segments")
      as [-> ->].
    { subst r'. destruct (truthy ck); [| auto].
      rewrite !lookup_insert_ne by discriminate. auto. }
    rewrite Hqueue. simpl. auto.
Qed.

Lemma segmentation_failure_degrades_witness :
  exists w' payload,
    transcribe_audio_task
      (Sample.collaborators_with (Sample.transcript "hello there")
         Sample.no_token (Returns "tx-1"))
      {| id := "task-1"; retries := 0 |}
      "temp/a.wav" "en" "faster-whisper" "large-v3" Sample.idle
    = (w', Returns (VDict payload))
    /\ get payload "id" = VStr "tx-1"
    /\ get payload "text"
       = get {[ "text" := VStr "hello there"; "segments" := VList [];
                "language" := VStr "en"; "duration" := VInt 12 ]} "text"
    /\ get payload "segments"
       = get {[ "text" := VStr "hello there"; "segments" := VList [];
                "language" := VStr "en"; "duration" := VInt 12 ]} "segments"
    /\ queue w'
       = (queue Sample.idle
          ++ [("app.tasks.run_auto_correct_task", [VDict payload])])%list.
Proof.
  apply (proj2 (segmentation_failure_degrades
           (Sample.collaborators_with (Sample.transcript "hello there")
              Sample.no_token (Returns "tx-1"))
           {| id := "task-1"; retries := 0 |}
           "temp/a.wav" "en" "faster-whisper" "large-v3" Sample.idle
           {[ "text" := VStr "hello there"; "segments" := VList [];
              "language" := VStr "en"; "duration" := VInt 12 ]}
           (error "HUGGINGFACE_TOKEN is not set") "tx-1"
           eq_refl
           ltac:(intros e' He'; discriminate He')
           ltac:(intros e' He'; discriminate He')
           ltac:(intros s e' He'; discriminate He')
           ltac:(intros; reflexivity)
           eq_refl eq_refl
           ltac:(intros; reflexivity))).
Defined.

End PipelineFacts.

(* ----------------------------------------------------------------- *)
(** ** Transcriber slots *)
(* ----------------------------------------------------------------- *)

Section SlotFacts.
Import Transcriber.

(** Replacing one call changes a count by what the old and the new
    call contribute. *)
Lemma count_set_call (p : call -> bool) (h : MaxAccuracyTranscriber) (i : nat)
    (c0 c : call) (sem : option nat) :
  calls h !! i = Some c0 ->
  (count p (set_call h i c sem) + Nat.b2n (p c0)
   = count p h + Nat.b2n (p c))%nat.
Proof.
  unfold count, set_call; simpl. generalize (calls h) as l. clear h.
  intros l. revert i. induction l as [| a l IH]; intros i Hi.
  - discriminate.
  - destruct i as [| i]; simpl in *.
    + injection Hi as ->.
      rewrite !filter_cons.
      destruct (decide (p c = true)) as [-> | Hc];
        destruct (decide (p c0 = true)) as [-> | Hc0]; simpl;
        try (apply not_true_is_false in Hc; rewrite Hc);
        try (apply not_true_is_false in Hc0; rewrite Hc0); simpl; lia.
    + specialize (IH i Hi). rewrite !filter_cons.
      destruct (decide (p a = true)); simpl; lia.
Qed.

Lemma slots_ok_init (l m : nat) : slots_ok l (__init__ l m).
Proof.
  split; simpl.
  - reflexivity.
  - unfold count; simpl. induction m as [| m IH]; [reflexivity |].
    simpl. rewrite filter_cons. simpl. exact IH.
  - apply Forall_replicate. simpl. discriminate.
  - apply Forall_replicate. simpl. discriminate.
Qed.

Ltac slot_count h i c0 c sem :=
  let H := fresh "Hcount" in
  pose proof (count_set_call holding h i c0 c sem) as H;
  let n0 := eval vm_compute in (Nat.b2n (holding c0)) in
  let n := eval vm_compute in (Nat.b2n (holding c)) in
  change (Nat.b2n (holding c0)) with n0 in H;
  change (Nat.b2n (holding c)) with n in H.

Lemma slots_ok_step (l : nat) (h h' : MaxAccuracyTranscriber) (a : action) :
  slots_ok l h -> transcribe_step h a = Some h' -> slots_ok l h'.
Proof.
  intros [Hl Hsum Hw Hh] Hdo.
  destruct a as [i ok | i | i ok | i | i]; simpl in Hdo;
    destruct (calls h !! i) as [[ph wk] |] eqn:Hi; try discriminate;
    destruct ph as [| | | ex]; try discriminate.
  - (* Start *)
    destruct ok; injection Hdo as <-.
    + slot_count h i {| at_phase := Created; worker := wk |}
        {| at_phase := Waiting; worker := wk |}
        (match _semaphore h with
         | None => Some (max_concurrency h) | Some v => Some v end).
      specialize (Hcount Hi).
      pose proof (proj1 (Forall_lookup _ _) Hw i _ Hi) as Hwk. simpl in Hwk.
      split; simpl.
      * exact Hl.
      * destruct (_semaphore h); lia.
      * apply Forall_insert; [exact Hw |]. simpl. intros Hk.
        destruct (Hwk Hk); discriminate.
      * apply Forall_insert; [exact Hh |]. simpl. discriminate.
    + slot_count h i {| at_phase := Created; worker := wk |}
        {| at_phase := Finished Raised; worker := wk |} (_semaphore h).
      specialize (Hcount Hi).
      pose proof (proj1 (Forall_lookup _ _) Hw i _ Hi) as Hwk. simpl in Hwk.
      split; simpl.
      * exact Hl.
      * destruct (_semaphore h); lia.
      * apply Forall_insert; [exact Hw |]. simpl. intros Hk.
        destruct (Hwk Hk); discriminate.
      * apply Forall_insert; [exact Hh |]. simpl. discriminate.
  - (* Acquire *)
    destruct (_semaphore h) as [[| v] |] eqn:Hs; try discriminate.
    injection Hdo as <-.
    slot_count h i {| at_phase := Waiting; worker := wk |}
      {| at_phase := Inferring; worker := true |} (Some v).
    specialize (Hcount Hi).
    split; simpl.
    + exact Hl.
    + lia.
    + apply Forall_insert; [exact Hw |]. simpl. auto.
    + apply Forall_insert; [exact Hh |]. simpl. auto.
  - (* Complete *)
    destruct (_semaphore h) as [v |] eqn:Hs; try discriminate.
    injection Hdo as <-.
    slot_count h i {| at_phase := Inferring; worker := wk |}
      {| at_phase := Finished (if ok then Returned else Raised);
         worker := false |} (Some (S v)).
    specialize (Hcount Hi).
    split; simpl.
    + exact Hl.
    + lia.
    + apply Forall_insert; [exact Hw |]. simpl. discriminate.
    + apply Forall_insert; [exact Hh |]. simpl. discriminate.
  - (* Cancel, not started *)
    injection Hdo as <-.
    slot_count h i {| at_phase := Created; worker := wk |}
      {| at_phase := Finished Cancelled; worker := wk |} (_semaphore h).
    specialize (Hcount Hi).
    split; simpl.
    + exact Hl.
    + destruct (_semaphore h); lia.
    + apply Forall_insert; [exact Hw |]. simpl. auto.
    + apply Forall_insert; [exact Hh |]. simpl. discriminate.
  - (* Cancel, waiting for a slot *)
    injection Hdo as <-.
    slot_count h i {| at_phase := Waiting; worker := wk |}
      {| at_phase := Finished Cancelled; worker := wk |} (_semaphore h).
    specialize (Hcount Hi).
    split; simpl.
    + exact Hl.
    + destruct (_semaphore h); lia.
    + apply Forall_insert; [exact Hw |]. simpl. auto.
    + apply Forall_insert; [exact Hh |]. simpl. discriminate.
  - (* Cancel, inference running *)
    destruct (_semaphore h) as [v |] eqn:Hs; try discriminate.
    injection Hdo as <-.
    slot_count h i {| at_phase := Inferring; worker := wk |}
      {| at_phase := Finished Cancelled; worker := wk |} (Some (S v)).
    specialize (Hcount Hi).
    split; simpl.
    + exact Hl.
    + lia.
    + apply Forall_insert; [exact Hw |]. simpl. auto.
    + apply Forall_insert; [exact Hh |]. simpl. discriminate.
  - (* WorkerExit *)
    destruct ex; try discriminate. destruct wk; try discriminate.
    injection Hdo as <-.
    slot_count h i {| at_phase := Finished Cancelled; worker := true |}
      {| at_phase := Finished Cancelled; worker := false |} (_semaphore h).
    specialize (Hcount Hi).
    split; simpl.
    + exact Hl.
    + destruct (_semaphore h); lia.
    + apply Forall_insert; [exact Hw |]. simpl. auto.
    + apply Forall_insert; [exact Hh |]. simpl. discriminate.
Qed.

Lemma reachable_slots_ok (l m : nat) (h : MaxAccuracyTranscriber) :
  reachable l m h -> slots_ok l h.
Proof.
  induction 1 as [| h a h' _ IH Hdo].
  - apply slots_ok_init.
  - exact (slots_ok_step l h h' a IH Hdo).
Qed.

Lemma exec_reachable (l m : nat) (schedule : list action) (h h' : MaxAccuracyTranscriber) :
  reachable l m h -> exec h schedule = Some h' -> reachable l m h'.
Proof.
  revert h. induction schedule as [| a rest IH]; intros h Hr He; simpl in He.
  - injection He as <-. exact Hr.
  - destruct (transcribe_step h a) as [h1 |] eqn:Hdo; [| discriminate].
    apply (IH h1); [| exact He].
    exact (reach_step l m h a h1 Hr Hdo).
Qed.

Lemma uncancelled_is_reachable (l m : nat) (h : MaxAccuracyTranscriber) :
  reachable_uncancelled l m h -> reachable l m h.
Proof.
  induction 1 as [| h a h' _ IH _ Hdo].
  - apply reach_init.
  - exact (reach_step l m h a h' IH Hdo).
Qed.

(** Without a cancellation in mid-inference a worker thread runs only
    for a call that holds a slot. *)
Lemma uncancelled_workers_hold (l m : nat) (h : MaxAccuracyTranscriber) :
  reachable_uncancelled l m h ->
  Forall (fun c => worker c = true -> at_phase c = Inferring) (calls h).
Proof.
  induction 1 as [| h a h' _ IH Hnc Hdo].
  - simpl. apply Forall_replicate. simpl. discriminate.
  - destruct a as [i ok | i | i ok | i | i]; simpl in Hdo, Hnc;
      destruct (calls h !! i) as [[ph wk] |] eqn:Hi; try discriminate;
      pose proof (proj1 (Forall_lookup _ _) IH i _ Hi) as Hold;
      simpl in Hold;
      destruct ph as [| | | ex]; try discriminate.
    + destruct ok; injection Hdo as <-; simpl;
        (apply Forall_insert; [exact IH |]); simpl; intros Hk;
        specialize (Hold Hk); discriminate.
    + destruct (_semaphore h) as [[| v] |]; try discriminate.
      injection Hdo as <-; simpl.
      apply Forall_insert; [exact IH |]. simpl. auto.
    + destruct (_semaphore h) as [v |]; try discriminate.
      injection Hdo as <-; simpl.
      apply Forall_insert; [exact IH |]. simpl. discriminate.
    + injection Hdo as <-; simpl.
      apply Forall_insert; [exact IH |]. simpl. intros Hk.
      specialize (Hold Hk); discriminate.
    + injection Hdo as <-; simpl.
      apply Forall_insert; [exact IH |]. simpl. intros Hk.
      specialize (Hold Hk); discriminate.
    + destruct ex; try discriminate. destruct wk; try discriminate.
      specialize (Hold eq_refl). discriminate.
Qed.

Lemma filter_length_mono (p q : call -> bool) (cs : list call) :
  Forall (fun c => p c = true -> q c = true) cs ->
  (length (filter (fun c => p c = true) cs)
   <= length (filter (fun c => q c = true) cs))%nat.
Proof.
  induction 1 as [| c cs Hc _ IH]; [reflexivity |].
  rewrite !filter_cons.
  destruct (decide (p c = true)) as [Hp | Hp].
  - rewrite decide_True by (exact (Hc Hp)). simpl. lia.
  - destruct (decide (q c = true)); simpl; lia.
Qed.

Lemma none_holding_when_all_finished (h : MaxAccuracyTranscriber) :
  Forall (fun c => finished c = true) (calls h) -> count holding h = 0%nat.
Proof.
  intros Hall. unfold count.
  induction Hall as [| c cs Hc _ IH]; [reflexivity |].
  rewrite filter_cons.
  destruct (decide (holding c = true)) as [Hh | Hh]; [| exact IH].
  unfold holding in Hh. apply bool_decide_eq_true in Hh.
  unfold finished in Hc. rewrite Hh in Hc. discriminate.
Qed.

(** C7, counterexample: limit 1, two calls.  The first call takes the
    slot and starts its inference; it is cancelled, which frees the
    slot while its worker thread runs on; the second call takes the
    slot and starts its own inference.  Two inferences run at once. *)
Lemma cancelled_inference_outlives_its_slot :
  exists h,
    reachable 1 2 h
    /\ exec (__init__ 1 2)
         [Start 0 true; Acquire 0; Cancel 0; Start 1 true; Acquire 1] = Some h
    /\ count executing h = 2%nat
    /\ count holding h = 1%nat.
Proof.
  eexists. split; [| split; [reflexivity | split; reflexivity]].
  apply (exec_reachable 1 2
           [Start 0 true; Acquire 0; Cancel 0; Start 1 true; Acquire 1]
           (__init__ 1 2)); [apply reach_init | reflexivity].
Qed.

(** C7, amended: on a handle with limit [l], whatever the number of
    calls and their interleaving, cancellations included: the calls
    inside the guarded region never exceed [l]; a worker thread only
    ever runs for a call that took a slot first; once every call has
    finished all [l] slots are free again; and as long as no call is
    cancelled while its inference runs, the inferences being executed
    never exceed [l]. *)
Theorem slots_bound_running_calls (l m : nat) (h : MaxAccuracyTranscriber) :
  reachable l m h ->
  (count holding h <= l)%nat
  /\ Forall (fun c => worker c = true ->
               at_phase c = Inferring \/ at_phase c = Finished Cancelled)
            (calls h)
  /\ (Forall (fun c => finished c = true) (calls h) ->
      _semaphore h = None \/ _semaphore h = Some l)
  /\ (reachable_uncancelled l m h -> (count executing h <= l)%nat).
Proof.
  intros Hr. pose proof (reachable_slots_ok l m h Hr) as [Hl Hsum Hw Hh].
  assert (count holding h <= l)%nat as Hbound.
  { destruct (_semaphore h); lia. }
  split; [exact Hbound |]. split; [exact Hw |]. split.
  - intros Hall. rewrite (none_holding_when_all_finished h Hall) in Hsum.
    destruct (_semaphore h) as [v |]; [right | left; reflexivity].
    f_equal. lia.
  - intros Hu. pose proof (uncancelled_workers_hold l m h Hu) as Hwh.
    etransitivity; [| exact Hbound].
    apply filter_length_mono.
    eapply Forall_impl; [exact Hwh |].
    intros c Hc Hk. unfold holding, executing in *.
    apply bool_decide_eq_true. exact (Hc Hk).
Qed.

Lemma slots_bound_running_calls_witness :
  (count holding
     {| max_concurrency := 2; _semaphore := Some 0%nat;
        calls := [ {| at_phase := Inferring; worker := true |};
                   {| at_phase := Inferring; worker := true |};
                   {| at_phase := Waiting; worker := false |} ] |} <= 2)%nat.
Proof.
  apply (proj1 (slots_bound_running_calls 2 3
           {| max_concurrency := 2; _semaphore := Some 0%nat;
              calls := [ {| at_phase := Inferring; worker := true |};
                         {| at_phase := Inferring; worker := true |};
                         {| at_phase := Waiting; worker := false |} ] |}
           (exec_reachable 2 3
              [Start 0 true; Start 1 true; Start 2 true; Acquire 0; Acquire 1]
              (__init__ 2 3) _ (reach_init 2 3) eq_refl))).
Defined.

End SlotFacts.

(* ----------------------------------------------------------------- *)
(** ** More on the circuit breaker *)
(* ----------------------------------------------------------------- *)

Section BreakerFacts.
Import Health Llm.

Lemma trip_monitors (c : LlmClient) (reason : string) :
  monitors (_trip_circuit c reason)
  = (monitors c + (if circuit_open c then 0 else 1))%nat.
Proof. unfold _trip_circuit. destruct (circuit_open c); simpl; lia. Qed.

Lemma count_failure_monitors (c : LlmClient) (reason : string) :
  monitors (count_failure c reason)
  = (monitors c
     + (if negb (circuit_open c) && circuit_open (count_failure c reason)
        then 1 else 0))%nat.
Proof.
  pose proof (count_failure_spec c reason) as (_ & _ & _ & Ho).
  rewrite Ho. unfold count_failure. simpl.
  destruct (max_failures c <=? S (consecutive_failures c))%nat.
  - rewrite trip_monitors. simpl.
    destruct (circuit_open c); simpl; lia.
  - simpl. destruct (circuit_open c); simpl; lia.
Qed.

(** X1: a recovery monitor is started exactly when a call takes the
    circuit from closed to open: tripping a circuit that is already
    open starts none, and neither does any other call. *)
Theorem monitor_started_only_on_opening (c : LlmClient) (k : call) :
  monitors (step c k)
  = (monitors c
     + (if negb (circuit_open c) && circuit_open (step c k) then 1 else 0))%nat.
Proof.
  destruct k as [r | r]; simpl.
  - destruct (circuit_open c) eqn:Hc.
    + rewrite (generate_when_open c r Hc). simpl. lia.
    + unfold generate. rewrite Hc.
      destruct r as [code b | msg]; simpl.
      * destruct (code =? 200)%Z; simpl.
        -- destruct (response_text b) as [text | e]; simpl; [lia |].
           rewrite count_failure_monitors. simpl. reflexivity.
        -- rewrite count_failure_monitors. simpl. rewrite Hc. reflexivity.
      * rewrite count_failure_monitors. simpl. rewrite Hc. reflexivity.
  - unfold check_connection.
    destruct r as [code b | msg]; simpl.
    + destruct (code =? 200)%Z; simpl.
      * destruct (model_listed (model c) b) as [[|] | e]; simpl.
        -- rewrite andb_false_r. lia.
        -- destruct (circuit_open c); simpl; lia.
        -- rewrite trip_monitors, trip_opens. simpl.
           destruct (circuit_open c); simpl; lia.
      * rewrite trip_monitors, trip_opens. simpl.
        destruct (circuit_open c); simpl; lia.
    + rewrite trip_monitors, trip_opens. simpl.
      destruct (circuit_open c); simpl; lia.
Qed.

Lemma check_connection_requests (c : LlmClient) (r : http) :
  requests (check_connection c r).1 = S (requests c).
Proof.
  unfold check_connection.
  destruct r as [code b | msg]; simpl.
  - destruct (code =? 200)%Z; simpl.
    + destruct (model_listed (model c) b) as [[|] | e]; simpl; try reflexivity.
      unfold _trip_circuit; simpl. destruct (circuit_open c); reflexivity.
    + unfold _trip_circuit; simpl. destruct (circuit_open c); reflexivity.
  - unfold _trip_circuit; simpl. destruct (circuit_open c); reflexivity.
Qed.

Lemma check_connection_result (c : LlmClient) (r : http) :
  (check_connection c r).2 = probe_succeeds (model c) r.
Proof.
  unfold check_connection, probe_succeeds.
  destruct r as [code b | msg]; simpl; [| reflexivity].
  destruct (code =? 200)%Z; simpl; [| reflexivity].
  destruct (model_listed (model c) b) as [[|] | e]; reflexivity.
Qed.

(** A probe that does not succeed leaves an open circuit open. *)
Lemma failed_probe_keeps_open (c : LlmClient) (p : http) :
  circuit_open c = true -> probe_succeeds (model c) p = false ->
  circuit_open (check_connection c p).1 = true
  /\ (check_connection c p).2 = false
  /\ model (check_connection c p).1 = model c
  /\ requests (check_connection c p).1 = S (requests c).
Proof.
  intros Hc Hp.
  pose proof (check_connection_spec c p) as (_ & Hmod & _ & Htrip & Hsame).
  split; [| split; [| split]].
  - destruct (probe_trips (model c) p) eqn:Et.
    + apply Htrip. reflexivity.
    + destruct (Hsame Hp eq_refl) as [-> _]. exact Hc.
  - rewrite check_connection_result. exact Hp.
  - exact Hmod.
  - apply check_connection_requests.
Qed.

(** X2: the recovery monitor probes once per interval and stops at the
    first probe that succeeds, leaving the circuit closed and the
    failure counter at zero; later intervals are never probed.  While
    no probe succeeds the circuit stays open, one request per
    interval.  Started on a closed circuit it does nothing. *)
Theorem monitor_recovery_stops_at_first_success
    (c : LlmClient) (pre post : list http) (r : http) :
  forallb (fun p => negb (probe_succeeds (model c) p)) pre = true ->
  (circuit_open c = false -> _monitor_recovery c (pre ++ r :: post) = c)
  /\ (circuit_open c = true ->
      circuit_open (_monitor_recovery c pre) = true
      /\ requests (_monitor_recovery c pre) = (requests c + length pre)%nat)
  /\ (circuit_open c = true -> probe_succeeds (model c) r = true ->
      circuit_open (_monitor_recovery c (pre ++ r :: post)) = false
      /\ consecutive_failures (_monitor_recovery c (pre ++ r :: post)) = 0%nat
      /\ requests (_monitor_recovery c (pre ++ r :: post))
         = (requests c + length pre + 1)%nat).
Proof.
  intros Hpre. split; [| split].
  - intros Hc. destruct (pre ++ r :: post)%list; simpl; rewrite Hc; reflexivity.
  - revert c Hpre. induction pre as [| p pre IH]; intros c Hpre Hc.
    + simpl. rewrite Hc. split; [exact Hc | lia].
    + simpl in Hpre. apply andb_prop in Hpre as [Hp Hpre].
      apply negb_true_iff in Hp.
      destruct (failed_probe_keeps_open c p Hc Hp) as (Ho & Hres & Hmod & Hreq).
      simpl. rewrite Hc.
      destruct (check_connection c p) as [c' ok]. simpl in *. subst ok.
      rewrite <- Hmod in Hpre.
      destruct (IH c' Hpre Ho) as [Ho' Hr'].
      split; [exact Ho' | rewrite Hr', Hreq; lia].
  - revert c Hpre. induction pre as [| p pre IH]; intros c Hpre Hc Hr.
    + simpl. rewrite Hc.
      pose proof (check_connection_result c r) as Hres.
      pose proof (check_connection_requests c r) as Hreq.
      pose proof (check_connection_spec c r) as (_ & _ & Hok & _).
      destruct (Hok Hr) as (Ho & Hn & _).
      destruct (check_connection c r) as [c' ok]. simpl in *.
      rewrite Hr in Hres. subst ok.
      split; [exact Ho | split; [exact Hn | lia]].
    + simpl in Hpre. apply andb_prop in Hpre as [Hp Hpre].
      apply negb_true_iff in Hp.
      destruct (failed_probe_keeps_open c p Hc Hp) as (Ho & Hres & Hmod & Hreq).
      simpl. rewrite Hc.
      destruct (check_connection c p) as [c' ok]. simpl in *. subst ok.
      rewrite <- Hmod in Hpre, Hr.
      destruct (IH c' Hpre Ho Hr) as (Ho' & Hn' & Hq').
      split; [exact Ho' | split; [exact Hn' | rewrite Hq', Hreq; lia]].
Qed.

Lemma monitor_recovery_stops_at_first_success_witness :
  circuit_open
    (_monitor_recovery
       (run fresh (map Generate [RequestError "connection refused";
                                 RequestError "connection refused"]))
       ([RequestError "connection refused"; Response 503 (NotJson "")]
        ++ Response 200
             (Json (VDict {[ "models" :=
                VList [VDict {[ "name" := VStr "llama3:latest" ]}] ]}))
        :: [RequestError "connection refused"])) = false.
Proof.
  apply (proj2 (proj2 (monitor_recovery_stops_at_first_success
           (run fresh (map Generate [RequestError "connection refused";
                                     RequestError "connection refused"]))
           [RequestError "connection refused"; Response 503 (NotJson "")]
           [RequestError "connection refused"]
           (Response 200
              (Json (VDict {[ "models" :=
                 VList [VDict {[ "name" := VStr "llama3:latest" ]}] ]})))
           eq_refl))).
  - reflexivity.
  - reflexivity.
Defined.

End BreakerFacts.

(* ----------------------------------------------------------------- *)
(** ** More on the health singleton *)
(* ----------------------------------------------------------------- *)

Section HealthReports.
Import EventBus Health Llm Reading.

Lemma set_llm_status_sets (h : SystemHealthService)
    (s : ServiceStatus) (e : option string) :
  llm_status (set_llm_status h s e) = s
  /\ llm_error (set_llm_status h s e) = e.
Proof.
  unfold set_llm_status.
  destruct (bool_decide (llm_status h = s)) eqn:Es;
    destruct (bool_decide (llm_error h = e)) eqn:Ee; simpl; auto.
  apply bool_decide_eq_true in Es. apply bool_decide_eq_true in Ee. auto.
Qed.

Lemma snapshot_components (h : SystemHealthService) :
  component_field (get_status h) "transcriber" "status"
    = status_value (transcriber_status h)
  /\ component_field (get_status h) "transcriber" "error"
     = error_value (transcriber_error h)
  /\ component_field (get_status h) "llm" "status"
     = status_value (llm_status h)
  /\ component_field (get_status h) "llm" "error"
     = error_value (llm_error h)
  /\ component_field (get_status h) "speaker_diarization" "status"
     = status_value (speaker_diarization_status h)
  /\ component_field (get_status h) "speaker_diarization" "error"
     = error_value (speaker_diarization_error h).
Proof.
  unfold component_field, get_status, component, get.
  repeat split; by simplify_map_eq.
Qed.

(** X3: reporting the LLM status is deduplicated: a report that
    changes neither status nor error publishes nothing, so reporting
    twice in a row is the same as reporting once; a report that
    changes one of them publishes exactly one [system_status] event
    whose snapshot shows the new status and error. *)
Theorem llm_status_reports_are_deduplicated
    (h : SystemHealthService) (s : ServiceStatus) (e : option string) :
  set_llm_status (set_llm_status h s e) s e = set_llm_status h s e
  /\ (llm_status h = s -> llm_error h = e -> set_llm_status h s e = h)
  /\ (llm_status h <> s \/ llm_error h <> e ->
      exists ev,
        published (set_llm_status h s e) = (published h ++ [ev])%list
        /\ channel ev = "system_status"
        /\ event_type ev = "system_status"
        /\ component_field (payload_dict ev) "llm" "status" = status_value s
        /\ component_field (payload_dict ev) "llm" "error" = error_value e).
Proof.
  split; [| split].
  - destruct (set_llm_status_sets h s e) as [Hs He].
    unfold set_llm_status at 1. rewrite Hs, He.
    rewrite !bool_decide_eq_true_2 by reflexivity. reflexivity.
  - intros Hs He. unfold set_llm_status.
    rewrite !bool_decide_eq_true_2 by assumption. reflexivity.
  - intros Hne. unfold set_llm_status.
    assert (bool_decide (llm_status h = s) && bool_decide (llm_error h = e)
            = false) as ->.
    { apply andb_false_iff.
      destruct Hne as [Hne | Hne]; [left | right];
        apply bool_decide_eq_false; exact Hne. }
    unfold publish_status. simpl.
    eexists. split; [reflexivity |]. simpl.
    split; [reflexivity |]. split; [reflexivity |].
    match goal with
    | |- context [get_status ?h'] =>
        pose proof (snapshot_components h') as (_ & _ & Hs & He & _)
    end.
    simpl in Hs, He. auto.
Qed.

Lemma llm_status_reports_are_deduplicated_witness :
  exists ev,
    published (set_llm_status (_init (Returns (0, 0, 0)%Z)) UNAVAILABLE
                 (Some "Connection failed"))
    = (published (_init (Returns (0, 0, 0)%Z)) ++ [ev])%list
    /\ channel ev = "system_status"
    /\ event_type ev = "system_status"
    /\ component_field (payload_dict ev) "llm" "status" = status_value UNAVAILABLE
    /\ component_field (payload_dict ev) "llm" "error"
       = error_value (Some "Connection failed").
Proof.
  apply (proj2 (proj2 (llm_status_reports_are_deduplicated
           (_init (Returns (0, 0, 0)%Z)) UNAVAILABLE (Some "Connection failed")))).
  left. simpl. discriminate.
Defined.

(** The transcriber setter has no such check: it publishes every time. *)
Example transcriber_status_is_always_published (h : SystemHealthService)
    (s : ServiceStatus) (e : option string) :
  length (published (set_transcriber_status (set_transcriber_status h s e) s e))
  = (length (published h) + 2)%nat.
Proof.
  unfold set_transcriber_status, publish_status. simpl.
  rewrite !length_app. simpl. lia.
Qed.

(** X4: a snapshot can be taken without Redis: when the Redis client
    raises an [Exception] the three queue depths are reported as 0,
    otherwise they are the three list lengths; the components are the
    statuses as stored. *)
Theorem snapshot_survives_redis_outage (h : SystemHealthService) :
  (forall e, redis_llen h = Raises e -> is_exception e = true ->
     queue_depth (get_status h) "transcription_queue_depth" = VInt 0
     /\ queue_depth (get_status h) "processing_queue_depth" = VInt 0
     /\ queue_depth (get_status h) "maintenance_queue_depth" = VInt 0)
  /\ (forall t p m, redis_llen h = Returns (t, p, m) ->
        queue_depth (get_status h) "transcription_queue_depth" = VInt t
        /\ queue_depth (get_status h) "processing_queue_depth" = VInt p
        /\ queue_depth (get_status h) "maintenance_queue_depth" = VInt m)
  /\ component_field (get_status h) "llm" "status" = status_value (llm_status h)
  /\ component_field (get_status h) "transcriber" "status"
     = status_value (transcriber_status h)
  /\ component_field (get_status h) "speaker_diarization" "status"
     = status_value (speaker_diarization_status h).
Proof.
  pose proof (snapshot_components h) as (Ht & _ & Hl & _ & Hd & _).
  split; [| split; [| auto]].
  - intros e He _.
    unfold queue_depth, get_status, _get_task_queue_depth, get, get_or.
    rewrite He. repeat split; by simplify_map_eq.
  - intros t p m He.
    unfold queue_depth, get_status, _get_task_queue_depth, get, get_or.
    rewrite He. repeat split; by simplify_map_eq.
Qed.

Lemma snapshot_survives_redis_outage_witness :
  queue_depth (get_status (_init (Raises (error "Connection refused"))))
    "transcription_queue_depth" = VInt 0
  /\ queue_depth (get_status (_init (Raises (error "Connection refused"))))
       "processing_queue_depth" = VInt 0
  /\ queue_depth (get_status (_init (Raises (error "Connection refused"))))
       "maintenance_queue_depth" = VInt 0.
Proof.
  apply (proj1 (snapshot_survives_redis_outage
                  (_init (Raises (error "Connection refused"))))
           (error "Connection refused")).
  - reflexivity.
  - reflexivity.
Defined.

(** X5: for a client that reports alone, an open circuit always shows
    as UNAVAILABLE in the health singleton: if that holds before a run
    of calls, it holds after it. *)
Theorem open_circuit_is_reported_unavailable (c : LlmClient) (ks : list call) :
  (circuit_open c = true -> llm_status (health c) = UNAVAILABLE) ->
  circuit_open (run c ks) = true ->
  llm_status (health (run c ks)) = UNAVAILABLE.
Proof.
  intros Hinv.
  induction ks as [| k ks IH] using rev_ind; [exact Hinv |].
  rewrite run_snoc. set (c1 := run c ks) in *. clearbody c1.
  assert (forall c0 reason, llm_status (health (_trip_circuit c0 reason)) = UNAVAILABLE
                            \/ (circuit_open c0 = true
                                /\ health (_trip_circuit c0 reason) = health c0))
    as Htrip.
  { intros c0 reason. unfold _trip_circuit.
    destruct (circuit_open c0); [right; auto | left].
    simpl. apply set_llm_status_sets. }
  assert (forall c0 reason,
            (circuit_open c0 = true -> llm_status (health c0) = UNAVAILABLE) ->
            llm_status (health (_trip_circuit c0 reason)) = UNAVAILABLE) as Htrip'.
  { intros c0 reason H0. destruct (Htrip c0 reason) as [? | [Ho ->]]; auto. }
  destruct k as [r | r]; simpl.
  - destruct (circuit_open c1) eqn:Hc1.
    + rewrite (generate_when_open c1 r Hc1). simpl. intros _. apply IH. reflexivity.
    + unfold generate. rewrite Hc1.
      destruct r as [code b | msg]; simpl.
      * destruct (code =? 200)%Z; simpl.
        -- destruct (response_text b) as [text | e]; simpl; [discriminate |].
           unfold count_failure; simpl.
           destruct (max_failures c1 <=? 1)%nat; simpl; [| discriminate].
           intros _. apply set_llm_status_sets.
        -- unfold count_failure; simpl.
           destruct (max_failures c1 <=? S (consecutive_failures c1))%nat;
             simpl; [| congruence].
           intros _. apply Htrip'. simpl. congruence.
      * unfold count_failure; simpl.
        destruct (max_failures c1 <=? S (consecutive_failures c1))%nat;
          simpl; [| congruence].
        intros _. apply Htrip'. simpl. congruence.
  - unfold check_connection.
    destruct r as [code b | msg]; simpl.
    + destruct (code =? 200)%Z; simpl.
      * destruct (model_listed (model c1) b) as [[|] | e]; simpl.
        -- discriminate.
        -- intros _. apply set_llm_status_sets.
        -- intros _. apply Htrip'. simpl. exact IH.
      * intros _. apply Htrip'. simpl. exact IH.
    + intros _. apply Htrip'. simpl. exact IH.
Qed.

Lemma open_circuit_is_reported_unavailable_witness :
  llm_status (health (run fresh [Generate (RequestError "connection refused");
                                 Generate (Response 500 (NotJson ""));
                                 Probe (Response 502 (NotJson ""))]))
  = UNAVAILABLE.
Proof.
  apply (open_circuit_is_reported_unavailable fresh
           [Generate (RequestError "connection refused");
            Generate (Response 500 (NotJson ""));
            Probe (Response 502 (NotJson ""))]).
  - simpl. discriminate.
  - reflexivity.
Defined.

End HealthReports.

(* ----------------------------------------------------------------- *)
(** ** The text of a reply *)
(* ----------------------------------------------------------------- *)

Section ReplyText.
Import Health Llm Reading.

Lemma lstrip_chars (s : string) :
  list_ascii_of_string (lstrip s) = drop_spaces (list_ascii_of_string s).
Proof.
  induction s as [| c s IH]; simpl; [reflexivity |].
  destruct (isspace c); [exact IH | reflexivity].
Qed.

Lemma reverse_chars (s : string) :
  list_ascii_of_string (reverse s) = rev (list_ascii_of_string s).
Proof. unfold reverse. apply list_ascii_of_string_of_list_ascii. Qed.

Lemma reverse_involutive (s : string) : reverse (reverse s) = s.
Proof.
  unfold reverse. rewrite list_ascii_of_string_of_list_ascii, rev_involutive.
  apply string_of_list_ascii_of_string.
Qed.

Lemma chars_inj (s t : string) :
  list_ascii_of_string s = list_ascii_of_string t -> s = t.
Proof.
  intros H. rewrite <- (string_of_list_ascii_of_string s),
              <- (string_of_list_ascii_of_string t), H. reflexivity.
Qed.

Lemma drop_spaces_headed (l : list ascii) : headed (drop_spaces l).
Proof.
  induction l as [| c l IH]; simpl; [exact I |].
  destruct (isspace c) eqn:E; [exact IH | exact E].
Qed.

Lemma headed_fixed (l : list ascii) : headed l -> drop_spaces l = l.
Proof. destruct l as [| c l]; simpl; [reflexivity | intros ->; reflexivity]. Qed.

Lemma drop_spaces_suffix (l : list ascii) :
  exists sp, l = (sp ++ drop_spaces l)%list.
Proof.
  induction l as [| c l [sp IH]]; simpl.
  - exists []. reflexivity.
  - destruct (isspace c).
    + exists (c :: sp). simpl. rewrite <- IH. reflexivity.
    + exists []. reflexivity.
Qed.

Lemma headed_prefix (a b : list ascii) : headed (a ++ b)%list -> headed a.
Proof. destruct a; simpl; auto. Qed.

Lemma strip_chars_headed (l : list ascii) :
  headed (rev (drop_spaces (rev (drop_spaces l)))).
Proof.
  destruct (drop_spaces_suffix (rev (drop_spaces l))) as [sp Hsp].
  apply (headed_prefix _ (rev sp)).
  rewrite <- rev_app_distr, <- Hsp, rev_involutive.
  apply drop_spaces_headed.
Qed.

Lemma lstrip_idempotent (s : string) : lstrip (lstrip s) = lstrip s.
Proof.
  apply chars_inj. rewrite !lstrip_chars.
  apply headed_fixed, drop_spaces_headed.
Qed.

Lemma strip_trimmed (s : string) : trimmed (strip s).
Proof.
  unfold trimmed, strip. split.
  - apply chars_inj.
    rewrite lstrip_chars, !reverse_chars, !lstrip_chars, reverse_chars,
      lstrip_chars.
    apply headed_fixed, strip_chars_headed.
  - rewrite reverse_involutive. apply lstrip_idempotent.
Qed.

Lemma trimmed_strip (s : string) : trimmed s -> strip s = s.
Proof.
  intros [H1 H2]. unfold strip. rewrite H1, H2. apply reverse_involutive.
Qed.

(** X6: a text that [generate] returns has no whitespace at either
    end, so stripping it again changes nothing; and the call that
    returns a text leaves the circuit closed with the failure counter
    at zero, after exactly one request. *)
Theorem generate_returns_trimmed_text
    (c c' : LlmClient) (r : http) (text : string) :
  generate c r = (c', Some text) ->
  trimmed text /\ strip text = text
  /\ circuit_open c' = false /\ consecutive_failures c' = 0%nat
  /\ requests c' = S (requests c)
  /\ llm_status (health c') = READY.
Proof.
  unfold generate.
  destruct (circuit_open c); [discriminate |].
  destruct r as [code b | msg]; [| discriminate].
  destruct (code =? 200)%Z; [| discriminate].
  destruct (response_text b) as [t | e] eqn:Eb; [| discriminate].
  intros H. injection H as <- <-.
  assert (trimmed t) as Ht.
  { unfold response_text in Eb.
    destruct b as [v | m]; [| discriminate].
    destruct v; try discriminate.
    destruct (get_or d "response" (VStr "")); try discriminate.
    injection Eb as <-. apply strip_trimmed. }
  split; [exact Ht |]. split; [apply trimmed_strip, Ht |].
  simpl. repeat split. apply set_llm_status_sets.
Qed.

Lemma generate_returns_trimmed_text_witness :
  trimmed "Action items: none." /\ strip "Action items: none." = "Action items: none."
  /\ circuit_open
       (generate fresh
          (Response 200
             (Json (VDict {[ "response" := VStr "  Action items: none.  " ]})))).1
     = false.
Proof.
  assert (generate fresh
            (Response 200
               (Json (VDict {[ "response" := VStr "  Action items: none.  " ]})))
          = ((generate fresh
                (Response 200
                   (Json (VDict {[ "response" := VStr "  Action items: none.  " ]})))).1,
             Some "Action items: none.")) as H by (vm_compute; reflexivity).
  destruct (generate_returns_trimmed_text _ _ _ _ H) as (H1 & H2 & H3 & _).
  exact (conj H1 (conj H2 H3)).
Defined.

End ReplyText.

(* ----------------------------------------------------------------- *)
(** ** The summary table *)
(* ----------------------------------------------------------------- *)

Section SummaryTable.
Import Health Llm Summarizer Reading.

Lemma same_transcription_refl (id : string) (m : MeetingSummary) :
  transcription_id m = VStr id -> same_transcription (VStr id) m = true.
Proof. unfold same_transcription. intros ->. apply String.eqb_refl. Qed.

Lemma no_row_no_summaries (tid : value) (rows : list MeetingSummary) :
  existsb (same_transcription tid) rows = false <-> summaries_of tid rows = [].
Proof.
  unfold summaries_of. induction rows as [| m rows IH]; simpl; [tauto |].
  destruct (same_transcription tid m); simpl; [split; discriminate | exact IH].
Qed.

Lemma upsert_others (id : string) (new : MeetingSummary)
    (rows : list MeetingSummary) :
  transcription_id new = VStr id ->
  summaries_of_others (VStr id) (upsert (VStr id) new rows)
  = summaries_of_others (VStr id) rows.
Proof.
  intros Hnew. unfold summaries_of_others.
  induction rows as [| m rows IH]; cbn [upsert List.filter].
  - rewrite (same_transcription_refl id new Hnew). reflexivity.
  - destruct (same_transcription (VStr id) m) eqn:Em; cbn [List.filter].
    + unfold same_transcription in *. cbn [transcription_id]. rewrite Em.
      reflexivity.
    + rewrite Em. cbn [negb]. rewrite IH. reflexivity.
Qed.

Lemma upsert_same (id : string) (new : MeetingSummary)
    (rows : list MeetingSummary) :
  transcription_id new = VStr id ->
  length (summaries_of (VStr id) (upsert (VStr id) new rows))
  = Nat.max 1 (length (summaries_of (VStr id) rows)).
Proof.
  intros Hnew. unfold summaries_of.
  induction rows as [| m rows IH]; cbn [upsert List.filter].
  - rewrite (same_transcription_refl id new Hnew). reflexivity.
  - destruct (same_transcription (VStr id) m) eqn:Em; cbn [List.filter].
    + unfold same_transcription in *. cbn [transcription_id]. rewrite Em.
      reflexivity.
    + rewrite Em. exact IH.
Qed.

(** The row [upsert] leaves first for the transcription: the new
    values under the old row's id, or the new row. *)
Lemma upsert_first (id : string) (new : MeetingSummary)
    (rows : list MeetingSummary) :
  transcription_id new = VStr id ->
  exists m,
    head (summaries_of (VStr id) (upsert (VStr id) new rows)) = Some m
    /\ content m = content new
    /\ meeting_type m = meeting_type new
    /\ model_used m = model_used new
    /\ created_at m = created_at new
    /\ summary_id m
       = match head (summaries_of (VStr id) rows) with
         | Some old => summary_id old
         | None => summary_id new
         end.
Proof.
  intros Hnew. unfold summaries_of.
  induction rows as [| m rows IH]; cbn [upsert List.filter].
  - rewrite (same_transcription_refl id new Hnew). cbn [head].
    exists new. repeat split.
  - destruct (same_transcription (VStr id) m) eqn:Em; cbn [List.filter].
    + unfold same_transcription in *. cbn [transcription_id]. rewrite Em.
      cbn [head].
      eexists. split; [reflexivity |]. repeat split.
    + rewrite Em. exact IH.
Qed.

Lemma save_error_state_table (svc : SummarizerService) (k : calls) (id : string) :
  transcriptions (db (save_error_state svc k (VStr id))) = transcriptions (db svc)
  /\ llm (save_error_state svc k (VStr id)) = llm svc
  /\ summaries_of_others (VStr id) (summaries (db (save_error_state svc k (VStr id))))
     = summaries_of_others (VStr id) (summaries (db svc))
  /\ (summaries_of (VStr id) (summaries (db svc)) <> [] ->
      save_error_state svc k (VStr id) = svc)
  /\ (length (summaries_of (VStr id) (summaries (db svc)))
      <= length (summaries_of (VStr id)
                   (summaries (db (save_error_state svc k (VStr id))))))%nat
  /\ (length (summaries_of (VStr id)
                (summaries (db (save_error_state svc k (VStr id)))))
      <= Nat.max 1 (length (summaries_of (VStr id) (summaries (db svc)))))%nat.
Proof.
  unfold save_error_state.
  destruct (existsb (same_transcription (VStr id)) (summaries (db svc))) eqn:Ex.
  - repeat split; lia.
  - apply no_row_no_summaries in Ex.
    destruct (commit_error_state k) as [[] | e].
    + unfold with_db, with_summaries, summaries_of_others, summaries_of in *.
      cbn [db summaries transcriptions llm].
      rewrite !List.filter_app. cbn [List.filter].
      rewrite (same_transcription_refl id) by reflexivity. cbn [negb].
      rewrite Ex, app_nil_r. cbn [app length].
      repeat split; try lia; try congruence.
    + rewrite Ex. simpl. repeat split; lia.
Qed.

Lemma with_llm_table (svc : SummarizerService) (c : LlmClient) :
  db (with_llm svc c) = db svc.
Proof. reflexivity. Qed.

Lemma summarize_table (svc : SummarizerService) (k : calls) (id text : string) :
  let r := summarize svc k (VStr id) text in
  transcriptions (db r.1) = transcriptions (db svc)
  /\ summaries_of_others (VStr id) (summaries (db r.1))
     = summaries_of_others (VStr id) (summaries (db svc))
  /\ (length (summaries_of (VStr id) (summaries (db svc)))
      <= length (summaries_of (VStr id) (summaries (db r.1))))%nat
  /\ (length (summaries_of (VStr id) (summaries (db r.1)))
      <= Nat.max 1 (length (summaries_of (VStr id) (summaries (db svc)))))%nat
  /\ (r.2 = None -> summaries_of (VStr id) (summaries (db svc)) <> [] ->
      summaries (db r.1) = summaries (db svc)).
Proof.
  cbv zeta. unfold summarize.
  destruct (generate (llm svc) (exchange k text)) as [c reply].
  assert (forall svc0,
            db svc0 = db svc ->
            let r := (save_error_state svc0 k (VStr id), @None dict) in
            transcriptions (db r.1) = transcriptions (db svc)
            /\ summaries_of_others (VStr id) (summaries (db r.1))
               = summaries_of_others (VStr id) (summaries (db svc))
            /\ (length (summaries_of (VStr id) (summaries (db svc)))
                <= length (summaries_of (VStr id) (summaries (db r.1))))%nat
            /\ (length (summaries_of (VStr id) (summaries (db r.1)))
                <= Nat.max 1 (length (summaries_of (VStr id) (summaries (db svc)))))%nat
            /\ (r.2 = None -> summaries_of (VStr id) (summaries (db svc)) <> [] ->
                summaries (db r.1) = summaries (db svc))) as Herr.
  { intros svc0 Hdb. cbv zeta. simpl.
    pose proof (save_error_state_table svc0 k id) as (Ht & _ & Ho & Hsame & Hlo & Hhi).
    rewrite Hdb in *.
    repeat split; auto.
    intros _ Hne. rewrite (Hsame Hne). rewrite Hdb. reflexivity. }
  destruct reply as [response_text |]; simpl.
  2: { repeat split; auto; lia. }
  destruct (String.eqb response_text ""); simpl.
  { repeat split; auto; lia. }
  destruct (parse_reply k response_text) as [[summary_content mtype] | e].
  2: { apply Herr. reflexivity. }
  destruct (commit k) as [[] | e].
  2: { apply Herr. reflexivity. }
  simpl. split; [reflexivity |].
  split; [apply upsert_others; reflexivity |].
  rewrite upsert_same by reflexivity.
  repeat split; try lia. discriminate.
Qed.

(** X7: [generate_summary] for a transcription leaves every other
    transcription's summaries and all transcriptions as they were,
    never deletes a summary of its own transcription and never adds
    a second one; and a call that returns no summary leaves the table
    unchanged when the transcription already had one. *)
Theorem generate_summary_keeps_one_row_per_transcription
    (svc : SummarizerService) (k : calls) (tid text : value) (id : string) :
  resolve_id tid = VStr id ->
  let r := generate_summary svc k tid text in
  let before := summaries (db svc) in
  let after := summaries (db r.1) in
  transcriptions (db r.1) = transcriptions (db svc)
  /\ summaries_of_others (VStr id) after = summaries_of_others (VStr id) before
  /\ (length (summaries_of (VStr id) before)
      <= length (summaries_of (VStr id) after))%nat
  /\ (length (summaries_of (VStr id) after)
      <= Nat.max 1 (length (summaries_of (VStr id) before)))%nat
  /\ ((forall d, r.2 <> Returns (Some d)) ->
      summaries_of (VStr id) before <> [] -> after = before).
Proof.
  intros Hid. cbv zeta. unfold generate_summary. rewrite Hid.
  assert (forall o : outcome (option dict),
            let r := (svc, o) in
            transcriptions (db r.1) = transcriptions (db svc)
            /\ summaries_of_others (VStr id) (summaries (db r.1))
               = summaries_of_others (VStr id) (summaries (db svc))
            /\ (length (summaries_of (VStr id) (summaries (db svc)))
                <= length (summaries_of (VStr id) (summaries (db r.1))))%nat
            /\ (length (summaries_of (VStr id) (summaries (db r.1)))
                <= Nat.max 1 (length (summaries_of (VStr id) (summaries (db svc)))))%nat
            /\ ((forall d, r.2 <> Returns (Some d)) ->
                summaries_of (VStr id) (summaries (db svc)) <> [] ->
                summaries (db r.1) = summaries (db svc))) as Hsame.
  { intros o. cbv zeta. simpl. repeat split; auto; lia. }
  destruct (negb (truthy (VStr id))); [apply Hsame |].
  destruct (text_to_summarize (db svc) (VStr id) text) as [t |]; [| apply Hsame].
  destruct (negb (truthy t)); [apply Hsame |].
  destruct t; simpl; try apply Hsame.
  destruct (length (split s) <? 20)%nat; [apply Hsame |].
  pose proof (summarize_table svc k id s) as (Ht & Ho & Hlo & Hhi & Hnone).
  destruct (summarize svc k (VStr id) s) as [svc' r]. simpl in *.
  repeat split; auto.
  intros Hr Hne. apply Hnone; [| exact Hne].
  destruct r as [d |]; [| reflexivity]. exfalso. exact (Hr d eq_refl).
Qed.

Lemma generate_summary_keeps_one_row_per_transcription_witness :
  let svc := {| db := {| transcriptions := ∅;
                         summaries :=
                           [{| summary_id := "s-1"; transcription_id := VStr "tx-1";
                               content := VStr "old"; model_used := "llama3";
                               meeting_type := VStr "Standup"; created_at := 5 |};
                            {| summary_id := "s-2"; transcription_id := VStr "tx-2";
                               content := VStr "other"; model_used := "llama3";
                               meeting_type := VStr "Standup"; created_at := 6 |}] |};
                llm := fresh |} in
  let r := generate_summary svc Sample.echo (VStr "tx-1") (VStr Sample.thirty_words) in
  summaries_of_others (VStr "tx-1") (summaries (db r.1))
  = summaries_of_others (VStr "tx-1") (summaries (db svc))
  /\ (length (summaries_of (VStr "tx-1") (summaries (db r.1)))
      <= Nat.max 1 (length (summaries_of (VStr "tx-1") (summaries (db svc)))))%nat.
Proof.
  cbv zeta.
  destruct (generate_summary_keeps_one_row_per_transcription
              {| db := {| transcriptions := ∅;
                          summaries :=
                            [{| summary_id := "s-1"; transcription_id := VStr "tx-1";
                                content := VStr "old"; model_used := "llama3";
                                meeting_type := VStr "Standup"; created_at := 5 |};
                             {| summary_id := "s-2"; transcription_id := VStr "tx-2";
                                content := VStr "other"; model_used := "llama3";
                                meeting_type := VStr "Standup"; created_at := 6 |}] |};
                 llm := fresh |}
              Sample.echo (VStr "tx-1") (VStr Sample.thirty_words) "tx-1" eq_refl)
    as (_ & Ho & _ & Hhi & _).
  exact (conj Ho Hhi).
Defined.

(** X8: the summary a call returns is the one it stored: after a call
    that returns a dict, the first row of the transcription holds the
    returned content and meeting type, the configured model and the
    time of the call; a row that existed keeps its id. *)
Theorem returned_summary_is_the_stored_one
    (svc svc' : SummarizerService) (k : calls) (tid text : value)
    (id : string) (d : dict) :
  resolve_id tid = VStr id ->
  generate_summary svc k tid text = (svc', Returns (Some d)) ->
  get d "status" = VStr "success"
  /\ exists m,
       head (summaries_of (VStr id) (summaries (db svc'))) = Some m
       /\ content m = get d "content"
       /\ meeting_type m = get d "type"
       /\ model_used m = LLM_MODEL k
       /\ created_at m = utcnow k
       /\ summary_id m
          = match head (summaries_of (VStr id) (summaries (db svc))) with
            | Some old => summary_id old
            | None => uuid4 k
            end.
Proof.
  intros Hid. unfold generate_summary. rewrite Hid.
  destruct (negb (truthy (VStr id))); [discriminate |].
  destruct (text_to_summarize (db svc) (VStr id) text) as [t |]; [| discriminate].
  destruct (negb (truthy t)); [discriminate |].
  destruct t; simpl; try discriminate.
  destruct (length (split s) <? 20)%nat; [discriminate |].
  unfold summarize.
  destruct (generate (llm svc) (exchange k s)) as [c reply].
  destruct reply as [response_text |]; [| discriminate].
  destruct (String.eqb response_text ""); [discriminate |].
  destruct (parse_reply k response_text) as [[summary_content mtype] | e];
    [| discriminate].
  destruct (commit k) as [[] | e]; [| discriminate].
  intros H. injection H as <- <-.
  split; [unfold get; by simplify_map_eq |].
  simpl.
  destruct (upsert_first id
              {| summary_id := uuid4 k; transcription_id := VStr id;
                 content := summary_content; model_used := LLM_MODEL k;
                 meeting_type := mtype; created_at := utcnow k |}
              (summaries (db svc)) eq_refl) as (m & Hm & Hc & Hty & Hmod & Hat & Hsid).
  exists m. simpl in *.
  split; [exact Hm |].
  split; [rewrite Hc; unfold get; by simplify_map_eq |].
  split; [rewrite Hty; unfold get; by simplify_map_eq |].
  auto.
Qed.

Lemma returned_summary_is_the_stored_one_witness :
  get {[ "status" := VStr "success"; "type" := VStr "Unknown";
         "content" := VStr Sample.thirty_words ]} "status" = VStr "success".
Proof.
  assert (generate_summary
            {| db := {| transcriptions := ∅; summaries := [] |}; llm := fresh |}
            Sample.echo (VStr "tx-1") (VStr Sample.thirty_words)
          = ((generate_summary
                {| db := {| transcriptions := ∅; summaries := [] |}; llm := fresh |}
                Sample.echo (VStr "tx-1") (VStr Sample.thirty_words)).1,
             Returns (Some {[ "status" := VStr "success"; "type" := VStr "Unknown";
                              "content" := VStr Sample.thirty_words ]})))
    as H by (vm_compute; reflexivity).
  exact (proj1 (returned_summary_is_the_stored_one _ _ Sample.echo
                  (VStr "tx-1") (VStr Sample.thirty_words) "tx-1" _ eq_refl H)).
Defined.

(** X9: while the circuit is open a summary request changes nothing
    and sends nothing: the service, with its database and its client,
    is returned as it was, and no summary comes back. *)
Theorem open_circuit_yields_no_summary
    (svc : SummarizerService) (k : calls) (tid text : value) :
  circuit_open (llm svc) = true ->
  (generate_summary svc k tid text).1 = svc
  /\ forall d, (generate_summary svc k tid text).2 <> Returns (Some d).
Proof.
  intros Hopen. unfold generate_summary.
  destruct (negb (truthy (resolve_id tid))); [split; [reflexivity | discriminate] |].
  destruct (text_to_summarize (db svc) (resolve_id tid) text) as [t |];
    [| split; [reflexivity | discriminate]].
  destruct (negb (truthy t)); [split; [reflexivity | discriminate] |].
  destruct t; simpl; try (split; [reflexivity | discriminate]).
  destruct (length (split s) <? 20)%nat; [split; [reflexivity | discriminate] |].
  unfold summarize. rewrite (generate_when_open _ _ Hopen).
  simpl. destruct svc; split; [reflexivity | discriminate].
Qed.

Lemma open_circuit_yields_no_summary_witness :
  let svc := {| db := {| transcriptions := ∅; summaries := [] |};
                llm := run fresh (map Generate
                         [RequestError "connection refused";
                          RequestError "connection refused"]) |} in
  (generate_summary svc Sample.echo (VStr "tx-1") (VStr Sample.thirty_words)).1 = svc.
Proof.
  cbv zeta.
  apply (proj1 (open_circuit_yields_no_summary
           {| db := {| transcriptions := ∅; summaries := [] |};
              llm := run fresh (map Generate
                       [RequestError "connection refused";
                        RequestError "connection refused"]) |}
           Sample.echo (VStr "tx-1") (VStr Sample.thirty_words) eq_refl)).
Defined.

(** X10: the correction picked as the text to summarize is the newest
    one, and among corrections of the same date the first listed:
    everything before it is strictly older, nothing after it is
    newer.  None is picked only when there is no correction. *)
Theorem latest_is_first_newest (cts : list CorrectedTranscript) :
  match latest cts with
  | None => cts = []
  | Some x =>
      exists pre post,
        cts = (pre ++ x :: post)%list
        /\ Forall (fun y => (corrected_at y < corrected_at x)%Z) pre
        /\ Forall (fun y => (corrected_at y <= corrected_at x)%Z) post
  end.
Proof.
  induction cts as [| c cts IH]; simpl; [reflexivity |].
  destruct (latest cts) as [y |].
  - destruct IH as (pre & post & -> & Hpre & Hpost).
    destruct (corrected_at c <? corrected_at y)%Z eqn:E.
    + apply Z.ltb_lt in E.
      exists (c :: pre), post. split; [reflexivity |].
      split; [constructor; assumption | exact Hpost].
    + apply Z.ltb_ge in E.
      exists [], (pre ++ y :: post)%list. split; [reflexivity |].
      split; [constructor |].
      apply Forall_app. split.
      * eapply Forall_impl; [exact Hpre |]. simpl. intros; lia.
      * constructor; [exact E |].
        eapply Forall_impl; [exact Hpost |]. simpl. intros; lia.
  - subst cts. exists [], []. repeat constructor.
Qed.

End SummaryTable.

(* ----------------------------------------------------------------- *)
(** ** More on the task chain *)
(* ----------------------------------------------------------------- *)

Section ChainFacts.
Import EventBus Summarizer Pipeline Frames.

Lemma keeps_ret {A : Type} (a : A) : keeps_queue (ret a).
Proof. intros w. split; reflexivity. Qed.

Lemma keeps_raise {A : Type} (e : exn) : keeps_queue (@raise A e).
Proof. intros w. split; reflexivity. Qed.

Lemma keeps_lift {A : Type} (o : outcome A) : keeps_queue (lift o).
Proof. intros w. split; reflexivity. Qed.

Lemma keeps_publish (chan ty : string) (pl : dict) :
  keeps_queue (publish chan ty pl).
Proof. intros w. split; reflexivity. Qed.

Lemma keeps_on_store {A : Type} (f : Session -> Session * outcome A) :
  keeps_queue (on_store f).
Proof. intros w. unfold on_store. destruct (f (store w)). split; reflexivity. Qed.

Lemma keeps_bind {A B : Type} (m : task A) (f : A -> task B) :
  keeps_queue m -> (forall a, keeps_queue (f a)) -> keeps_queue (bind m f).
Proof.
  intros Hm Hf w. unfold bind. specialize (Hm w).
  destruct (m w) as [w' [a | e]]; simpl in *; [| exact Hm].
  destruct (Hf a w') as [Hq Hr]. destruct Hm as [Hq' Hr'].
  split; congruence.
Qed.

Lemma keeps_try_except {A : Type} (body : task A) (handler : exn -> task A) :
  keeps_queue body -> (forall e, keeps_queue (handler e)) ->
  keeps_queue (try_except body handler).
Proof.
  intros Hm Hf w. unfold try_except. specialize (Hm w).
  destruct (body w) as [w' [a | e]]; simpl in *; [exact Hm |].
  destruct (is_exception e); [| exact Hm].
  destruct (Hf e w') as [Hq Hr]. destruct Hm as [Hq' Hr'].
  split; congruence.
Qed.

Ltac frame :=
  repeat first
    [ apply keeps_ret | apply keeps_raise | apply keeps_lift
    | apply keeps_publish | apply keeps_on_store
    | apply keeps_bind; [| intros ?]
    | apply keeps_try_except; [| intros ?]
    | progress cbv zeta
    | match goal with
      | |- keeps_queue (if ?b then _ else _) => destruct b
      | |- keeps_queue (match ?t with _ => _ end) => destruct t
      end ].

Lemma context_pass_keeps_queue (x : collaborators) (self : request)
    (backend : string) : keeps_queue (context_pass x self backend).
Proof. unfold context_pass. frame. Qed.

Lemma parallel_pass_keeps_queue (x : collaborators) (self : request)
    (model_size : string) (context_keywords : value) :
  keeps_queue (parallel_pass x self model_size context_keywords).
Proof. unfold parallel_pass. frame. Qed.

(** Saving and chaining: the next stage is in the queue exactly when
    this step returns. *)
Lemma persist_and_chain_hands_on (x : collaborators) (self : request)
    (audio_path : string) (result : value) :
  hands_on (persist_and_chain x self audio_path result).
Proof.
  intros w. unfold persist_and_chain, bind, on_store.
  destruct (save_transcription x (store w) result audio_path) as [s [item_id | e]];
    simpl; [| auto].
  destruct result; simpl; auto.
  split; [| auto].
  eexists _, item_id. split; [reflexivity |]. apply lookup_insert_eq.
Qed.

Lemma hands_on_bind {A : Type} (m : task A) (f : A -> task value) :
  keeps_queue m -> (forall a, hands_on (f a)) -> hands_on (bind m f).
Proof.
  intros Hm Hf w. unfold bind. destruct (Hm w) as [Hq Hr].
  destruct (m w) as [w' [a | e]]; simpl in *; [| auto].
  specialize (Hf a w'). rewrite <- Hq, <- Hr. exact Hf.
Qed.

(** X11: the transcription task hands its result to auto-correction
    exactly when it returns, and then the result is a payload that
    carries the id of the saved row; an attempt that raises hands on
    nothing, and asks for a retry (after [2 ** retries] seconds) when
    what it raised is an [Exception] and retries are left. *)
Theorem transcription_chains_exactly_when_it_returns
    (x : collaborators) (self : request)
    (audio_path language backend model_size : string) (w : World) :
  let r := transcribe_audio_task x self audio_path language backend model_size w in
  match r.2 with
  | Returns v =>
      (exists payload item_id,
         v = VDict payload /\ payload !! "id" = Some (VStr item_id))
      /\ queue r.1 = (queue w ++ [("app.tasks.run_auto_correct_task", [v])])%list
      /\ retried r.1 = retried w
  | Raises e =>
      queue r.1 = queue w
      /\ retried r.1 = (retried w ++ retry_asked self e)%list
      /\ (is_exception e = true ->
          exists ev, last (published r.1) = Some ev
                     /\ event_type ev = "task_failed"
                     /\ channel ev = "app:task_" ++ id self
                     /\ get (Reading.payload_dict ev) "error" = VStr (message e))
  end.
Proof.
  cbv zeta.
  pose (w0 := (publish (task_channel x (VStr (id self))) "task_progress"
                 (progress self "preprocessing" "Preparing audio...") w).1).
  pose (body :=
          bind (lift (get_transcriber x backend model_size)) (fun _ =>
          bind (context_pass x self backend) (fun context_keywords =>
          bind (parallel_pass x self model_size context_keywords) (fun joined =>
          bind (lift (merge_speakers x joined.1 joined.2)) (fun result =>
          persist_and_chain x self audio_path result))))).
  assert (transcribe_audio_task x self audio_path language backend model_size w
          = try_except body (fail_and_retry x self) w0) as -> by reflexivity.
  assert (queue w0 = queue w /\ retried w0 = retried w) as [Hq0 Hr0]
    by (split; reflexivity).
  rewrite <- Hq0, <- Hr0. clearbody w0. clear Hq0 Hr0.
  assert (hands_on body) as Hbody.
  { subst body.
    apply hands_on_bind; [apply keeps_lift | intros _].
    apply hands_on_bind; [apply context_pass_keeps_queue | intros ck].
    apply hands_on_bind; [apply parallel_pass_keeps_queue | intros joined].
    apply hands_on_bind; [apply keeps_lift | intros result].
    apply persist_and_chain_hands_on. }
  unfold try_except.
  specialize (Hbody w0). clearbody body.
  destruct (body w0) as [w' [v | e]]; simpl in *.
  - exact Hbody.
  - destruct Hbody as [Hq Hr]. unfold retry_asked.
    destruct (is_exception e) eqn:Ee; simpl.
    + unfold fail_and_retry, bind, publish. simpl. rewrite Ee.
      destruct (retries self <? max_retries_transcribe)%nat; simpl.
      * split; [exact Hq |]. split; [rewrite Hr; reflexivity |].
        intros _. eexists. split; [apply last_snoc |]. simpl.
        split; [reflexivity |]. split; [reflexivity |].
        unfold get. by simplify_map_eq.
      * split; [exact Hq |]. split; [rewrite Hr, app_nil_r; reflexivity |].
        intros _. eexists. split; [apply last_snoc |]. simpl.
        split; [reflexivity |]. split; [reflexivity |].
        unfold get. by simplify_map_eq.
    + rewrite Ee. simpl. rewrite app_nil_r.
      split; [exact Hq |]. split; [exact Hr |]. discriminate.
Qed.

Lemma transcription_chains_exactly_when_it_returns_witness :
  let self := {| id := "task-1"; retries := 1 |} in
  let r := transcribe_audio_task
             (Sample.collaborators_with (Raises (error "CUDA out of memory"))
                Sample.no_token (Returns "tx-1"))
             self "temp/a.wav" "en" "faster-whisper" "large-v3" Sample.idle in
  match r.2 with
  | Returns v =>
      (exists payload item_id,
         v = VDict payload /\ payload !! "id" = Some (VStr item_id))
      /\ queue r.1
         = (queue Sample.idle ++ [("app.tasks.run_auto_correct_task", [v])])%list
      /\ retried r.1 = retried Sample.idle
  | Raises e =>
      queue r.1 = queue Sample.idle
      /\ retried r.1 = (retried Sample.idle ++ retry_asked self e)%list
      /\ (is_exception e = true ->
          exists ev, last (published r.1) = Some ev
                     /\ event_type ev = "task_failed"
                     /\ channel ev = "app:task_" ++ id self
                     /\ get (Reading.payload_dict ev) "error" = VStr (message e))
  end.
Proof.
  exact (transcription_chains_exactly_when_it_returns
           (Sample.collaborators_with (Raises (error "CUDA out of memory"))
              Sample.no_token (Returns "tx-1"))
           {| id := "task-1"; retries := 1 |}
           "temp/a.wav" "en" "faster-whisper" "large-v3" Sample.idle).
Defined.

Lemma robust_input_usable (d : dict) (i : string) :
  d !! "id" = Some (VStr i) -> robust_input (VDict d) = (VStr i, VDict d).
Proof. unfold robust_input, get. intros ->. reflexivity. Qed.

(** X12: auto-correction hands on a payload of five keys: the id,
    the corrected text, and the text, root task id and segments of
    what it was given (everything else is dropped).  The feedback
    loop is started only for a correction that is not empty.  When
    the correction raises, nothing is handed on. *)
Theorem auto_correct_hands_on_five_keys
    (x : collaborators) (d : dict) (i : string) (w : World) :
  d !! "id" = Some (VStr i) -> i <> "" ->
  (truthy (get d "context_keywords") = true ->
   sliceable (get d "context_keywords") = Returns tt) ->
  let r := run_auto_correct_task x (VDict d) w in
  match auto_correct x (store w) (VStr i) (get d "context_keywords") with
  | (s', Returns corrected_text) =>
      r.2 = Returns VNone
      /\ store r.1 = s' /\ published r.1 = published w
      /\ queue r.1
         = (queue w
            ++ (if truthy corrected_text
                then [("app.tasks.run_feedback_loop_task",
                       [VStr i; corrected_text])]
                else [])
            ++ [("app.tasks.run_speaker_ident_task",
                 [VDict {[ "id" := VStr i;
                           "corrected_text" := corrected_text;
                           "text" := get d "text";
                           "root_task_id" := get d "root_task_id";
                           "segments" := get_or d "segments" (VList []) ]}])])%list
  | (s', Raises e) =>
      r.2 = Raises e /\ queue r.1 = queue w /\ published r.1 = published w
  end.
Proof.
  intros Hid Hne Hslice.
  assert (String.eqb i "" = false) as Hi by (apply String.eqb_neq; exact Hne).
  cbv zeta.
  set (ck := get d "context_keywords") in *.
  assert (run_auto_correct_task x (VDict d) w
          = match auto_correct x (store w) (VStr i) ck with
            | (s', Returns c) =>
                ({| store := s'; health := health w; published := published w;
                    queue :=
                      ((queue w
                        ++ (if truthy c
                            then [("app.tasks.run_feedback_loop_task", [VStr i; c])]
                            else []))
                       ++ [("app.tasks.run_speaker_ident_task",
                            [VDict {[ "id" := VStr i; "corrected_text" := c;
                                      "text" := get d "text";
                                      "root_task_id" := get d "root_task_id";
                                      "segments" := get_or d "segments" (VList []) ]}])])%list;
                    retried := retried w |}, Returns VNone)
            | (s', Raises e) =>
                ({| store := s'; health := health w; published := published w;
                    queue := queue w; retried := retried w |}, Raises e)
            end) as Hrun.
  { unfold run_auto_correct_task.
    rewrite (robust_input_usable d i Hid). cbv beta iota.
    change (truthy (VStr i)) with (negb (String.eqb i "")). rewrite Hi.
    cbn [negb]. cbv beta iota zeta. fold ck.
    assert ((if truthy ck then lift (sliceable ck) else ret tt) = ret tt) as ->.
    { destruct (truthy ck); [| reflexivity]. rewrite Hslice; reflexivity. }
    unfold bind at 1 2. unfold ret at 1. unfold bind at 1 2. unfold on_store.
    destruct (auto_correct x (store w) (VStr i) ck) as [s' [c | e]];
      cbv beta iota; [| reflexivity].
    assert (forall d1 : dict,
              (d1 = d \/ d1 = <["auto_correct_status" := VStr "complete"]> d) ->
              ({[ "id" := VStr i;
                  "corrected_text" := get (<["corrected_text" := c]> d1) "corrected_text";
                  "text" := get (<["corrected_text" := c]> d1) "text";
                  "root_task_id" := get d1 "root_task_id";
                  "segments" := get_or (<["corrected_text" := c]> d1) "segments" (VList []) ]}
               : dict)
              = {[ "id" := VStr i; "corrected_text" := c;
                   "text" := get d "text";
                   "root_task_id" := get d "root_task_id";
                   "segments" := get_or d "segments" (VList []) ]}) as Hpay.
    { intros d1 Hd1. unfold get, get_or.
      rewrite lookup_insert_eq. rewrite !lookup_insert_ne by discriminate.
      destruct Hd1 as [-> | ->]; [reflexivity |].
      rewrite !lookup_insert_ne by discriminate. reflexivity. }
    destruct (truthy c); unfold bind, delay, ret; cbv beta iota;
      cbn [fst snd queue store published health retried].
    - rewrite Hpay by (right; reflexivity). reflexivity.
    - rewrite Hpay by (left; reflexivity). rewrite app_nil_r. reflexivity. }
  rewrite Hrun.
  destruct (auto_correct x (store w) (VStr i) ck) as [s' [c | e]];
    cbn [fst snd queue store published health retried]; [| auto].
  rewrite <- app_assoc. auto.
Qed.

Lemma auto_correct_hands_on_five_keys_witness :
  let x := Sample.collaborators_with Sample.no_token Sample.no_token
             (Returns "tx-1") in
  let d : dict := {[ "id" := VStr "tx-1"; "text" := VStr "hello there";
                     "language" := VStr "en"; "duration" := VInt 12 ]} in
  (run_auto_correct_task x (VDict d) Sample.idle).2 = Returns VNone
  /\ queue (run_auto_correct_task x (VDict d) Sample.idle).1
     = [("app.tasks.run_speaker_ident_task",
         [VDict {[ "id" := VStr "tx-1";
                   "corrected_text" := VStr "";
                   "text" := get d "text";
                   "root_task_id" := get d "root_task_id";
                   "segments" := get_or d "segments" (VList []) ]}])].
Proof.
  cbv zeta.
  pose proof (auto_correct_hands_on_five_keys
                (Sample.collaborators_with Sample.no_token Sample.no_token
                   (Returns "tx-1"))
                {[ "id" := VStr "tx-1"; "text" := VStr "hello there";
                   "language" := VStr "en"; "duration" := VInt 12 ]}
                "tx-1" Sample.idle eq_refl
                ltac:(discriminate)
                ltac:(intros H; vm_compute in H; discriminate H)) as H.
  cbv zeta in H. simpl auto_correct in H.
  destruct H as (H1 & _ & _ & H4). exact (conj H1 H4).
Defined.

Lemma named_labels_error (segments : list value) (e : exn) :
  named_labels segments = Raises e -> is_exception e = true.
Proof.
  revert e. induction segments as [| v rest IH]; intros e; simpl; [discriminate |].
  destruct v; try (intros H; injection H as <-; reflexivity).
  destruct (truthy (get d "speaker")); [| apply IH].
  destruct (get d "speaker"); simpl;
    destruct (named_labels rest) as [ks | e'];
    intros H; try discriminate H;
    try (injection H as <-; first [reflexivity | apply IH; reflexivity]).
Qed.

Lemma name_segments_error (names : dict) (segments : list value) (e : exn) :
  (name_segments names segments).2 = Raises e -> is_exception e = true.
Proof.
  revert e. induction segments as [| v rest IH]; intros e; simpl; [discriminate |].
  destruct v; simpl; try (intros H; injection H as <-; reflexivity).
  destruct (get_or d "speaker" (VStr "Unknown")); simpl;
    try (intros H; injection H as <-; reflexivity);
    destruct (name_segments names rest) as [rest' r]; simpl in *; apply IH.
Qed.

(** Naming the speakers, whatever happens in it, gives back the
    payload with at most its segments changed, and hands nothing to
    the broker. *)
Lemma identify_speakers_spec (x : collaborators)
    (transcription_id channel_id : value) (d : dict) (w : World) :
  (forall t n, fails_with_exception
                 (extract_speaker_names_from_transcript x t n)) ->
  (forall s t names, fails_with_exception (update_speaker_names x s t names).2) ->
  exists w' d',
    identify_speakers x transcription_id channel_id d w = (w', Returns d')
    /\ queue w' = queue w /\ retried w' = retried w
    /\ (forall k, k <> "segments" -> d' !! k = d !! k).
Proof.
  intros Hnames Hupdate. unfold identify_speakers.
  destruct (get_or d "segments" (VList [])) as [| | | | | segments |];
    try (exists w, d; unfold ret; auto; fail).
  unfold unless_failed at 1.
  destruct (named_labels segments) as [labels | e] eqn:El.
  2:{ rewrite (named_labels_error _ _ El). exists w, d. unfold ret. auto. }
  destruct ((1 <? length (remove_dups labels))%nat && truthy _);
    [| exists w, d; unfold ret; auto].
  unfold unless_failed at 1.
  destruct (extract_speaker_names_from_transcript x _ _) as [m | e] eqn:Em.
  2:{ rewrite (Hnames _ _ e Em). exists w, d. unfold ret. auto. }
  destruct (truthy m); [| exists w, d; unfold ret; auto].
  destruct m as [| | | | | | names]; try (exists w, d; unfold ret; auto; fail).
  pose proof (name_segments_error names segments) as Hseg.
  destruct (name_segments names segments) as [segments' r]. simpl in Hseg.
  assert (forall k, k <> "segments" ->
            (<["segments" := VList segments']> d) !! k = d !! k) as Hkeys.
  { intros k Hk. apply lookup_insert_ne. congruence. }
  unfold unless_failed.
  destruct r as [[] | e].
  2:{ rewrite (Hseg e eq_refl). eexists _, _. unfold ret. eauto. }
  unfold on_store.
  pose proof (Hupdate (store w) transcription_id names) as Hup.
  destruct (update_speaker_names x (store w) transcription_id names) as [s [[] | e]];
    simpl in *.
  - unfold bind, publish, ret. simpl. eexists _, _. eauto.
  - rewrite (Hup e eq_refl). eexists _, _. eauto.
Qed.

(** X13: speaker identification never holds up the chain: as long as
    what fails in it fails with an [Exception], the task returns its
    payload with at most the segments changed and hands exactly that
    payload to the summary task. *)
Theorem speaker_ident_always_hands_on
    (x : collaborators) (d : dict) (i : string) (w : World) :
  d !! "id" = Some (VStr i) -> i <> "" ->
  (forall t n, fails_with_exception
                 (extract_speaker_names_from_transcript x t n)) ->
  (forall s t names, fails_with_exception (update_speaker_names x s t names).2) ->
  exists w' d',
    run_speaker_ident_task x (VDict d) w = (w', Returns (VDict d'))
    /\ queue w'
       = (queue w ++ [("app.tasks.generate_summary_task", [VDict d'])])%list
    /\ retried w' = retried w
    /\ (forall k, k <> "segments" -> d' !! k = d !! k).
Proof.
  intros Hid Hne Hnames Hupdate.
  assert (String.eqb i "" = false) as Hi by (apply String.eqb_neq; exact Hne).
  unfold run_speaker_ident_task, robust_input.
  unfold get at 1 2. rewrite Hid. simpl. rewrite Hi. simpl.
  unfold bind at 1. unfold publish at 1.
  unfold bind at 1.
  match goal with
  | |- context [identify_speakers ?a ?b ?c ?d0 ?w0] =>
      destruct (identify_speakers_spec a b c d0 w0 Hnames Hupdate)
        as (w1 & d1 & -> & Hq & Hr & Hkeys)
  end.
  simpl in Hq, Hr.
  unfold bind, delay, ret. simpl.
  eexists _, _. split; [reflexivity |]. simpl.
  rewrite Hq, Hr. auto.
Qed.

Lemma speaker_ident_always_hands_on_witness :
  exists w' d',
    run_speaker_ident_task
      (Sample.collaborators_with Sample.no_token Sample.no_token (Returns "tx-1"))
      (VDict {[ "id" := VStr "tx-1"; "text" := VStr "hello there" ]}) Sample.idle
    = (w', Returns (VDict d'))
    /\ queue w'
       = (queue Sample.idle
          ++ [("app.tasks.generate_summary_task", [VDict d'])])%list
    /\ retried w' = retried Sample.idle
    /\ (forall k, k <> "segments" ->
          d' !! k
          = ({[ "id" := VStr "tx-1"; "text" := VStr "hello there" ]} : dict) !! k).
Proof.
  apply (speaker_ident_always_hands_on
           (Sample.collaborators_with Sample.no_token Sample.no_token
              (Returns "tx-1"))
           ({[ "id" := VStr "tx-1"; "text" := VStr "hello there" ]} : dict)
           "tx-1" Sample.idle).
  - vm_compute. reflexivity.
  - discriminate.
  - intros t n e' He'. discriminate He'.
  - intros s t names e' He'. discriminate He'.
Defined.

(** X14: with fewer than two distinct speaker labels in the segments,
    or with no text, the speaker model is not consulted and the
    database is not touched: the payload goes on to the summary task
    as it came, after the one progress event. *)
Theorem single_speaker_skips_naming
    (x : collaborators) (d : dict) (i : string) (w : World)
    (segments : list value) (labels : list string) :
  d !! "id" = Some (VStr i) -> i <> "" ->
  get_or d "segments" (VList []) = VList segments ->
  named_labels segments = Returns labels ->
  (length (remove_dups labels) <= 1)%nat
  \/ truthy (or_else (get d "corrected_text") (get_or d "text" (VStr ""))) = false ->
  let channel_id :=
    if truthy (get d "root_task_id") then get d "root_task_id" else VStr i in
  run_speaker_ident_task x (VDict d) w
  = ({| store := store w; health := health w;
        published :=
          (published w
           ++ [Event (task_channel x channel_id) "task_progress"
                 (VDict {[ "task_id" := channel_id; "id" := VStr i;
                           "stage" := VStr "identifying_speakers";
                           "message" := VStr "Analyzing Conversation Details..." ]})])%list;
        queue := (queue w ++ [("app.tasks.generate_summary_task", [VDict d])])%list;
        retried := retried w |},
     Returns (VDict d)).
Proof.
  intros Hid Hne Hsegs Hlabels Hfew.
  assert (String.eqb i "" = false) as Hi by (apply String.eqb_neq; exact Hne).
  cbv zeta. unfold run_speaker_ident_task.
  rewrite (robust_input_usable d i Hid). cbv beta iota.
  change (truthy (VStr i)) with (negb (String.eqb i "")). rewrite Hi.
  cbn [negb]. cbv beta iota zeta.
  unfold identify_speakers. rewrite Hsegs. unfold unless_failed at 1.
  rewrite Hlabels.
  assert ((1 <? length (remove_dups labels))%nat
          && truthy (or_else (get d "corrected_text") (get_or d "text" (VStr "")))
          = false) as ->.
  { destruct Hfew as [Hfew | ->]; [| apply andb_false_r].
    apply andb_false_iff. left. apply Nat.ltb_ge. exact Hfew. }
  reflexivity.
Qed.

Lemma single_speaker_skips_naming_witness :
  (run_speaker_ident_task
     (Sample.collaborators_with Sample.no_token Sample.no_token (Returns "tx-1"))
     (VDict {[ "id" := VStr "tx-1"; "text" := VStr "hello there";
               "segments" := VList [VDict {[ "speaker" := VStr "SPEAKER_00" ]};
                                    VDict {[ "speaker" := VStr "SPEAKER_00" ]}] ]})
     Sample.idle).2
  = Returns
      (VDict {[ "id" := VStr "tx-1"; "text" := VStr "hello there";
                "segments" := VList [VDict {[ "speaker" := VStr "SPEAKER_00" ]};
                                     VDict {[ "speaker" := VStr "SPEAKER_00" ]}] ]}).
Proof.
  rewrite (single_speaker_skips_naming
             (Sample.collaborators_with Sample.no_token Sample.no_token
                (Returns "tx-1"))
             ({[ "id" := VStr "tx-1"; "text" := VStr "hello there";
                 "segments" := VList [VDict {[ "speaker" := VStr "SPEAKER_00" ]};
                                      VDict {[ "speaker" := VStr "SPEAKER_00" ]}] ]}
              : dict)
             "tx-1" Sample.idle
             [VDict {[ "speaker" := VStr "SPEAKER_00" ]};
              VDict {[ "speaker" := VStr "SPEAKER_00" ]}]
             ["sSPEAKER_00"; "sSPEAKER_00"]).
  - reflexivity.
  - vm_compute. reflexivity.
  - discriminate.
  - vm_compute. reflexivity.
  - vm_compute. reflexivity.
  - left. vm_compute. lia.
Defined.

(** X15: the summary task ends the chain: it hands nothing to the
    broker and asks for no retry, whatever it is given.  Given a
    payload with a usable id it never fails with an [Exception]; what
    it returns is the payload with [summary_status] set to
    ["complete"] or ["failed"], and nothing else changed but
    [meeting_type]. *)
Theorem summary_task_ends_the_chain
    (x : collaborators) (self : request) (result : value) (w : World) :
  let r := generate_summary_task x self result w in
  queue r.1 = queue w /\ retried r.1 = retried w
  /\ forall d i,
       result = VDict d -> d !! "id" = Some (VStr i) -> i <> "" ->
       match r.2 with
       | Returns v =>
           exists d', v = VDict d'
             /\ (get d' "summary_status" = VStr "complete"
                 \/ get d' "summary_status" = VStr "failed")
             /\ (forall k, k <> "summary_status" -> k <> "meeting_type" ->
                   d' !! k = d !! k)
       | Raises e => is_exception e = false
       end.
Proof.
  cbv zeta.
  assert (forall tid text w0,
            queue (call_summarizer x tid text w0).1 = queue w0
            /\ retried (call_summarizer x tid text w0).1 = retried w0) as Hcall.
  { intros tid text w0. unfold call_summarizer.
    destruct (generate_summary _ _ _ _). split; reflexivity. }
  assert (forall d tid chan (w0 : World),
            let m := fun w1 : World =>
              match call_summarizer x tid (transcript_text d) w1 with
              | (w', Raises e) =>
                  if is_exception e
                  then summary_failed x self tid chan d e w'
                  else (w', Raises e)
              | (w', Returns None) =>
                  (w', Returns (VDict (<["summary_status" := VStr "failed"]> d)))
              | (w', Returns (Some summary_result)) =>
                  match parse_summary x (get summary_result "content") with
                  | Returns parsed =>
                      (publish (task_channel x chan) "summary_complete"
                         {[ "task_id" := VStr (id self); "id" := tid;
                            "summary" := get parsed "summary";
                            "meeting_type" := get parsed "meeting_type";
                            "message" := VStr "Summary complete" ]} ;;;
                       ret (VDict (<["meeting_type" :=
                                      get_or summary_result "type" (VStr "Unknown")]>
                                     (<["summary_status" := VStr "complete"]> d)))) w'
                  | Raises e =>
                      if is_exception e
                      then summary_failed x self tid chan
                             (<["meeting_type" :=
                                 get_or summary_result "type" (VStr "Unknown")]>
                                (<["summary_status" := VStr "complete"]> d)) e w'
                      else (w', Raises e)
                  end
              end in
            queue (m w0).1 = queue w0 /\ retried (m w0).1 = retried w0
            /\ match (m w0).2 with
               | Returns v =>
                   exists d', v = VDict d'
                     /\ (get d' "summary_status" = VStr "complete"
                         \/ get d' "summary_status" = VStr "failed")
                     /\ (forall k, k <> "summary_status" -> k <> "meeting_type" ->
                           d' !! k = d !! k)
               | Raises e => is_exception e = false
               end) as Hm.
  { intros d tid chan w0. cbv zeta.
    destruct (Hcall tid (transcript_text d) w0) as [Hq Hr].
    destruct (call_summarizer x tid (transcript_text d) w0)
      as [w' [[summary_result |] | e]]; simpl in *.
    - destruct (parse_summary x (get summary_result "content")) as [parsed | e];
        simpl.
      + split; [exact Hq |]. split; [exact Hr |].
        eexists. split; [reflexivity |]. split.
        * left. unfold get.
          rewrite lookup_insert_ne by discriminate.
          rewrite lookup_insert_eq. reflexivity.
        * intros k Hk1 Hk2. rewrite !lookup_insert_ne by congruence. reflexivity.
      + destruct (is_exception e) eqn:Ee; simpl.
        * split; [exact Hq |]. split; [exact Hr |].
          eexists. split; [reflexivity |]. split.
          -- right. unfold get. rewrite lookup_insert_eq. reflexivity.
          -- intros k Hk1 Hk2. rewrite !lookup_insert_ne by congruence. reflexivity.
        * auto.
    - split; [exact Hq |]. split; [exact Hr |].
      eexists. split; [reflexivity |]. split.
      + right. unfold get. rewrite lookup_insert_eq. reflexivity.
      + intros k Hk1 Hk2. rewrite !lookup_insert_ne by congruence. reflexivity.
    - destruct (is_exception e) eqn:Ee; simpl.
      + split; [exact Hq |]. split; [exact Hr |].
        eexists. split; [reflexivity |]. split.
        * right. unfold get. rewrite lookup_insert_eq. reflexivity.
        * intros k Hk1 Hk2. rewrite !lookup_insert_ne by congruence. reflexivity.
      + auto. }
  unfold generate_summary_task.
  destruct (robust_input result) as [tid res] eqn:Erob.
  destruct (negb (truthy tid)) eqn:Etid.
  { split; [reflexivity |]. split; [reflexivity |].
    intros d i -> Hid Hne. exfalso.
    unfold robust_input, get in Erob. rewrite Hid in Erob. simpl in Erob.
    injection Erob as <- <-. simpl in Etid.
    apply negb_true_iff, negb_false_iff, String.eqb_eq in Etid. contradiction. }
  destruct res as [| | | | | | d0];
    try (split; [reflexivity |]; split; [reflexivity |];
         intros d i -> Hid Hne;
         unfold robust_input in Erob; injection Erob as _ Hres;
         discriminate Hres).
  unfold bind at 1. unfold publish at 1.
  match goal with
  | |- context [call_summarizer x tid (transcript_text d0) ?w0] =>
      match goal with
      | |- context [summary_failed x self tid ?chan] =>
          pose proof (Hm d0 tid chan w0) as (Hq & Hr & Hout)
      end
  end.
  cbv zeta in Hq, Hr, Hout. simpl in Hq, Hr.
  split; [exact Hq |]. split; [exact Hr |].
  intros d i Hres Hid Hne.
  assert (d0 = d) as <-.
  { subst result. unfold robust_input in Erob. injection Erob as _ Hres.
    congruence. }
  exact Hout.
Qed.

Lemma summary_task_ends_the_chain_witness :
  match (generate_summary_task
           (Sample.collaborators_with Sample.no_token Sample.no_token
              (Returns "tx-1"))
           {| id := "task-4"; retries := 0 |}
           (VDict {[ "id" := VStr "tx-1"; "text" := VStr "hello there" ]})
           Sample.idle).2 with
  | Returns v =>
      exists d', v = VDict d'
        /\ (get d' "summary_status" = VStr "complete"
            \/ get d' "summary_status" = VStr "failed")
        /\ (forall k, k <> "summary_status" -> k <> "meeting_type" ->
              d' !! k
              = ({[ "id" := VStr "tx-1"; "text" := VStr "hello there" ]} : dict) !! k)
  | Raises e => is_exception e = false
  end.
Proof.
  apply (proj2 (proj2 (summary_task_ends_the_chain
           (Sample.collaborators_with Sample.no_token Sample.no_token
              (Returns "tx-1"))
           {| id := "task-4"; retries := 0 |}
           (VDict {[ "id" := VStr "tx-1"; "text" := VStr "hello there" ]})
           Sample.idle))
           ({[ "id" := VStr "tx-1"; "text" := VStr "hello there" ]} : dict) "tx-1").
  - reflexivity.
  - vm_compute. reflexivity.
  - discriminate.
Defined.

End ChainFacts.

(* ----------------------------------------------------------------- *)
(** ** The transcriber cache *)
(* ----------------------------------------------------------------- *)

Section BackendFacts.
Import Backends.

(** The call made when whisper.cpp is missing is the method itself,
    called for faster-whisper. *)
Lemma fallback_is_the_recursive_call (c : TranscriberCache)
    (warm_up : transcriber -> outcome unit) (model_size : string) :
  get_faster_whisper c warm_up model_size
  = get_transcriber c warm_up "faster-whisper" model_size.
Proof. reflexivity. Qed.

Lemma keys_differ (model_size model_size' : string) :
  cache_key "whisper-cpp" model_size <> cache_key "faster-whisper" model_size'.
Proof. unfold cache_key. simpl. discriminate. Qed.

Lemma key_size (backend model_size model_size' : string) :
  cache_key backend model_size = cache_key backend model_size' ->
  model_size = model_size'.
Proof.
  unfold cache_key. induction backend as [| a backend IH]; simpl.
  - intros H. injection H as H. exact H.
  - intros H. injection H as H. exact (IH H).
Qed.

Lemma create_spec (c c' : TranscriberCache) (warm_up : transcriber -> outcome unit)
    (key : string) (t : transcriber) (o : outcome transcriber) :
  create c warm_up key t = (c', o) ->
  match o with
  | Returns t' => t' = t /\ c' = set_item c key t /\ warm_up t = Returns tt
  | Raises e => c' = c /\ warm_up t = Raises e
  end.
Proof.
  unfold create. destruct (warm_up t) as [[] | e]; intros H; injection H as <- <-; auto.
Qed.

(** X16: a transcriber is loaded once.  After a call that returned a
    transcriber, the same request is answered from the cache with the
    same transcriber, whatever loading would do now (this covers a
    request for whisper.cpp that faster-whisper served); and a call
    that raises, for a failed warm-up or an unknown backend, leaves
    the cache as it was. *)
Theorem transcriber_is_loaded_once
    (c c' : TranscriberCache) (warm_up : transcriber -> outcome unit)
    (backend model_size : string) (o : outcome transcriber) :
  get_transcriber c warm_up backend model_size = (c', o) ->
  match o with
  | Returns t =>
      forall warm_up',
        get_transcriber c' warm_up' backend model_size = (c', Returns t)
  | Raises e => c' = c
  end.
Proof.
  unfold get_transcriber at 1. cbv zeta.
  destruct (_cache c !! cache_key backend model_size) as [t |] eqn:Ek.
  { intros H. injection H as <- <-. intros warm_up'.
    unfold get_transcriber. cbv zeta. rewrite Ek. reflexivity. }
  assert (forall key t0 c0 o0,
            create c warm_up key t0 = (c0, o0) ->
            match o0 with
            | Returns t => _cache c0 !! key = Some t
                           /\ _whisper_cpp_available c0 = _whisper_cpp_available c
                           /\ forall k, k <> key -> _cache c0 !! k = _cache c !! k
            | Raises e => c0 = c
            end) as Hcreate.
  { intros key t0 c0 o0 H. apply create_spec in H.
    destruct o0 as [t' | e]; [| tauto].
    destruct H as (-> & -> & _). simpl.
    split; [apply lookup_insert_eq |]. split; [reflexivity |].
    intros k Hk. apply lookup_insert_ne. congruence. }
  destruct (String.eqb backend "faster-whisper") eqn:Efw.
  { intros H. apply Hcreate in H. destruct o as [t | e]; [| exact H].
    destruct H as (Hhit & _). intros warm_up'.
    unfold get_transcriber. cbv zeta. rewrite Hhit. reflexivity. }
  destruct (String.eqb backend "whisper-cpp") eqn:Ewc.
  2:{ intros H. injection H as <- <-. reflexivity. }
  apply String.eqb_eq in Ewc. subst backend.
  destruct (_whisper_cpp_available c) eqn:Eav; simpl.
  { intros H. apply Hcreate in H. destruct o as [t | e]; [| exact H].
    destruct H as (Hhit & _). intros warm_up'.
    unfold get_transcriber. cbv zeta. rewrite Hhit. reflexivity. }
  unfold get_faster_whisper. cbv zeta.
  destruct (_cache c !! cache_key "faster-whisper" model_size) as [t |] eqn:Ef.
  { intros H. injection H as <- <-. intros warm_up'.
    unfold get_transcriber. cbv zeta. rewrite Ek. simpl. rewrite Eav. simpl.
    unfold get_faster_whisper. cbv zeta. rewrite Ef. reflexivity. }
  intros H. apply Hcreate in H. destruct o as [t | e]; [| exact H].
  destruct H as (Hhit & Hav & Hother). intros warm_up'.
  unfold get_transcriber. cbv zeta.
  rewrite (Hother _ (keys_differ model_size model_size)), Ek. simpl.
  rewrite Hav. simpl.
  unfold get_faster_whisper. cbv zeta. rewrite Hhit. reflexivity.
Qed.

Lemma transcriber_is_loaded_once_witness :
  get_transcriber
    (get_transcriber __init__ (fun _ => Returns tt) "whisper-cpp" "tiny").1
    (fun _ => Raises (error "No space left on device")) "whisper-cpp" "tiny"
  = ((get_transcriber __init__ (fun _ => Returns tt) "whisper-cpp" "tiny").1,
     Returns (MaxAccuracyTranscriber "tiny")).
Proof.
  refine (transcriber_is_loaded_once __init__
            (get_transcriber __init__ (fun _ => Returns tt) "whisper-cpp" "tiny").1
            (fun _ => Returns tt) "whisper-cpp" "tiny"
            (Returns (MaxAccuracyTranscriber "tiny")) _
            (fun _ => Raises (error "No space left on device"))).
  vm_compute. reflexivity.
Defined.

Lemma well_keyed_init : well_keyed __init__.
Proof. intros k t H. simpl in H. rewrite lookup_empty in H. discriminate. Qed.

Lemma well_keyed_set_item (c : TranscriberCache) (t : transcriber) :
  well_keyed c ->
  (forall model_size path,
     t = WhisperCppTranscriber model_size path ->
     _whisper_cpp_available c = true /\ path = _whisper_cpp_binary c) ->
  well_keyed (set_item c (key_of t) t).
Proof.
  intros Hc Ht k t' Hk. simpl in *.
  destruct (decide (k = key_of t)) as [-> | Hne].
  - rewrite lookup_insert_eq in Hk. injection Hk as <-. auto.
  - rewrite lookup_insert_ne in Hk by congruence. exact (Hc k t' Hk).
Qed.

(** What a well-keyed cache holds under the key of a transcriber. *)
Lemma well_keyed_hit (c : TranscriberCache) (t0 t : transcriber) :
  well_keyed c ->
  (forall model_size path,
     t0 = WhisperCppTranscriber model_size path -> path = _whisper_cpp_binary c) ->
  _cache c !! key_of t0 = Some t ->
  t = t0.
Proof.
  intros Hc Hpath Hk. destruct (Hc _ _ Hk) as [Hkey Hwc].
  destruct t0 as [s0 | s0 p0], t as [s1 | s1 p1]; simpl in Hkey.
  - apply key_size in Hkey. congruence.
  - symmetry in Hkey. exfalso. exact (keys_differ _ _ Hkey).
  - exfalso. exact (keys_differ _ _ Hkey).
  - apply key_size in Hkey. subst s1.
    destruct (Hwc _ _ eq_refl) as [_ ->].
    rewrite (Hpath _ _ eq_refl). reflexivity.
Qed.

Lemma create_keeps_well_keyed
    (c c' : TranscriberCache) (warm_up : transcriber -> outcome unit)
    (t0 t : transcriber) :
  well_keyed c ->
  (forall model_size path,
     t0 = WhisperCppTranscriber model_size path ->
     _whisper_cpp_available c = true /\ path = _whisper_cpp_binary c) ->
  create c warm_up (key_of t0) t0 = (c', Returns t) ->
  well_keyed c' /\ _cache c' !! key_of t = Some t /\ t = t0.
Proof.
  intros Hc Hwc H. apply create_spec in H.
  destruct H as (-> & -> & _).
  split; [apply well_keyed_set_item; assumption |].
  split; [apply lookup_insert_eq | reflexivity].
Qed.

(** A request changes nothing but the cache, and the cache only
    grows. *)
Lemma get_transcriber_frame
    (c c' : TranscriberCache) (warm_up : transcriber -> outcome unit)
    (backend model_size : string) (o : outcome transcriber) :
  get_transcriber c warm_up backend model_size = (c', o) ->
  _whisper_cpp_available c' = _whisper_cpp_available c
  /\ _whisper_cpp_binary c' = _whisper_cpp_binary c
  /\ (forall k t0, _cache c !! k = Some t0 -> _cache c' !! k = Some t0).
Proof.
  assert (forall key t0,
            _cache c !! key = None ->
            create c warm_up key t0 = (c', o) ->
            _whisper_cpp_available c' = _whisper_cpp_available c
            /\ _whisper_cpp_binary c' = _whisper_cpp_binary c
            /\ (forall k t1, _cache c !! k = Some t1 -> _cache c' !! k = Some t1))
    as Hcreate.
  { intros key t0 Hnone H. apply create_spec in H.
    destruct o as [t | e].
    - destruct H as (_ & -> & _). simpl.
      split; [reflexivity |]. split; [reflexivity |].
      intros k t1 Hk. rewrite lookup_insert_ne; [exact Hk | congruence].
    - destruct H as [-> _]. auto. }
  unfold get_transcriber, get_faster_whisper. cbv zeta.
  destruct (_cache c !! cache_key backend model_size) eqn:Ek.
  { intros H. injection H as <- <-. auto. }
  destruct (String.eqb backend "faster-whisper"); [apply Hcreate, Ek |].
  destruct (String.eqb backend "whisper-cpp").
  2:{ intros H. injection H as <- <-. auto. }
  destruct (negb (_whisper_cpp_available c)); [| apply Hcreate, Ek].
  destruct (_cache c !! cache_key "faster-whisper" model_size) eqn:Ef.
  { intros H. injection H as <- <-. auto. }
  apply Hcreate, Ef.
Qed.

(** The transcriber a request is answered with, on a well-keyed
    cache. *)
Lemma get_transcriber_answer
    (c c' : TranscriberCache) (warm_up : transcriber -> outcome unit)
    (backend model_size : string) (t : transcriber) :
  well_keyed c ->
  backend = "faster-whisper" \/ backend = "whisper-cpp" ->
  get_transcriber c warm_up backend model_size = (c', Returns t) ->
  well_keyed c'
  /\ _cache c' !! key_of t = Some t
  /\ t = if String.eqb backend "whisper-cpp" && _whisper_cpp_available c
         then WhisperCppTranscriber model_size (_whisper_cpp_binary c)
         else MaxAccuracyTranscriber model_size.
Proof.
  intros Hc Hb. unfold get_transcriber, get_faster_whisper. cbv zeta.
  assert (forall t0 t1,
            (forall model_size path,
               t0 = WhisperCppTranscriber model_size path ->
               path = _whisper_cpp_binary c) ->
            _cache c !! key_of t0 = Some t1 ->
            well_keyed c /\ _cache c !! key_of t1 = Some t1 /\ t1 = t0) as Hhit.
  { intros t0 t1 Hpath Hk.
    pose proof (well_keyed_hit c t0 t1 Hc Hpath Hk) as ->. auto. }
  assert (forall ms path,
            MaxAccuracyTranscriber model_size = WhisperCppTranscriber ms path ->
            path = _whisper_cpp_binary c) as Hfw by discriminate.
  assert (forall ms path,
            MaxAccuracyTranscriber model_size = WhisperCppTranscriber ms path ->
            _whisper_cpp_available c = true /\ path = _whisper_cpp_binary c)
    as Hfw' by discriminate.
  assert (forall ms path,
            WhisperCppTranscriber model_size (_whisper_cpp_binary c)
            = WhisperCppTranscriber ms path ->
            path = _whisper_cpp_binary c) as Hwc
    by (intros ? ? [= _ <-]; reflexivity).
  destruct Hb as [-> | ->].
  - change (String.eqb "faster-whisper" "whisper-cpp") with false.
    change (String.eqb "faster-whisper" "faster-whisper") with true.
    cbn [andb]. cbv iota.
    change (cache_key "faster-whisper" model_size)
      with (key_of (MaxAccuracyTranscriber model_size)).
    destruct (_cache c !! key_of (MaxAccuracyTranscriber model_size))
      as [t' |] eqn:Ek.
    + intros H. injection H as <- <-. exact (Hhit _ _ Hfw Ek).
    + exact (create_keeps_well_keyed c c' warm_up _ t Hc Hfw').
  - change (String.eqb "whisper-cpp" "faster-whisper") with false.
    change (String.eqb "whisper-cpp" "whisper-cpp") with true.
    cbn [andb]. cbv iota.
    change (cache_key "whisper-cpp" model_size)
      with (key_of (WhisperCppTranscriber model_size (_whisper_cpp_binary c))).
    change (cache_key "faster-whisper" model_size)
      with (key_of (MaxAccuracyTranscriber model_size)).
    destruct (_cache c !! key_of (WhisperCppTranscriber model_size
                                    (_whisper_cpp_binary c)))
      as [t' |] eqn:Ek.
    + intros H. injection H as <- <-.
      destruct (Hhit _ _ Hwc Ek) as (H1 & H2 & H3).
      destruct (Hc _ _ Ek) as [_ Hav].
      rewrite (proj1 (Hav _ _ H3)). auto.
    + destruct (_whisper_cpp_available c) eqn:Eav; cbn [negb]; cbv iota.
      * apply (create_keeps_well_keyed c c' warm_up _ t Hc).
        intros ? ? [= _ <-]. auto.
      * destruct (_cache c !! key_of (MaxAccuracyTranscriber model_size))
          as [t' |] eqn:Ef.
        -- intros H. injection H as <- <-. exact (Hhit _ _ Hfw Ef).
        -- apply (create_keeps_well_keyed c c' warm_up _ t Hc).
           discriminate.
Qed.

(** X17: on a cache whose entries sit under their own keys (as they
    do from the start on), a request for one of the two backends is
    answered with a transcriber of the requested size: a whisper.cpp
    one on the configured binary when whisper.cpp was asked for and
    is available, a faster-whisper one otherwise.  Nothing cached
    before is lost or replaced, and the entries stay under their
    keys. *)
Theorem transcriber_matches_the_request
    (c c' : TranscriberCache) (warm_up : transcriber -> outcome unit)
    (backend model_size : string) (t : transcriber) :
  well_keyed c ->
  backend = "faster-whisper" \/ backend = "whisper-cpp" ->
  get_transcriber c warm_up backend model_size = (c', Returns t) ->
  well_keyed c'
  /\ (forall k t0, _cache c !! k = Some t0 -> _cache c' !! k = Some t0)
  /\ _cache c' !! key_of t = Some t
  /\ t = if String.eqb backend "whisper-cpp" && _whisper_cpp_available c
         then WhisperCppTranscriber model_size (_whisper_cpp_binary c)
         else MaxAccuracyTranscriber model_size.
Proof.
  intros Hc Hb Hg.
  destruct (get_transcriber_answer c c' warm_up backend model_size t Hc Hb Hg)
    as (H1 & H3 & H4).
  destruct (get_transcriber_frame c c' warm_up backend model_size _ Hg)
    as (_ & _ & H2).
  auto.
Qed.

Lemma transcriber_matches_the_request_witness :
  MaxAccuracyTranscriber "tiny"
  = if String.eqb "whisper-cpp" "whisper-cpp" && _whisper_cpp_available __init__
    then WhisperCppTranscriber "tiny" (_whisper_cpp_binary __init__)
    else MaxAccuracyTranscriber "tiny".
Proof.
  apply (transcriber_matches_the_request __init__
           (get_transcriber __init__ (fun _ => Returns tt) "whisper-cpp" "tiny").1
           (fun _ => Returns tt) "whisper-cpp" "tiny"
           (MaxAccuracyTranscriber "tiny")).
  - apply well_keyed_init.
  - right. reflexivity.
  - vm_compute. reflexivity.
Defined.

(** Only the two backends are checked for: the key of an unknown
    backend can be the key of a cached transcriber, which is then
    returned instead of the [ValueError]. *)
Example unknown_backend_can_hit_the_cache :
  let c := (get_transcriber __init__ (fun _ => Returns tt)
              "faster-whisper" "large:v3").1 in
  (get_transcriber c (fun _ => Returns tt) "faster-whisper:large" "v3").2
  = Returns (MaxAccuracyTranscriber "large:v3")
  /\ (get_transcriber c (fun _ => Returns tt) "faster-whisper-large" "v3").2
     = Raises (error "Unknown backend: faster-whisper-large").
Proof. by_evaluation. Qed.

(** A request that raises: the cache is as it was, and what was
    raised came from a warm-up or is the [ValueError]. *)
Lemma failed_request (c c' : TranscriberCache)
    (warm_up : transcriber -> outcome unit) (backend model_size : string)
    (e : exn) :
  get_transcriber c warm_up backend model_size = (c', Raises e) ->
  c' = c
  /\ ((exists t, warm_up t = Raises e)
      \/ e = error ("Unknown backend: " ++ backend)).
Proof.
  unfold get_transcriber, get_faster_whisper. cbv zeta.
  destruct (_cache c !! cache_key backend model_size); [discriminate |].
  destruct (String.eqb backend "faster-whisper").
  { intros H. apply create_spec in H. destruct H as [-> H]. eauto. }
  destruct (String.eqb backend "whisper-cpp").
  2:{ intros H. injection H as <- <-. auto. }
  destruct (negb (_whisper_cpp_available c)).
  - destruct (_cache c !! cache_key "faster-whisper" model_size); [discriminate |].
    intros H. apply create_spec in H. destruct H as [-> H]. eauto.
  - intros H. apply create_spec in H. destruct H as [-> H]. eauto.
Qed.

Lemma logged_spec (r : TranscriberCache * outcome transcriber) :
  (logged r).1 = r.1
  /\ (fails_with_exception r.2 -> (logged r).2 = Returns tt).
Proof.
  destruct r as [c [t | e]]; simpl; [auto |].
  destruct (is_exception e) eqn:E; simpl; [auto |].
  split; [reflexivity |]. intros H. rewrite (H e eq_refl) in E. discriminate.
Qed.

(** One request, as the preload loop makes it: it never fails, keeps
    what is cached, and caches the transcriber whose warm-up works. *)
Lemma logged_request (c : TranscriberCache)
    (warm_up : transcriber -> outcome unit) (backend model_size : string) :
  well_keyed c ->
  backend = "faster-whisper" \/ backend = "whisper-cpp" ->
  (forall t, fails_with_exception (warm_up t)) ->
  let r := logged (get_transcriber c warm_up backend model_size) in
  r.2 = Returns tt
  /\ well_keyed r.1
  /\ _whisper_cpp_available r.1 = _whisper_cpp_available c
  /\ _whisper_cpp_binary r.1 = _whisper_cpp_binary c
  /\ (forall k t0, _cache c !! k = Some t0 -> _cache r.1 !! k = Some t0)
  /\ (backend = "faster-whisper" ->
      warm_up (MaxAccuracyTranscriber model_size) = Returns tt ->
      _cache r.1 !! cache_key "faster-whisper" model_size
      = Some (MaxAccuracyTranscriber model_size)).
Proof.
  intros Hc Hb Hwarm. cbv zeta.
  destruct (get_transcriber c warm_up backend model_size) as [c' o] eqn:Eg.
  destruct o as [t | e]; simpl.
  - destruct (get_transcriber_answer c c' warm_up backend model_size t Hc Hb Eg)
      as (Hc' & Hin & Ht).
    destruct (get_transcriber_frame c c' warm_up backend model_size _ Eg)
      as (Hav & Hbin & Hmono).
    split; [reflexivity |]. split; [exact Hc' |].
    split; [exact Hav |]. split; [exact Hbin |]. split; [exact Hmono |].
    intros -> _. simpl in Ht. subst t. exact Hin.
  - destruct (failed_request _ _ _ _ _ _ Eg) as [-> Hwhy].
    assert (is_exception e = true) as He.
    { destruct Hwhy as [[t Ht] | ->]; [exact (Hwarm t e Ht) | reflexivity]. }
    rewrite He. simpl.
    split; [reflexivity |]. split; [exact Hc |].
    split; [reflexivity |]. split; [reflexivity |]. split; [auto |].
    intros -> Hok. exfalso.
    revert Eg. unfold get_transcriber, create. cbv zeta.
    destruct (_cache c !! cache_key "faster-whisper" model_size); [discriminate |].
    simpl. rewrite Hok. discriminate.
Qed.

(** X18: preloading is best effort per model.  As long as a warm-up
    that fails fails with an [Exception], the preload loop runs to
    its end; afterwards every configured size whose faster-whisper
    warm-up works is cached, however many of the others failed, and
    nothing cached before is lost. *)
Theorem preload_survives_failed_models
    (c : TranscriberCache) (warm_up : transcriber -> outcome unit)
    (preload_models : list string) :
  well_keyed c ->
  (forall t, fails_with_exception (warm_up t)) ->
  let r := preload c warm_up preload_models in
  r.2 = Returns tt
  /\ well_keyed r.1
  /\ (forall k t, _cache c !! k = Some t -> _cache r.1 !! k = Some t)
  /\ (forall model_size,
        In model_size preload_models ->
        warm_up (MaxAccuracyTranscriber model_size) = Returns tt ->
        _cache r.1 !! cache_key "faster-whisper" model_size
        = Some (MaxAccuracyTranscriber model_size)).
Proof.
  intros Hc Hwarm. cbv zeta. revert c Hc.
  induction preload_models as [| s rest IH]; intros c Hc.
  { simpl. split; [reflexivity |]. split; [exact Hc |]. split; [auto |].
    intros ? []. }
  cbn [preload].
  pose proof (logged_request c warm_up "faster-whisper" s Hc
                (or_introl eq_refl) Hwarm) as H1.
  cbv zeta in H1.
  destruct (logged (get_transcriber c warm_up "faster-whisper" s)) as [c1 o1].
  simpl in H1. destruct H1 as (-> & Hc1 & Hav1 & Hbin1 & Hmono1 & Hin1).
  assert (exists c2,
            (if _whisper_cpp_available c1
             then logged (get_transcriber c1 warm_up "whisper-cpp" s)
             else (c1, Returns tt)) = (c2, Returns tt)
            /\ well_keyed c2
            /\ (forall k t0, _cache c1 !! k = Some t0 -> _cache c2 !! k = Some t0))
    as (c2 & -> & Hc2 & Hmono2).
  { destruct (_whisper_cpp_available c1).
    - pose proof (logged_request c1 warm_up "whisper-cpp" s Hc1
                    (or_intror eq_refl) Hwarm) as H2.
      cbv zeta in H2.
      destruct (logged (get_transcriber c1 warm_up "whisper-cpp" s)) as [c2 o2].
      simpl in H2. destruct H2 as (-> & Hc2 & _ & _ & Hmono2 & _).
      exists c2. auto.
    - exists c1. auto. }
  destruct (IH c2 Hc2) as (Hret & Hwk & Hmono & Hin).
  split; [exact Hret |]. split; [exact Hwk |].
  split; [intros k t Hk; apply Hmono, Hmono2, Hmono1, Hk |].
  intros model_size [<- | Hrest] Hok.
  - apply Hmono, Hmono2, Hin1; [reflexivity | exact Hok].
  - apply Hin; assumption.
Qed.

Lemma preload_survives_failed_models_witness :
  _cache (preload __init__
            (fun t => match t with
                      | MaxAccuracyTranscriber model_size =>
                          if String.eqb model_size "large-v3"
                          then Raises (error "CUDA out of memory")
                          else Returns tt
                      | WhisperCppTranscriber _ _ => Returns tt
                      end)
            ["large-v3"; "tiny"]).1
    !! cache_key "faster-whisper" "tiny"
  = Some (MaxAccuracyTranscriber "tiny").
Proof.
  refine (proj2 (proj2 (proj2 (preload_survives_failed_models __init__
            (fun t => match t with
                      | MaxAccuracyTranscriber model_size =>
                          if String.eqb model_size "large-v3"
                          then Raises (error "CUDA out of memory")
                          else Returns tt
                      | WhisperCppTranscriber _ _ => Returns tt
                      end)
            ["large-v3"; "tiny"] well_keyed_init _))) "tiny" _ _).
  - intros t e H. destruct t as [model_size | model_size path];
      [| discriminate H].
    destruct (String.eqb model_size "large-v3"); [| discriminate H].
    injection H as <-. reflexivity.
  - simpl. auto.
  - reflexivity.
Defined.



End BackendFacts.

(* ----------------------------------------------------------------- *)
(** ** The result cache *)
(* ----------------------------------------------------------------- *)

Section CacheFacts.
Import Cache.

Lemma disabled_client (m : mode) (p : RedisCacheProvider) (l : link) :
  _enabled p = false -> _get_client m p l = (p, Returns false).
Proof. intros H. unfold _get_client. rewrite H. reflexivity. Qed.

Lemma disabled_provider (m : mode) (p : RedisCacheProvider) (l : link)
    (k : codec) (now : Z) (key : string) (v : value) (ttl : Z) :
  _enabled p = false ->
  get m p l k now key = (p, Returns VNone)
  /\ set m p l k now key v ttl = (p, Returns false)
  /\ delete m p l key = (p, Returns false).
Proof.
  intros H. unfold get, set, delete. rewrite (disabled_client m p l H). auto.
Qed.

(** Getting a client never touches the database; on an ordinary link
    it does not raise, and no client means the provider is disabled
    from then on. *)
Lemma get_client_spec (m : mode) (p : RedisCacheProvider) (l : link) :
  redis (_get_client m p l).1 = redis p
  /\ (ordinary l ->
      ((_get_client m p l).2 = Returns true
       /\ _enabled (_get_client m p l).1 = true
       /\ _enabled p = true)
      \/ ((_get_client m p l).2 = Returns false
          /\ _enabled (_get_client m p l).1 = false)).
Proof.
  unfold _get_client.
  destruct (_enabled p) eqn:Een; simpl; [| auto].
  destruct (client m p); simpl; [auto |].
  destruct (from_url l) as [[] | e] eqn:Ef.
  - destruct (ping l) as [[] | e] eqn:Ep; simpl.
    + split; [destruct m; reflexivity |]. intros _. left.
      destruct m; simpl; auto.
    + destruct (is_exception e) eqn:Ee; simpl.
      * split; [destruct m; reflexivity |]. auto.
      * split; [destruct m; reflexivity |].
        intros (_ & Hp & _). rewrite (Hp e Ep) in Ee. discriminate.
  - destruct (is_exception e) eqn:Ee; simpl.
    + auto.
    + split; [reflexivity |].
      intros (Hf & _). rewrite (Hf e Ef) in Ee. discriminate.
Qed.

Lemma guarded_returns {A : Type} (dflt : A) (o : outcome A) :
  fails_with_exception o -> exists a, guarded dflt o = Returns a.
Proof.
  destruct o as [a | e]; simpl; [eauto |].
  intros H. rewrite (H e eq_refl). eauto.
Qed.

(** A lookup never writes; on an ordinary link it does not raise. *)
Lemma get_spec (m : mode) (p : RedisCacheProvider) (l : link) (k : codec)
    (now : Z) (key : string) :
  redis (get m p l k now key).1 = redis p
  /\ (get m p l k now key).1 = (_get_client m p l).1
  /\ (ordinary l -> (forall s, fails_with_exception (loads k s)) ->
      exists v, (get m p l k now key).2 = Returns v).
Proof.
  destruct (get_client_spec m p l) as [Hdb Hord]. unfold get.
  destruct (_get_client m p l) as [p' [[|] | e]] eqn:Eg; simpl in *.
  - split; [exact Hdb |]. split; [reflexivity |].
    intros Hl Hloads. apply guarded_returns.
    destruct Hl as (_ & _ & Hc).
    destruct (command l) as [[] | e] eqn:Ec.
    2:{ intros e' [= <-]. exact (Hc e eq_refl). }
    destruct (redis_get p' now key) as [val |]; [| discriminate].
    destruct (negb (String.eqb val "")); [apply Hloads | discriminate].
  - split; [exact Hdb |]. split; [reflexivity |]. eauto.
  - split; [exact Hdb |]. split; [reflexivity |].
    intros Hl _. destruct (Hord Hl) as [[H _] | [H _]]; discriminate H.
Qed.

(** A write puts at most the serialized value under the key; on an
    ordinary link it does not raise. *)
Lemma set_spec (m : mode) (p : RedisCacheProvider) (l : link) (k : codec)
    (now : Z) (key : string) (v : value) (ttl : Z) :
  (redis (set m p l k now key v ttl).1 = redis p
   \/ exists s, dumps k v = Returns s
                /\ redis (set m p l k now key v ttl).1
                   = <[key := (s, (now + ttl)%Z)]> (redis p))
  /\ (ordinary l -> fails_with_exception (dumps k v) ->
      exists b, (set m p l k now key v ttl).2 = Returns b).
Proof.
  destruct (get_client_spec m p l) as [Hdb Hord]. unfold set.
  destruct (_get_client m p l) as [p' [[|] | e]] eqn:Eg; simpl in *.
  - destruct (dumps k v) as [s | e] eqn:Ed.
    + destruct (command l) as [[] | e] eqn:Ec.
      * destruct (ttl <=? 0)%Z; simpl.
        -- split; [left; exact Hdb | eauto].
        -- split; [right; exists s; rewrite Hdb; auto | eauto].
      * simpl. split; [left; exact Hdb |].
        intros (_ & _ & Hc) _. first [rewrite (Hc e Ec) | rewrite (Hc e eq_refl)]. eauto.
    + simpl. split; [left; exact Hdb |].
      intros _ Hd. first [rewrite (Hd e Ed) | rewrite (Hd e eq_refl)]. eauto.
  - split; [left; exact Hdb | eauto].
  - split; [left; exact Hdb |].
    intros Hl _. destruct (Hord Hl) as [[H _] | [H _]]; discriminate H.
Qed.

(** X19: a Redis that cannot be reached when the first client is made
    switches the cache off for good, for the synchronous and the
    asynchronous methods alike: that lookup answers [None], and from
    then on every lookup answers [None] and every write and delete
    [False] without the network being used, whatever its state. *)
Theorem unreachable_redis_disables_the_cache
    (m : mode) (p : RedisCacheProvider) (l : link) (k : codec)
    (now : Z) (key : string) (e : exn) :
  _enabled p = true -> client m p = false ->
  from_url l = Raises e \/ (from_url l = Returns tt /\ ping l = Raises e) ->
  is_exception e = true ->
  let p1 := (get m p l k now key).1 in
  (get m p l k now key).2 = Returns VNone
  /\ redis p1 = redis p
  /\ forall m' l' k' now' key' v ttl,
       get m' p1 l' k' now' key' = (p1, Returns VNone)
       /\ set m' p1 l' k' now' key' v ttl = (p1, Returns false)
       /\ delete m' p1 l' key' = (p1, Returns false).
Proof.
  intros Hen Hcl Hfail He. cbv zeta.
  assert (exists p1, get m p l k now key = (p1, Returns VNone)
                     /\ _enabled p1 = false /\ redis p1 = redis p)
    as (p1 & -> & Hoff & Hdb).
  { unfold get, _get_client. rewrite Hen, Hcl. simpl.
    destruct Hfail as [-> | [-> ->]]; rewrite He; eexists;
      (split; [reflexivity |]); split; try reflexivity.
    destruct m; reflexivity. }
  simpl. split; [reflexivity |]. split; [exact Hdb |].
  intros m' l' k' now' key' v ttl. apply disabled_provider, Hoff.
Qed.

Lemma unreachable_redis_disables_the_cache_witness :
  let k := {| dumps := fun _ => Returns "7";
              loads := fun _ => Returns (VInt 7) |} in
  let p1 := (get Sync (__init__ ∅) down k 0 "cache:a").1 in
  get Async p1 up k 5 "cache:b" = (p1, Returns VNone)
  /\ set Async p1 up k 5 "cache:b" (VInt 7) 60 = (p1, Returns false)
  /\ delete Async p1 up "cache:b" = (p1, Returns false).
Proof.
  cbv zeta.
  refine (proj2 (proj2 (unreachable_redis_disables_the_cache Sync (__init__ ∅)
            down {| dumps := fun _ => Returns "7";
                    loads := fun _ => Returns (VInt 7) |} 0 "cache:a"
            (error "Connection refused") _ _ _ _))
            Async up {| dumps := fun _ => Returns "7";
                        loads := fun _ => Returns (VInt 7) |}
            5%Z "cache:b" (VInt 7) 60%Z).
  - reflexivity.
  - reflexivity.
  - right. split; reflexivity.
  - reflexivity.
Defined.

(** X20: the cache is transparent.  On ordinary links the wrapper
    never fails where the function does not: when the lookup finds
    nothing (or the cache is switched off, or Redis fails) the
    function runs once and its outcome is the wrapper's; when the
    lookup finds a value that is not [None] the function does not run
    and that value is returned. *)
Theorem cached_function_is_run_on_a_miss
    {S : Type} (m : mode) (ttl : Z) (func : S -> S * outcome value)
    (cache_key : string) (k : codec) (lookup store : link) (now later : Z)
    (p : RedisCacheProvider) (st : S) :
  ordinary lookup -> ordinary store ->
  (forall v, fails_with_exception (dumps k v)) ->
  (forall s, fails_with_exception (loads k s)) ->
  let r := wrapper m ttl func cache_key k lookup store now later p st in
  exists cached_val,
    (get m p lookup k now cache_key).2 = Returns cached_val
    /\ if is_not_none cached_val
       then r.1.2 = st /\ r.2 = Returns cached_val
       else r.1.2 = (func st).1 /\ r.2 = (func st).2.
Proof.
  intros Hlookup Hstore Hdumps Hloads. cbv zeta.
  destruct (get_spec m p lookup k now cache_key) as (_ & _ & Hget).
  destruct (Hget Hlookup Hloads) as [cached_val Hv].
  exists cached_val. split; [exact Hv |].
  unfold wrapper.
  destruct (get m p lookup k now cache_key) as [p' o]. simpl in Hv. subst o.
  destruct (is_not_none cached_val); [auto |].
  destruct (func st) as [st' [result | e]]; simpl; [| auto].
  destruct (is_not_none result); [| auto].
  destruct (set_spec m p' store k later cache_key result ttl) as [_ Hset].
  destruct (Hset Hstore (Hdumps result)) as [b Hb].
  destruct (set m p' store k later cache_key result ttl) as [p'' o].
  simpl in Hb. subst o. auto.
Qed.

Lemma cached_function_is_run_on_a_miss_witness :
  exists cached_val,
    (get Sync (__init__ ∅) down
       {| dumps := fun _ => Returns "7"; loads := fun _ => Returns (VInt 7) |}
       0 "cache:a").2 = Returns cached_val
    /\ if is_not_none cached_val
       then (wrapper Sync 3600 (fun n : nat => (S n, Returns (VInt 7))) "cache:a"
               {| dumps := fun _ => Returns "7";
                  loads := fun _ => Returns (VInt 7) |}
               down down 0 1 (__init__ ∅) 0%nat).1.2 = 0%nat
            /\ (wrapper Sync 3600 (fun n : nat => (S n, Returns (VInt 7))) "cache:a"
                  {| dumps := fun _ => Returns "7";
                     loads := fun _ => Returns (VInt 7) |}
                  down down 0 1 (__init__ ∅) 0%nat).2 = Returns cached_val
       else (wrapper Sync 3600 (fun n : nat => (S n, Returns (VInt 7))) "cache:a"
               {| dumps := fun _ => Returns "7";
                  loads := fun _ => Returns (VInt 7) |}
               down down 0 1 (__init__ ∅) 0%nat).1.2
            = ((fun n : nat => (S n, Returns (VInt 7))) 0%nat).1
            /\ (wrapper Sync 3600 (fun n : nat => (S n, Returns (VInt 7))) "cache:a"
                  {| dumps := fun _ => Returns "7";
                     loads := fun _ => Returns (VInt 7) |}
                  down down 0 1 (__init__ ∅) 0%nat).2
               = ((fun n : nat => (S n, Returns (VInt 7))) 0%nat).2.
Proof.
  refine (cached_function_is_run_on_a_miss Sync 3600
            (fun n : nat => (S n, Returns (VInt 7))) "cache:a"
            {| dumps := fun _ => Returns "7"; loads := fun _ => Returns (VInt 7) |}
            down down 0 1 (__init__ ∅) 0%nat _ _ _ _).
  - repeat split; intros e H; try discriminate H; injection H as <-; reflexivity.
  - repeat split; intros e H; try discriminate H; injection H as <-; reflexivity.
  - intros v e H. discriminate H.
  - intros s e H. discriminate H.
Defined.

(** The wrapper's only write: the result under its key. *)
Lemma wrapper_writes {S : Type} (m : mode) (ttl : Z)
    (func : S -> S * outcome value) (cache_key : string) (k : codec)
    (lookup store : link) (now later : Z) (p : RedisCacheProvider) (st : S) :
  let r := wrapper m ttl func cache_key k lookup store now later p st in
  redis r.1.1 = redis p
  \/ exists result s,
       (func st).2 = Returns result /\ is_not_none result = true
       /\ dumps k result = Returns s
       /\ redis r.1.1 = <[cache_key := (s, (later + ttl)%Z)]> (redis p).
Proof.
  cbv zeta. unfold wrapper.
  destruct (get_spec m p lookup k now cache_key) as (Hdb & _ & _).
  destruct (get m p lookup k now cache_key) as [p' [cached_val | e]];
    simpl in *; [| auto].
  destruct (is_not_none cached_val); simpl; [auto |].
  destruct (func st) as [st' [result | e]]; simpl; [| auto].
  destruct (is_not_none result) eqn:En; simpl; [| auto].
  destruct (set_spec m p' store k later cache_key result ttl) as [Hset _].
  destruct (set m p' store k later cache_key result ttl) as [p'' [b | e]];
    simpl in *.
  - destruct Hset as [Hs | (s & Hd & Hs)].
    + left. congruence.
    + right. exists result, s. rewrite Hs, Hdb. auto.
  - destruct Hset as [Hs | (s & Hd & Hs)].
    + left. congruence.
    + right. exists result, s. rewrite Hs, Hdb. auto.
Qed.

(** X21: what the wrapper stores is what the function returned, and
    only that: a call in which the function returns [None] or raises,
    or that is answered from the cache, leaves the database as it
    was; any other call changes at most the entry of its own key, to
    the serialized result, expiring [ttl] after it was stored. *)
Theorem only_results_are_cached
    {S : Type} (m : mode) (ttl : Z) (func : S -> S * outcome value)
    (cache_key : string) (k : codec) (lookup store : link) (now later : Z)
    (p : RedisCacheProvider) (st : S) :
  let r := wrapper m ttl func cache_key k lookup store now later p st in
  (forall key, key <> cache_key -> redis r.1.1 !! key = redis p !! key)
  /\ (redis r.1.1 !! cache_key = redis p !! cache_key
      \/ exists result s,
           (func st).2 = Returns result /\ result <> VNone
           /\ dumps k result = Returns s
           /\ redis r.1.1 !! cache_key = Some (s, (later + ttl)%Z))
  /\ ((func st).2 = Returns VNone \/ (exists e, (func st).2 = Raises e) ->
      redis r.1.1 = redis p).
Proof.
  cbv zeta.
  destruct (wrapper_writes m ttl func cache_key k lookup store now later p st)
    as [Hsame | (result & s & Hf & Hn & Hd & Hw)].
  - rewrite Hsame. auto.
  - rewrite Hw. split; [| split].
    + intros key Hkey. apply lookup_insert_ne. congruence.
    + right. exists result, s. rewrite lookup_insert_eq.
      repeat split; auto. intros ->. discriminate Hn.
    + intros [Hnone | [e He]]; rewrite Hf in *.
      * injection Hnone as ->. discriminate Hn.
      * discriminate He.
Qed.

Lemma only_results_are_cached_witness :
  let r := wrapper Sync 3600 (fun n : nat => (S n, Returns VNone)) "cache:a"
             {| dumps := fun _ => Returns "null";
                loads := fun _ => Returns VNone |}
             up up 0 1 (__init__ ∅) 0%nat in
  redis r.1.1 = redis (__init__ ∅).
Proof.
  cbv zeta.
  apply (proj2 (proj2 (only_results_are_cached Sync 3600
           (fun n : nat => (S n, Returns VNone)) "cache:a"
           {| dumps := fun _ => Returns "null";
              loads := fun _ => Returns VNone |}
           up up 0 1 (__init__ ∅) 0%nat))).
  left. reflexivity.
Defined.

(** X22: a result is served from the cache until it expires.  When a
    call with working links ran the function and got a result that is
    not [None], that serializes to a non-empty string from which it
    can be read back, then with working links every call for the same
    key before the entry expires returns that result without running
    its function, and the lookup after the expiry finds nothing. *)
Theorem cached_result_is_served_until_it_expires
    {S : Type} (m : mode) (ttl : Z) (func : S -> S * outcome value)
    (cache_key : string) (k : codec) (now later : Z)
    (p : RedisCacheProvider) (st : S) (result : value) (s : string) :
  _enabled p = true -> (0 < ttl)%Z ->
  (get m p up k now cache_key).2 = Returns VNone ->
  (func st).2 = Returns result -> result <> VNone ->
  dumps k result = Returns s -> s <> "" -> loads k s = Returns result ->
  let r := wrapper m ttl func cache_key k up up now later p st in
  r.2 = Returns result
  /\ forall (T : Type) (func' : T -> T * outcome value) (m' : mode)
            (now' later' : Z) (st' : T),
       ((now' < later + ttl)%Z ->
        (wrapper m' ttl func' cache_key k up up now' later' r.1.1 st').1.2 = st'
        /\ (wrapper m' ttl func' cache_key k up up now' later' r.1.1 st').2
           = Returns result)
       /\ ((later + ttl <= now')%Z ->
           (get m' r.1.1 up k now' cache_key).2 = Returns VNone).
Proof.
  intros Hen Httl Hmiss Hf Hnn Hd Hs Hl. cbv zeta.
  assert (is_not_none result = true) as Hn
    by (destruct result; try reflexivity; exfalso; apply Hnn; reflexivity).
  assert (forall m0 p0, _enabled p0 = true ->
            exists p1, _get_client m0 p0 up = (p1, Returns true)
                       /\ _enabled p1 = true /\ redis p1 = redis p0) as Hup.
  { intros m0 p0 H0. unfold _get_client. rewrite H0. simpl.
    destruct (client m0 p0); [eauto |].
    eexists. split; [reflexivity |]. destruct m0; simpl; auto. }
  assert (exists p1,
            wrapper m ttl func cache_key k up up now later p st
            = (p1, (func st).1, Returns result)
            /\ _enabled p1 = true
            /\ redis p1 = <[cache_key := (s, (later + ttl)%Z)]> (redis p))
    as (p1 & -> & Hen1 & Hdb1).
  { unfold wrapper.
    destruct (get_spec m p up k now cache_key) as (_ & Hp & _).
    destruct (get m p up k now cache_key) as [p0 o]. simpl in Hmiss, Hp.
    subst o. simpl.
    destruct (func st) as [st0 o]. simpl in Hf. subst o. rewrite Hn.
    destruct (Hup m p Hen) as (p0' & Hc & Hen0 & Hdb0).
    rewrite Hc in Hp. simpl in Hp. subst p0'.
    unfold set.
    destruct (Hup m p0 Hen0) as (p1 & -> & Hen1 & Hdb1).
    rewrite Hd. simpl.
    destruct (ttl <=? 0)%Z eqn:Et; [apply Z.leb_le in Et; lia |].
    eexists. split; [reflexivity |]. simpl.
    split; [exact Hen1 |]. rewrite Hdb1, Hdb0. reflexivity. }
  simpl. split; [reflexivity |].
  intros T func' m' now' later' st'.
  destruct (Hup m' p1 Hen1) as (p2 & Hc2 & Hen2 & Hdb2).
  assert (redis p2 !! cache_key = Some (s, (later + ttl)%Z)) as Hentry.
  { rewrite Hdb2, Hdb1. apply lookup_insert_eq. }
  split.
  - intros Hfresh.
    assert (get m' p1 up k now' cache_key = (p2, Returns result)) as Hget.
    { unfold get. rewrite Hc2. simpl. unfold redis_get. rewrite Hentry.
      destruct (now' <? later + ttl)%Z eqn:Et; [| apply Z.ltb_ge in Et; lia].
      assert (String.eqb s "" = false) as -> by (apply String.eqb_neq; exact Hs).
      simpl. rewrite Hl. reflexivity. }
    unfold wrapper. rewrite Hget, Hn. auto.
  - intros Hexpired. unfold get. rewrite Hc2. simpl.
    unfold redis_get. rewrite Hentry.
    destruct (now' <? later + ttl)%Z eqn:Et; [apply Z.ltb_lt in Et; lia |].
    reflexivity.
Qed.

Lemma cached_result_is_served_until_it_expires_witness :
  (wrapper Sync 3600 (fun n : nat => (S n, Returns (VInt 7))) "cache:a"
     {| dumps := fun _ => Returns "7"; loads := fun _ => Returns (VInt 7) |}
     up up 0 1 (__init__ ∅) 0%nat).2 = Returns (VInt 7).
Proof.
  refine (proj1 (cached_result_is_served_until_it_expires Sync 3600
            (fun n : nat => (S n, Returns (VInt 7))) "cache:a"
            {| dumps := fun _ => Returns "7"; loads := fun _ => Returns (VInt 7) |}
            0 1 (__init__ ∅) 0%nat (VInt 7) "7" _ _ _ _ _ _ _ _)).
  - reflexivity.
  - lia.
  - reflexivity.
  - reflexivity.
  - discriminate.
  - reflexivity.
  - discriminate.
  - reflexivity.
Defined.

End CacheFacts.

(* ----------------------------------------------------------------- *)
(** ** The context task *)
(* ----------------------------------------------------------------- *)

Section ContextTaskFacts.
Import EventBus Summarizer Pipeline ContextTask.



End ContextTaskFacts.

(* ----------------------------------------------------------------- *)
(** ** More on the transcriber slots *)
(* ----------------------------------------------------------------- *)

Section SlotProgress.
Import Transcriber.




End SlotProgress.

(* ----------------------------------------------------------------- *)
(** ** Speakers for the transcript *)
(* ----------------------------------------------------------------- *)

Section DiarizationFacts.
Import QArith Lqa Diarization.







(** The first overlap wins, not the longest. *)
Example first_overlap_wins :
  map (fun t => fields t !! "speaker")
    (merge_speaker_segments_with_transcript
       [{| start := Some 0%Q; end_ := Some 10%Q;
           fields := {[ "text" := VStr "well, as I was saying" ]} |}]
       [{| spk_start := 0%Q; spk_end := 1%Q; speaker := VStr "SPEAKER_00" |};
        {| spk_start := 1%Q; spk_end := 10%Q; speaker := VStr "SPEAKER_01" |}])
  = [Some (VStr "SPEAKER_00")].
Proof. vm_compute. reflexivity. Qed.

End DiarizationFacts.

(* ----------------------------------------------------------------- *)
(** ** Speaker rows *)
(* ----------------------------------------------------------------- *)

Section PersistenceFacts.
Import Persistence.





(** Two recordings with the same labels: only the one named is
    touched. *)
Example names_stay_within_a_transcription :
  map speaker_name
    (update_speaker_names
       [{| id := "s-1"; transcription_id := "tx-1";
           speaker_label := "SPEAKER_00"; speaker_name := VNone |};
        {| id := "s-2"; transcription_id := "tx-2";
           speaker_label := "SPEAKER_00"; speaker_name := VNone |}]
       (Returns tt) (Returns tt) "tx-1" {[ "SPEAKER_00" := VStr "Ada" ]}).1
  = [VStr "Ada"; VNone].
Proof. vm_compute. reflexivity. Qed.

End PersistenceFacts.

(* ----------------------------------------------------------------- *)
(** ** Stale audio *)
(* ----------------------------------------------------------------- *)

Section CleanupFacts.
Import QArith Lqa Cleanup.





(** Of the four entries above only the old file that can be removed
    goes. *)
Example only_the_stale_file_goes :
  clean_stale_files (__init__ "temp" 24) 200000
    (Some [{| filename := "a.wav"; isfile := true;
              getmtime := Returns 150000; remove := Returns tt |};
           {| filename := "b.wav"; isfile := true;
              getmtime := Returns 1000;
              remove := Raises (error "Permission denied") |};
           {| filename := "c.wav"; isfile := true;
              getmtime := Returns 1000; remove := Returns tt |};
           {| filename := ".gitkeep"; isfile := true;
              getmtime := Returns 0; remove := Returns tt |}])
  = (["c.wav"], Returns (Some 1%nat)).
Proof. vm_compute. reflexivity. Qed.

End CleanupFacts.

(* ----------------------------------------------------------------- *)
(** ** The output of whisper.cpp *)
(* ----------------------------------------------------------------- *)

Section VttFacts.
Import Reading Vtt.







Example vtt_sample :
  _parse_vtt_output
    (String.concat (String LF EmptyString)
       ["WEBVTT"; "";
        "[00:00:00.000 --> 00:00:02.000]   Hello there.";
        "00:00:02.000 --> 00:00:04.000";
        "  [00:00:02.000 --> 00:00:04.000] General Kenobi. "])
  = "Hello there. General Kenobi.".
Proof. vm_compute. reflexivity. Qed.

End VttFacts.
